(** * Serial device emulator: protocol parsers, simulators and device manager

  A shallow embedding of the protocol emulation layer of the serial device
  emulator (Yaesu CAT parser, GS-232 rotator parser and rotation simulator,
  NMEA-0183 sentence generator and GPS clock, device manager), followed by
  the properties established about it.

  Conventions of the embedding:
  - a C [char] is an 8-bit value held in [Z]; a C string is the [list Z] of
    the characters before its terminating NUL;
  - fixed-width integers are [Z] with the wrap-around written out;
  - [float] is IEEE-754 binary32 and [double] binary64, both through the
    specification of floating-point arithmetic of the standard library
    ([SpecFloat]), round-to-nearest-even;
  - the serial port is the list of characters written so far; the
    characters available for reading are an argument of [update];
  - [millis()] is an argument of the functions that read the clock;
  - log lines are not part of the modelled state. *)

From Stdlib Require Import ZArith Lia List Ascii String Bool SpecFloat.
From stdpp Require Import base list.
Import ListNotations.

Local Open Scope Z_scope.

(* ===================================================================== *)
(** * Part I: the model                                                   *)
(* ===================================================================== *)

(** ** The C library functions the sources call *)

Module CLib.

Definition cchar := Z.
Definition cstring := list Z.

Definition char_of_ascii (a : ascii) : Z := Z.of_N (N_of_ascii a).

(** A string literal of the source. *)
Definition str (s : string) : cstring := map char_of_ascii (list_ascii_of_string s).

Definition isdigit (c : Z) : bool := (48 <=? c) && (c <=? 57).

(** [isspace] in the C locale: space, \t, \n, \v, \f, \r. *)
Definition isspace (c : Z) : bool := (c =? 32) || ((9 <=? c) && (c <=? 13)).

Definition toupper (c : Z) : Z := if (97 <=? c) && (c <=? 122) then c - 32 else c.
Definition tolower (c : Z) : Z := if (65 <=? c) && (c <=? 90) then c + 32 else c.

(** [strcmp(a, b) == 0] *)
Definition strcmp_eq (a b : cstring) : bool := bool_decide (a = b).

(** [strcasecmp(a, b) == 0] *)
Definition strcasecmp_eq (a b : cstring) : bool :=
  bool_decide (map tolower a = map tolower b).

(** [strchr(s, c)]: the suffix of [s] starting at the first [c], together
    with the number of characters before it. *)
Fixpoint strchr (s : cstring) (c : Z) : option (nat * cstring) :=
  match s with
  | [] => None
  | x :: r =>
      if x =? c then Some (O, s)
      else match strchr r c with
           | Some (n, t) => Some (S n, t)
           | None => None
           end
  end.

(** The Arduino macro
    [constrain(amt,low,high) ((amt)<(low)?(low):((amt)>(high)?(high):(amt)))]
    on integers. *)
Definition constrain (amt low high : Z) : Z :=
  if amt <? low then low else if amt >? high then high else amt.

(** Conversions to the fixed-width integer types. *)
Definition to_uint8 (x : Z) : Z := x mod 256.
Definition to_uint16 (x : Z) : Z := x mod 65536.
Definition to_uint32 (x : Z) : Z := x mod 4294967296.
Definition to_int16 (x : Z) : Z := (x + 32768) mod 65536 - 32768.
Definition to_int32 (x : Z) : Z := (x + 2147483648) mod 4294967296 - 2147483648.

(** [unsigned long], [long] and [int] are 32 bits wide on the 32-bit
    targets of the firmware. *)
Definition ULONG_MAX : Z := 4294967295.
Definition LONG_MAX : Z := 2147483647.
Definition LONG_MIN : Z := -2147483648.

(** The loop of [parseAngle] that steps over leading blanks (character 32). *)
Fixpoint skip_while_space (s : cstring) : cstring :=
  match s with
  | 32 :: r => skip_while_space r
  | _ => s
  end.

(** *** strtoul / strtol / atoi, base 10 *)

Fixpoint skip_spaces (s : cstring) : cstring :=
  match s with
  | c :: r => if isspace c then skip_spaces r else s
  | [] => []
  end.

(** The maximal run of decimal digits at the head of [s]: its exact value,
    the number of digits, and what follows. *)
Fixpoint scan_digits (acc : Z) (n : nat) (s : cstring) : Z * nat * cstring :=
  match s with
  | c :: r => if isdigit c then scan_digits (acc * 10 + (c - 48)) (S n) r
              else (acc, n, s)
  | [] => (acc, n, [])
  end.

(** Optional sign: [true] when a minus sign was read. *)
Definition scan_sign (s : cstring) : bool * cstring :=
  match s with
  | 45 :: r => (true, r)
  | 43 :: r => (false, r)
  | _ => (false, s)
  end.

(** [strtoul(s, &endptr, 10)]: the value and [endptr].  Without a digit no
    conversion is done: the value is 0 and [endptr] is [s].  A magnitude
    above [ULONG_MAX] yields [ULONG_MAX]; a minus sign negates the result
    in the unsigned type. *)
Definition strtoul (s : cstring) : Z * cstring :=
  let '(neg, t) := scan_sign (skip_spaces s) in
  let '(v, n, rest) := scan_digits 0 O t in
  match n with
  | O => (0, s)
  | _ =>
      if v >? ULONG_MAX then (ULONG_MAX, rest)
      else ((if neg then to_uint32 (- v) else v), rest)
  end.

(** [strtol(s, &endptr, 10)], saturating at [LONG_MIN] and [LONG_MAX]. *)
Definition strtol (s : cstring) : Z * cstring :=
  let '(neg, t) := scan_sign (skip_spaces s) in
  let '(v, n, rest) := scan_digits 0 O t in
  match n with
  | O => (0, s)
  | _ =>
      let sv := if neg then - v else v in
      ((if sv >? LONG_MAX then LONG_MAX
        else if sv <? LONG_MIN then LONG_MIN else sv), rest)
  end.

(** [atoi(s)] is [(int) strtol(s, NULL, 10)]. *)
Definition atoi (s : cstring) : Z := to_int32 (fst (strtol s)).

(** *** printf conversions *)

(** Decimal digits of a non-negative number, most significant first.  The
    recursion is bounded by the binary length of the number, which is never
    less than its decimal length. *)
Fixpoint dec_digits_aux (fuel : nat) (n : Z) : cstring :=
  match fuel with
  | O => [48 + n mod 10]
  | S k => if n <? 10 then [48 + n]
           else dec_digits_aux k (n / 10) ++ [48 + n mod 10]
  end.

Definition dec_digits (n : Z) : cstring :=
  dec_digits_aux (Z.to_nat (Z.log2 n)) n.

(** Zero padding on the left up to [width] characters. *)
Definition zero_pad (width : nat) (s : cstring) : cstring :=
  replicate (width - length s) 48 ++ s.

(** ["%0<width>lu"] and ["%0<width>d"] of a non-negative value; ["%d"] and
    ["%0<width>d"] of any value (the sign counts in the width); and
    ["%+0<width>d"]. *)
Definition fmt_u (width : nat) (n : Z) : cstring := zero_pad width (dec_digits n).

Definition fmt_d (width : nat) (n : Z) : cstring :=
  if n <? 0 then 45 :: zero_pad (width - 1) (dec_digits (- n))
  else zero_pad width (dec_digits n).

Definition fmt_plus_d (width : nat) (n : Z) : cstring :=
  (if n <? 0 then 45 else 43) :: zero_pad (width - 1) (dec_digits (Z.abs n)).

(** ["%02X"] of a byte. *)
Definition hex_digit (d : Z) : Z := if d <? 10 then 48 + d else 55 + d.
Definition fmt_02X (b : Z) : cstring := [hex_digit (b / 16); hex_digit (b mod 16)].

(** [snprintf(buf, size, ...)] keeps the first [size - 1] characters of the
    formatted text (and returns the untruncated length). *)
Definition snprintf (size : nat) (text : cstring) : cstring := take (size - 1) text.

End CLib.

(** ** Yaesu CAT: radio state and command parser *)

Module Yaesu.
Import CLib.

Inductive YaesuVFO := VFO_A | VFO_B.

Definition vfo_code (v : YaesuVFO) : Z := match v with VFO_A => 0 | VFO_B => 1 end.

Definition YAESU_RADIO_ID : cstring := str "0670".
Definition DEFAULT_FREQ_VFO_A : Z := 14074000.
Definition DEFAULT_FREQ_VFO_B : Z := 7074000.
Definition FREQ_MIN : Z := 30000.
Definition FREQ_MAX : Z := 470000000.
Definition MODE_USB : Z := 2.

(** [struct YaesuState]; a [YaesuMode] is held as its numeric code. *)
Record YaesuState := mkYaesuState {
  freqVfoA : Z;
  freqVfoB : Z;
  currentVfo : YaesuVFO;
  modeVfoA : Z;
  modeVfoB : Z;
  ptt : bool;
  powerOn : bool;
  ritOn : bool;
  xitOn : bool;
  ritOffset : Z;
  xitOffset : Z;
  smeter : Z;
  powerMeter : Z;
  swrMeter : Z;
  alcMeter : Z;
  compMeter : Z;
  squelch : Z;
  afGain : Z;
  rfGain : Z
}.

Definition reset : YaesuState :=
  mkYaesuState DEFAULT_FREQ_VFO_A DEFAULT_FREQ_VFO_B VFO_A MODE_USB MODE_USB
               false true false false 0 0 0 0 0 0 0 50 128 255.

Definition set_freqVfoA (v : Z) (s : YaesuState) : YaesuState :=
  mkYaesuState v (freqVfoB s) (currentVfo s) (modeVfoA s) (modeVfoB s) (ptt s)
    (powerOn s) (ritOn s) (xitOn s) (ritOffset s) (xitOffset s) (smeter s)
    (powerMeter s) (swrMeter s) (alcMeter s) (compMeter s) (squelch s) (afGain s) (rfGain s).
Definition set_freqVfoB (v : Z) (s : YaesuState) : YaesuState :=
  mkYaesuState (freqVfoA s) v (currentVfo s) (modeVfoA s) (modeVfoB s) (ptt s)
    (powerOn s) (ritOn s) (xitOn s) (ritOffset s) (xitOffset s) (smeter s)
    (powerMeter s) (swrMeter s) (alcMeter s) (compMeter s) (squelch s) (afGain s) (rfGain s).
Definition set_currentVfo (v : YaesuVFO) (s : YaesuState) : YaesuState :=
  mkYaesuState (freqVfoA s) (freqVfoB s) v (modeVfoA s) (modeVfoB s) (ptt s)
    (powerOn s) (ritOn s) (xitOn s) (ritOffset s) (xitOffset s) (smeter s)
    (powerMeter s) (swrMeter s) (alcMeter s) (compMeter s) (squelch s) (afGain s) (rfGain s).
Definition set_modeVfoA (v : Z) (s : YaesuState) : YaesuState :=
  mkYaesuState (freqVfoA s) (freqVfoB s) (currentVfo s) v (modeVfoB s) (ptt s)
    (powerOn s) (ritOn s) (xitOn s) (ritOffset s) (xitOffset s) (smeter s)
    (powerMeter s) (swrMeter s) (alcMeter s) (compMeter s) (squelch s) (afGain s) (rfGain s).
Definition set_modeVfoB (v : Z) (s : YaesuState) : YaesuState :=
  mkYaesuState (freqVfoA s) (freqVfoB s) (currentVfo s) (modeVfoA s) v (ptt s)
    (powerOn s) (ritOn s) (xitOn s) (ritOffset s) (xitOffset s) (smeter s)
    (powerMeter s) (swrMeter s) (alcMeter s) (compMeter s) (squelch s) (afGain s) (rfGain s).
Definition set_ptt (v : bool) (s : YaesuState) : YaesuState :=
  mkYaesuState (freqVfoA s) (freqVfoB s) (currentVfo s) (modeVfoA s) (modeVfoB s) v
    (powerOn s) (ritOn s) (xitOn s) (ritOffset s) (xitOffset s) (smeter s)
    (powerMeter s) (swrMeter s) (alcMeter s) (compMeter s) (squelch s) (afGain s) (rfGain s).
Definition set_powerOn (v : bool) (s : YaesuState) : YaesuState :=
  mkYaesuState (freqVfoA s) (freqVfoB s) (currentVfo s) (modeVfoA s) (modeVfoB s) (ptt s)
    v (ritOn s) (xitOn s) (ritOffset s) (xitOffset s) (smeter s)
    (powerMeter s) (swrMeter s) (alcMeter s) (compMeter s) (squelch s) (afGain s) (rfGain s).
Definition set_ritOn (v : bool) (s : YaesuState) : YaesuState :=
  mkYaesuState (freqVfoA s) (freqVfoB s) (currentVfo s) (modeVfoA s) (modeVfoB s) (ptt s)
    (powerOn s) v (xitOn s) (ritOffset s) (xitOffset s) (smeter s)
    (powerMeter s) (swrMeter s) (alcMeter s) (compMeter s) (squelch s) (afGain s) (rfGain s).
Definition set_xitOn (v : bool) (s : YaesuState) : YaesuState :=
  mkYaesuState (freqVfoA s) (freqVfoB s) (currentVfo s) (modeVfoA s) (modeVfoB s) (ptt s)
    (powerOn s) (ritOn s) v (ritOffset s) (xitOffset s) (smeter s)
    (powerMeter s) (swrMeter s) (alcMeter s) (compMeter s) (squelch s) (afGain s) (rfGain s).
Definition set_ritOffset (v : Z) (s : YaesuState) : YaesuState :=
  mkYaesuState (freqVfoA s) (freqVfoB s) (currentVfo s) (modeVfoA s) (modeVfoB s) (ptt s)
    (powerOn s) (ritOn s) (xitOn s) v (xitOffset s) (smeter s)
    (powerMeter s) (swrMeter s) (alcMeter s) (compMeter s) (squelch s) (afGain s) (rfGain s).
Definition set_squelch (v : Z) (s : YaesuState) : YaesuState :=
  mkYaesuState (freqVfoA s) (freqVfoB s) (currentVfo s) (modeVfoA s) (modeVfoB s) (ptt s)
    (powerOn s) (ritOn s) (xitOn s) (ritOffset s) (xitOffset s) (smeter s)
    (powerMeter s) (swrMeter s) (alcMeter s) (compMeter s) v (afGain s) (rfGain s).
Definition set_afGain (v : Z) (s : YaesuState) : YaesuState :=
  mkYaesuState (freqVfoA s) (freqVfoB s) (currentVfo s) (modeVfoA s) (modeVfoB s) (ptt s)
    (powerOn s) (ritOn s) (xitOn s) (ritOffset s) (xitOffset s) (smeter s)
    (powerMeter s) (swrMeter s) (alcMeter s) (compMeter s) (squelch s) v (rfGain s).
Definition set_rfGain (v : Z) (s : YaesuState) : YaesuState :=
  mkYaesuState (freqVfoA s) (freqVfoB s) (currentVfo s) (modeVfoA s) (modeVfoB s) (ptt s)
    (powerOn s) (ritOn s) (xitOn s) (ritOffset s) (xitOffset s) (smeter s)
    (powerMeter s) (swrMeter s) (alcMeter s) (compMeter s) (squelch s) (afGain s) v.

Definition getCurrentFreq (s : YaesuState) : Z :=
  match currentVfo s with VFO_A => freqVfoA s | VFO_B => freqVfoB s end.

Definition getCurrentMode (s : YaesuState) : Z :=
  match currentVfo s with VFO_A => modeVfoA s | VFO_B => modeVfoB s end.

Definition setCurrentMode (mode : Z) (s : YaesuState) : YaesuState :=
  match currentVfo s with VFO_A => set_modeVfoA mode s | VFO_B => set_modeVfoB mode s end.

Definition CAT_TERMINATOR : Z := 59.
Definition CAT_BUFFER_SIZE : nat := 64.

(** [class CATParser]: the radio state it refers to, the characters written
    to the serial port so far, and the first [_bufLen] characters of
    [_buffer]. *)
Record CATParser := mkCATParser {
  state : YaesuState;
  serial_out : cstring;
  buffer : cstring
}.

Definition with_state (f : YaesuState -> YaesuState) (p : CATParser) : CATParser :=
  mkCATParser (f (state p)) (serial_out p) (buffer p).

Definition sendResponse (response : cstring) (p : CATParser) : CATParser :=
  mkCATParser (state p) (serial_out p ++ response ++ [CAT_TERMINATOR]) (buffer p).

(** [parseFrequency]: [Some freq] when it returns true. *)
Definition parseFrequency (s : cstring) : option Z :=
  let '(val, endptr) := strtoul s in
  match endptr with
  | c :: _ => if negb (c =? CAT_TERMINATOR) then None
              else if (val <? FREQ_MIN) || (val >? FREQ_MAX) then None
              else Some val
  | [] => if (val <? FREQ_MIN) || (val >? FREQ_MAX) then None else Some val
  end.

(** The handlers; each returns true (the command was recognised), so only
    the parser after the call is kept. *)

Definition handleFA (params : cstring) (p : CATParser) : CATParser :=
  match params with
  | [] => sendResponse (snprintf 16 (str "FA" ++ fmt_u 9 (freqVfoA (state p)))) p
  | _ => match parseFrequency params with
         | Some freq => with_state (set_freqVfoA freq) p
         | None => p
         end
  end.

Definition handleFB (params : cstring) (p : CATParser) : CATParser :=
  match params with
  | [] => sendResponse (snprintf 16 (str "FB" ++ fmt_u 9 (freqVfoB (state p)))) p
  | _ => match parseFrequency params with
         | Some freq => with_state (set_freqVfoB freq) p
         | None => p
         end
  end.

Definition formatIF (s : YaesuState) : cstring :=
  let freq := getCurrentFreq s in
  let rit := if ritOn s then ritOffset s else 0 in
  snprintf 32 (str "IF" ++ fmt_u 9 freq ++ fmt_plus_d 5 rit ++ str "0"
               ++ fmt_d 2 (to_uint8 (getCurrentMode s)) ++ str "0000000000").

Definition handleIF (params : cstring) (p : CATParser) : CATParser :=
  sendResponse (formatIF (state p)) p.

Definition handleID (params : cstring) (p : CATParser) : CATParser :=
  sendResponse (snprintf 8 (str "ID" ++ YAESU_RADIO_ID)) p.

Definition handleMD (params : cstring) (p : CATParser) : CATParser :=
  match params with
  | [] => sendResponse (snprintf 8 (str "MD0" ++ fmt_d 0 (getCurrentMode (state p)))) p
  | _ :: c1 :: _ =>
      let mode := c1 - 48 in
      if (1 <=? mode) && (mode <=? 14) then with_state (setCurrentMode mode) p else p
  | _ => p
  end.

Definition bit (b : bool) : Z := if b then 1 else 0.

Definition handlePS (params : cstring) (p : CATParser) : CATParser :=
  match params with
  | [] => sendResponse (snprintf 4 (str "PS" ++ fmt_d 0 (bit (powerOn (state p))))) p
  | c0 :: _ => with_state (set_powerOn (c0 =? 49)) p
  end.

Definition handleSM (params : cstring) (p : CATParser) : CATParser :=
  sendResponse (snprintf 8 (str "SM0" ++ fmt_d 3 (smeter (state p)))) p.

Definition handleTX (params : cstring) (p : CATParser) : CATParser :=
  match params with
  | [] => sendResponse (snprintf 4 (str "TX" ++ fmt_d 0 (bit (ptt (state p))))) p
  | c0 :: _ => with_state (set_ptt (negb (c0 =? 48))) p
  end.

Definition handleRX (params : cstring) (p : CATParser) : CATParser :=
  with_state (set_ptt false) p.

Definition handleVS (params : cstring) (p : CATParser) : CATParser :=
  match params with
  | [] => sendResponse (snprintf 8 (str "VS" ++ fmt_d 0 (vfo_code (currentVfo (state p))))) p
  | c0 :: _ => with_state (set_currentVfo (if c0 =? 48 then VFO_A else VFO_B)) p
  end.

Definition handleRI (params : cstring) (p : CATParser) : CATParser :=
  match params with
  | [] => sendResponse (snprintf 4 (str "RI" ++ fmt_d 0 (bit (ritOn (state p))))) p
  | c0 :: _ => with_state (set_ritOn (c0 =? 49)) p
  end.

Definition handleXT (params : cstring) (p : CATParser) : CATParser :=
  match params with
  | [] => sendResponse (snprintf 4 (str "XT" ++ fmt_d 0 (bit (xitOn (state p))))) p
  | c0 :: _ => with_state (set_xitOn (c0 =? 49)) p
  end.

Definition handleRD (params : cstring) (p : CATParser) : CATParser :=
  if (4 <=? length params)%nat then
    with_state (set_ritOffset (constrain (to_int16 (atoi params)) (-9999) 9999)) p
  else
    with_state (fun s => set_ritOffset (constrain (ritOffset s - 10) (-9999) 9999) s) p.

Definition handleRU (params : cstring) (p : CATParser) : CATParser :=
  if (4 <=? length params)%nat then
    with_state (set_ritOffset (constrain (to_int16 (atoi params)) (-9999) 9999)) p
  else
    with_state (fun s => set_ritOffset (constrain (ritOffset s + 10) (-9999) 9999) s) p.

Definition handleAG (params : cstring) (p : CATParser) : CATParser :=
  if (length params <=? 1)%nat then
    sendResponse (snprintf 8 (str "AG0" ++ fmt_d 3 (afGain (state p)))) p
  else if (4 <=? length params)%nat then
    with_state (set_afGain (constrain (atoi (drop 1 params)) 0 255)) p
  else p.

Definition handleRG (params : cstring) (p : CATParser) : CATParser :=
  if (length params <=? 1)%nat then
    sendResponse (snprintf 8 (str "RG0" ++ fmt_d 3 (rfGain (state p)))) p
  else if (4 <=? length params)%nat then
    with_state (set_rfGain (constrain (atoi (drop 1 params)) 0 255)) p
  else p.

Definition handleSQ (params : cstring) (p : CATParser) : CATParser :=
  if (length params <=? 1)%nat then
    sendResponse (snprintf 8 (str "SQ0" ++ fmt_d 3 (squelch (state p)))) p
  else if (4 <=? length params)%nat then
    with_state (set_squelch (constrain (atoi (drop 1 params)) 0 100)) p
  else p.

Definition handleRM (params : cstring) (p : CATParser) : CATParser :=
  let meter := match params with c0 :: _ => c0 - 48 | [] => 1 end in
  let s := state p in
  let value :=
    if meter =? 1 then smeter s
    else if meter =? 2 then powerMeter s
    else if meter =? 3 then swrMeter s
    else if meter =? 4 then alcMeter s
    else if meter =? 5 then compMeter s
    else 0 in
  sendResponse (snprintf 16 (str "RM" ++ fmt_d 0 meter ++ fmt_d 3 value)) p.

(** [processCommand]: [_buffer] holds a complete command. *)
Definition processCommand (p : CATParser) : CATParser :=
  match buffer p with
  | c0 :: c1 :: params =>
      let cmd := [c0; c1] in
      if strcmp_eq cmd (str "FA") then handleFA params p
      else if strcmp_eq cmd (str "FB") then handleFB params p
      else if strcmp_eq cmd (str "IF") then handleIF params p
      else if strcmp_eq cmd (str "ID") then handleID params p
      else if strcmp_eq cmd (str "MD") then handleMD params p
      else if strcmp_eq cmd (str "PS") then handlePS params p
      else if strcmp_eq cmd (str "SM") then handleSM params p
      else if strcmp_eq cmd (str "TX") then handleTX params p
      else if strcmp_eq cmd (str "RX") then handleRX params p
      else if strcmp_eq cmd (str "VS") then handleVS params p
      else if strcmp_eq cmd (str "RI") then handleRI params p
      else if strcmp_eq cmd (str "XT") then handleXT params p
      else if strcmp_eq cmd (str "RD") then handleRD params p
      else if strcmp_eq cmd (str "RU") then handleRU params p
      else if strcmp_eq cmd (str "AG") then handleAG params p
      else if strcmp_eq cmd (str "RG") then handleRG params p
      else if strcmp_eq cmd (str "SQ") then handleSQ params p
      else if strcmp_eq cmd (str "RM") then handleRM params p
      else p
  | _ => p
  end.

Definition set_buffer (b : cstring) (p : CATParser) : CATParser :=
  mkCATParser (state p) (serial_out p) b.

(** One iteration of the loop of [update], on the character [c] read from the
    serial port ([char] is unsigned on the ARM targets, so [c < 32] is a
    comparison of the byte value). *)
Definition update_char (c : Z) (p : CATParser) : CATParser :=
  if c =? CAT_TERMINATOR then
    set_buffer [] (match buffer p with [] => p | _ => processCommand p end)
  else if c <? 32 then p
  else if (length (buffer p) <? CAT_BUFFER_SIZE - 1)%nat then
    set_buffer (buffer p ++ [to_uint8 (toupper c)]) p
  else set_buffer [] p.

(** [update]: drains the characters available on the serial port. *)
Definition update (input : cstring) (p : CATParser) : CATParser :=
  fold_left (fun q c => update_char c q) input p.

End Yaesu.

(** ** Floating-point numbers of the sources *)

Module F32.

(** [float]: IEEE-754 binary32. *)
Definition prec : Z := 24.
Definition emax : Z := 128.

Definition f32 := spec_float.

Definition of_Z (n : Z) : f32 := binary_normalize prec emax n 0 false.
Definition add : f32 -> f32 -> f32 := SFadd prec emax.
Definition sub : f32 -> f32 -> f32 := SFsub prec emax.
Definition mul : f32 -> f32 -> f32 := SFmul prec emax.
Definition div : f32 -> f32 -> f32 := SFdiv prec emax.

(** The comparison operators of C; each is false on a NaN. *)
Definition lt (x y : f32) : bool := SFltb x y.
Definition le (x y : f32) : bool := SFleb x y.
Definition gt (x y : f32) : bool := SFltb y x.
Definition ge (x y : f32) : bool := SFleb y x.

(** A decimal literal [n / d] of the source, correctly rounded. *)
Definition literal (n d : Z) : f32 := div (of_Z n) (of_Z d).

(** [(int) x] for a finite [x]: truncation toward zero.  (The conversion of
    a NaN, an infinity or a value outside [int] is undefined in C; the model
    yields 0 for the first two.) *)
Definition to_int (x : f32) : Z :=
  match x with
  | S754_finite s m e =>
      let mag := if 0 <=? e then Z.pos m * 2 ^ e else Z.pos m / 2 ^ (- e) in
      if s then - mag else mag
  | _ => 0
  end.

(** [constrain(amt, low, high)] on floats. *)
Definition constrain (amt low high : f32) : f32 :=
  if lt amt low then low else if gt amt high then high else amt.

End F32.

Module F64.

(** [double]: IEEE-754 binary64. *)
Definition prec : Z := 53.
Definition emax : Z := 1024.

Definition f64 := spec_float.

Definition of_Z (n : Z) : f64 := binary_normalize prec emax n 0 false.
Definition sub : f64 -> f64 -> f64 := SFsub prec emax.
Definition mul : f64 -> f64 -> f64 := SFmul prec emax.
Definition div : f64 -> f64 -> f64 := SFdiv prec emax.
Definition fabs : f64 -> f64 := SFabs.
Definition ge (x y : f64) : bool := SFleb y x.
Definition literal (n d : Z) : f64 := div (of_Z n) (of_Z d).

(** The conversion of a [float] to [double] is exact: the same number in
    the wider format. *)
Definition of_f32 (x : F32.f32) : f64 :=
  match x with
  | S754_finite s m e => binary_normalize prec emax (if s then Z.neg m else Z.pos m) e s
  | _ => x
  end.

Definition to_int : f64 -> Z := F32.to_int.

(** The conversion [(int) x] is defined: [x] is finite and its integer part
    is a value of [int]. *)
Definition fits_int (x : f64) : bool :=
  match x with
  | S754_zero _ => true
  | S754_finite _ _ _ => (-2147483648 <=? to_int x) && (to_int x <=? 2147483647)
  | _ => false
  end.

End F64.

(** ** G-5500 rotator: state, GS-232 parser and rotation simulator *)

Module G5500.
Import CLib.

Definition AZ_MIN : F32.f32 := F32.of_Z 0.
Definition AZ_MAX : F32.f32 := F32.of_Z 450.
Definition EL_MIN : F32.f32 := F32.of_Z 0.
Definition EL_MAX : F32.f32 := F32.of_Z 180.

Inductive RotationDir := STOPPED | CW | CCW.

(** [struct G5500State] *)
Record G5500State := mkG5500State {
  azimuth : F32.f32;
  elevation : F32.f32;
  targetAzimuth : F32.f32;
  targetElevation : F32.f32;
  azRotation : RotationDir;
  elRotation : RotationDir;
  azGotoMode : bool;
  elGotoMode : bool;
  lastUpdateMs : Z
}.

Definition reset : G5500State :=
  mkG5500State (F32.of_Z 0) (F32.of_Z 0) (F32.of_Z 0) (F32.of_Z 0)
               STOPPED STOPPED false false 0.

Definition set_azimuth (v : F32.f32) (s : G5500State) : G5500State :=
  mkG5500State v (elevation s) (targetAzimuth s) (targetElevation s)
    (azRotation s) (elRotation s) (azGotoMode s) (elGotoMode s) (lastUpdateMs s).
Definition set_elevation (v : F32.f32) (s : G5500State) : G5500State :=
  mkG5500State (azimuth s) v (targetAzimuth s) (targetElevation s)
    (azRotation s) (elRotation s) (azGotoMode s) (elGotoMode s) (lastUpdateMs s).
Definition set_targetAzimuth (v : F32.f32) (s : G5500State) : G5500State :=
  mkG5500State (azimuth s) (elevation s) v (targetElevation s)
    (azRotation s) (elRotation s) (azGotoMode s) (elGotoMode s) (lastUpdateMs s).
Definition set_targetElevation (v : F32.f32) (s : G5500State) : G5500State :=
  mkG5500State (azimuth s) (elevation s) (targetAzimuth s) v
    (azRotation s) (elRotation s) (azGotoMode s) (elGotoMode s) (lastUpdateMs s).
Definition set_az (dir : RotationDir) (goto : bool) (s : G5500State) : G5500State :=
  mkG5500State (azimuth s) (elevation s) (targetAzimuth s) (targetElevation s)
    dir (elRotation s) goto (elGotoMode s) (lastUpdateMs s).
Definition set_el (dir : RotationDir) (goto : bool) (s : G5500State) : G5500State :=
  mkG5500State (azimuth s) (elevation s) (targetAzimuth s) (targetElevation s)
    (azRotation s) dir (azGotoMode s) goto (lastUpdateMs s).
Definition set_lastUpdateMs (v : Z) (s : G5500State) : G5500State :=
  mkG5500State (azimuth s) (elevation s) (targetAzimuth s) (targetElevation s)
    (azRotation s) (elRotation s) (azGotoMode s) (elGotoMode s) v.

Definition half : F32.f32 := F32.literal 5 10.

Definition getAzimuthInt (s : G5500State) : Z := F32.to_int (F32.add (azimuth s) half).
Definition getElevationInt (s : G5500State) : Z := F32.to_int (F32.add (elevation s) half).

Definition stopAzimuth : G5500State -> G5500State := set_az STOPPED false.
Definition stopElevation : G5500State -> G5500State := set_el STOPPED false.
Definition stopAll (s : G5500State) : G5500State := stopElevation (stopAzimuth s).
Definition rotateCW : G5500State -> G5500State := set_az CW false.
Definition rotateCCW : G5500State -> G5500State := set_az CCW false.
Definition rotateUp : G5500State -> G5500State := set_el CW false.
Definition rotateDown : G5500State -> G5500State := set_el CCW false.

Definition gotoAzimuth (target : F32.f32) (s : G5500State) : G5500State :=
  let s1 := set_targetAzimuth (F32.constrain target AZ_MIN AZ_MAX) s in
  if F32.gt (targetAzimuth s1) (azimuth s1) then set_az CW true s1
  else if F32.lt (targetAzimuth s1) (azimuth s1) then set_az CCW true s1
  else set_az STOPPED false s1.

Definition gotoElevation (target : F32.f32) (s : G5500State) : G5500State :=
  let s1 := set_targetElevation (F32.constrain target EL_MIN EL_MAX) s in
  if F32.gt (targetElevation s1) (elevation s1) then set_el CW true s1
  else if F32.lt (targetElevation s1) (elevation s1) then set_el CCW true s1
  else set_el STOPPED false s1.

Definition GS232_CR : Z := 13.
Definition GS232_LF : Z := 10.
Definition CAT_BUFFER_SIZE : nat := 64.

(** [class GS232Parser]: the rotator state it refers to, the characters
    written to the serial port so far, and the first [_bufLen] characters of
    [_buffer]. *)
Record GS232Parser := mkGS232Parser {
  state : G5500State;
  serial_out : cstring;
  buffer : cstring
}.

Definition with_state (f : G5500State -> G5500State) (p : GS232Parser) : GS232Parser :=
  mkGS232Parser (f (state p)) (serial_out p) (buffer p).

Definition set_buffer (b : cstring) (p : GS232Parser) : GS232Parser :=
  mkGS232Parser (state p) (serial_out p) b.

Definition sendResponse (response : cstring) (p : GS232Parser) : GS232Parser :=
  mkGS232Parser (state p) (serial_out p ++ response ++ [GS232_CR; GS232_LF]) (buffer p).

(** [parseAngle]: [Some angle] when it returns true. *)
Definition parseAngle (s : cstring) : option Z :=
  match s with
  | [] => None
  | _ =>
      let t := skip_while_space s in
      let '(val, endptr) := strtol t in
      if bool_decide (endptr = t) then None else Some (to_int32 val)
  end.

Definition handleR : GS232Parser -> GS232Parser := with_state rotateCW.
Definition handleL : GS232Parser -> GS232Parser := with_state rotateCCW.
Definition handleA : GS232Parser -> GS232Parser := with_state stopAzimuth.
Definition handleU : GS232Parser -> GS232Parser := with_state rotateUp.
Definition handleD : GS232Parser -> GS232Parser := with_state rotateDown.
Definition handleE : GS232Parser -> GS232Parser := with_state stopElevation.
Definition handleS : GS232Parser -> GS232Parser := with_state stopAll.

Definition handleC (p : GS232Parser) : GS232Parser :=
  match buffer p with
  | _ :: 50 :: _ =>
      sendResponse (snprintf 32 (str "+0" ++ fmt_d 3 (getAzimuthInt (state p))
                                 ++ str " +0" ++ fmt_d 3 (getElevationInt (state p)))) p
  | _ => sendResponse (snprintf 32 (str "+0" ++ fmt_d 3 (getAzimuthInt (state p)))) p
  end.

Definition handleB (p : GS232Parser) : GS232Parser :=
  sendResponse (snprintf 16 (str "+0" ++ fmt_d 3 (getElevationInt (state p)))) p.

Definition handleM (params : cstring) (p : GS232Parser) : GS232Parser :=
  match parseAngle params with
  | None => p
  | Some angle =>
      if (angle <? F32.to_int AZ_MIN) || (angle >? F32.to_int AZ_MAX) then p
      else with_state (gotoAzimuth (F32.of_Z angle)) p
  end.

Definition handleW (params : cstring) (p : GS232Parser) : GS232Parser :=
  match strchr params 32 with
  | None => p
  | Some (azLen, space) =>
      let azLen := if (8 <=? azLen)%nat then 7%nat else azLen in
      let azStr := take azLen params in
      match parseAngle azStr with
      | None => p
      | Some azAngle =>
          match parseAngle (drop 1 space) with
          | None => p
          | Some elAngle =>
              if (azAngle <? F32.to_int AZ_MIN) || (azAngle >? F32.to_int AZ_MAX) then p
              else if (elAngle <? F32.to_int EL_MIN) || (elAngle >? F32.to_int EL_MAX) then p
              else with_state (fun s => gotoElevation (F32.of_Z elAngle)
                                          (gotoAzimuth (F32.of_Z azAngle) s)) p
          end
      end
  end.

(** [processCommand]: dispatch on the first character of [_buffer]. *)
Definition processCommand (p : GS232Parser) : GS232Parser :=
  match buffer p with
  | [] => p
  | cmd :: params =>
      if cmd =? 82 then handleR p          (* 'R' *)
      else if cmd =? 76 then handleL p     (* 'L' *)
      else if cmd =? 65 then handleA p     (* 'A' *)
      else if cmd =? 85 then handleU p     (* 'U' *)
      else if cmd =? 68 then handleD p     (* 'D' *)
      else if cmd =? 69 then handleE p     (* 'E' *)
      else if cmd =? 83 then handleS p     (* 'S' *)
      else if cmd =? 67 then handleC p     (* 'C' *)
      else if cmd =? 66 then handleB p     (* 'B' *)
      else if cmd =? 77 then handleM params p  (* 'M' *)
      else if cmd =? 87 then handleW params p  (* 'W' *)
      else p
  end.

(** One iteration of the loop of [GS232Parser::update]. *)
Definition update_char (c : Z) (p : GS232Parser) : GS232Parser :=
  if (c =? GS232_CR) || (c =? GS232_LF) then
    match buffer p with
    | [] => p
    | _ => set_buffer [] (processCommand p)
    end
  else if (length (buffer p) <? CAT_BUFFER_SIZE - 1)%nat && (32 <=? c) && (c <? 127) then
    set_buffer (buffer p ++ [toupper c]) p
  else p.

Definition parser_update (input : cstring) (p : GS232Parser) : GS232Parser :=
  fold_left (fun q c => update_char c q) input p.

(** *** The device wrapper *)

Definition BAUD_RATE_VALUES : list Z := [1200; 4800; 9600].
Definition NUM_BAUD_RATES : Z := 3.
Definition DEFAULT_BAUD_INDEX : Z := 2.
Definition MIN_SPEED : Z := 1.
Definition MAX_SPEED : Z := 10.
Definition DEFAULT_AZ_SPEED_INT : Z := 2.
Definition DEFAULT_EL_SPEED_INT : Z := 1.
Definition MIN_UPDATE_INTERVAL : Z := 10.

(** [class G5500Device].  [has_serial] tells whether [_serial] is non-null,
    [port] is the baud rate the serial port is open at ([None]: closed); the
    three options are held by their current values; [parser] carries the
    rotator state and the serial output. *)
Record G5500Device := mkG5500Device {
  has_serial : bool;
  port : option Z;
  uartIndex : Z;
  deviceId : Z;
  running : bool;
  parser : GS232Parser;
  opt_baud_rate : Z;
  opt_az_speed : Z;
  opt_el_speed : Z
}.

Definition set_parser (p : GS232Parser) (d : G5500Device) : G5500Device :=
  mkG5500Device (has_serial d) (port d) (uartIndex d) (deviceId d) (running d) p
    (opt_baud_rate d) (opt_az_speed d) (opt_el_speed d).
Definition set_running (r : bool) (d : G5500Device) : G5500Device :=
  mkG5500Device (has_serial d) (port d) (uartIndex d) (deviceId d) r (parser d)
    (opt_baud_rate d) (opt_az_speed d) (opt_el_speed d).
Definition set_port (b : option Z) (d : G5500Device) : G5500Device :=
  mkG5500Device (has_serial d) b (uartIndex d) (deviceId d) (running d) (parser d)
    (opt_baud_rate d) (opt_az_speed d) (opt_el_speed d).
Definition set_options (b az el : Z) (d : G5500Device) : G5500Device :=
  mkG5500Device (has_serial d) (port d) (uartIndex d) (deviceId d) (running d) (parser d)
    b az el.

(** The constructor: state reset, default options. *)
Definition new (serial : bool) (uart : Z) : G5500Device :=
  mkG5500Device serial None uart 255 false (mkGS232Parser reset [] [])
    DEFAULT_BAUD_INDEX DEFAULT_AZ_SPEED_INT DEFAULT_EL_SPEED_INT.

Definition applyBaudRate (d : G5500Device) : G5500Device :=
  let baudIndex := if opt_baud_rate d >=? NUM_BAUD_RATES then DEFAULT_BAUD_INDEX
                   else opt_baud_rate d in
  set_port (Some (nth (Z.to_nat baudIndex) BAUD_RATE_VALUES 0)) d.

Definition getAzSpeed (d : G5500Device) : F32.f32 := F32.of_Z (opt_az_speed d).
Definition getElSpeed (d : G5500Device) : F32.f32 := F32.of_Z (opt_el_speed d).

(** [begin], with the value [now] of [millis()]. *)
Definition begin (now : Z) (d : G5500Device) : bool * G5500Device :=
  if negb (has_serial d) then (false, d)
  else
    let d1 := applyBaudRate d in
    let p1 := set_buffer [] (parser d1) in
    let p2 := with_state (fun _ => set_lastUpdateMs now reset) p1 in
    (true, set_running true (set_parser p2 d1)).

Definition end_ (d : G5500Device) : G5500Device :=
  let d1 := set_running false d in
  let d2 := set_parser (with_state stopAll (parser d1)) d1 in
  set_port None d2.

(** The azimuth block of [simulateRotation]. *)
Definition rotate_azimuth (azSpeed deltaSec : F32.f32) (s : G5500State) : G5500State :=
  match azRotation s with
  | STOPPED => s
  | CW =>
      let azDelta := F32.mul azSpeed deltaSec in
      let s1 := set_azimuth (F32.add (azimuth s) azDelta) s in
      let s2 := if azGotoMode s1 && F32.ge (azimuth s1) (targetAzimuth s1)
                then stopAzimuth (set_azimuth (targetAzimuth s1) s1) else s1 in
      if F32.gt (azimuth s2) AZ_MAX then stopAzimuth (set_azimuth AZ_MAX s2) else s2
  | CCW =>
      let azDelta := F32.mul azSpeed deltaSec in
      let s1 := set_azimuth (F32.sub (azimuth s) azDelta) s in
      let s2 := if azGotoMode s1 && F32.le (azimuth s1) (targetAzimuth s1)
                then stopAzimuth (set_azimuth (targetAzimuth s1) s1) else s1 in
      if F32.lt (azimuth s2) AZ_MIN then stopAzimuth (set_azimuth AZ_MIN s2) else s2
  end.

(** The elevation block of [simulateRotation]. *)
Definition rotate_elevation (elSpeed deltaSec : F32.f32) (s : G5500State) : G5500State :=
  match elRotation s with
  | STOPPED => s
  | CW =>
      let elDelta := F32.mul elSpeed deltaSec in
      let s1 := set_elevation (F32.add (elevation s) elDelta) s in
      let s2 := if elGotoMode s1 && F32.ge (elevation s1) (targetElevation s1)
                then stopElevation (set_elevation (targetElevation s1) s1) else s1 in
      if F32.gt (elevation s2) EL_MAX then stopElevation (set_elevation EL_MAX s2) else s2
  | CCW =>
      let elDelta := F32.mul elSpeed deltaSec in
      let s1 := set_elevation (F32.sub (elevation s) elDelta) s in
      let s2 := if elGotoMode s1 && F32.le (elevation s1) (targetElevation s1)
                then stopElevation (set_elevation (targetElevation s1) s1) else s1 in
      if F32.lt (elevation s2) EL_MIN then stopElevation (set_elevation EL_MIN s2) else s2
  end.

(** [simulateRotation], with the value [now] of [millis()];
    [deltaMs] is computed in [unsigned long]. *)
Definition simulateRotation (now : Z) (d : G5500Device) : G5500Device :=
  let s := state (parser d) in
  let deltaMs := to_uint32 (now - lastUpdateMs s) in
  if deltaMs <? MIN_UPDATE_INTERVAL then d
  else
    let s1 := set_lastUpdateMs now s in
    let deltaSec := F32.div (F32.of_Z deltaMs) (F32.of_Z 1000) in
    let s2 := rotate_azimuth (getAzSpeed d) deltaSec s1 in
    let s3 := rotate_elevation (getElSpeed d) deltaSec s2 in
    set_parser (with_state (fun _ => s3) (parser d)) d.

(** [update], with the value [now] of [millis()] and the characters
    available on the serial port. *)
Definition update (now : Z) (input : cstring) (d : G5500Device) : G5500Device :=
  if negb (running d) then d
  else simulateRotation now (set_parser (parser_update input (parser d)) d).

Definition deserializeOptions (bytes : list Z) (d : G5500Device) : bool * G5500Device :=
  match bytes with
  | b0 :: b1 :: b2 :: _ =>
      let baudIndex := if b0 >=? NUM_BAUD_RATES then DEFAULT_BAUD_INDEX else b0 in
      let azSpeed := if (b1 <? MIN_SPEED) || (b1 >? MAX_SPEED) then DEFAULT_AZ_SPEED_INT else b1 in
      let elSpeed := if (b2 <? MIN_SPEED) || (b2 >? MAX_SPEED) then DEFAULT_EL_SPEED_INT else b2 in
      (true, set_options baudIndex azSpeed elSpeed d)
  | _ => (false, d)
  end.

End G5500.

(** ** NMEA GPS: state, simulated clock and sentence generator *)

Module NMEA.
Import CLib.

Definition MAX_SATELLITES : nat := 12.
Definition NMEA_SENTENCE_MAX_LEN : nat := 83.

(** [struct NMEAGPSState] *)
Record NMEAGPSState := mkNMEAGPSState {
  latitude : F64.f64;
  longitude : F64.f64;
  altitude : F32.f32;
  geoidSep : F32.f32;
  speedKnots : F32.f32;
  courseTrue : F32.f32;
  courseMag : F32.f32;
  fixQuality : Z;
  fixMode : Z;
  numSatellites : Z;
  pdop : F32.f32;
  hdop : F32.f32;
  vdop : F32.f32;
  satPRN : list Z;
  satElevation : list Z;
  satAzimuth : list Z;
  satSNR : list Z;
  numSatsInView : Z;
  hour : Z;
  minute : Z;
  second : Z;
  day : Z;
  month : Z;
  year : Z;
  magVariation : F32.f32;
  lastOutputMs : Z
}.

(** The constellation table of [initSatellites]: PRN, elevation, azimuth, SNR. *)
Definition satData : list (Z * Z * Z * Z) :=
  [ (2, 45, 120, 42); (5, 67, 230, 45); (9, 23, 45, 38); (12, 34, 315, 40);
    (15, 56, 180, 44); (18, 12, 90, 35); (21, 78, 270, 47); (25, 41, 150, 41) ].

Definition sat_column (f : Z * Z * Z * Z -> Z) : list Z :=
  map f satData ++ replicate (MAX_SATELLITES - length satData) 0.

Definition reset : NMEAGPSState :=
  mkNMEAGPSState
    (F64.literal 377749 10000) (F64.literal (-1224194) 10000)
    (F32.of_Z 10) (F32.of_Z (-34))
    (F32.of_Z 0) (F32.of_Z 0) (F32.of_Z 0)
    1 3 8
    (F32.literal 15 10) (F32.of_Z 1) (F32.literal 12 10)
    (sat_column (fun '(a, _, _, _) => a)) (sat_column (fun '(_, b, _, _) => b))
    (sat_column (fun '(_, _, c, _) => c)) (sat_column (fun '(_, _, _, d) => d))
    8
    12 0 0 1 1 2025
    (F32.of_Z 13)
    0.

Definition set_clock (h m s d mo y : Z) (st : NMEAGPSState) : NMEAGPSState :=
  mkNMEAGPSState (latitude st) (longitude st) (altitude st) (geoidSep st) (speedKnots st)
    (courseTrue st) (courseMag st) (fixQuality st) (fixMode st) (numSatellites st)
    (pdop st) (hdop st) (vdop st) (satPRN st) (satElevation st) (satAzimuth st) (satSNR st)
    (numSatsInView st) h m s d mo y (magVariation st) (lastOutputMs st).

Definition set_lastOutputMs (t : Z) (st : NMEAGPSState) : NMEAGPSState :=
  mkNMEAGPSState (latitude st) (longitude st) (altitude st) (geoidSep st) (speedKnots st)
    (courseTrue st) (courseMag st) (fixQuality st) (fixMode st) (numSatellites st)
    (pdop st) (hdop st) (vdop st) (satPRN st) (satElevation st) (satAzimuth st) (satSNR st)
    (numSatsInView st) (hour st) (minute st) (second st) (day st) (month st) (year st)
    (magVariation st) t.

Definition setPosition (lat lon : F64.f64) (alt : F32.f32) (st : NMEAGPSState) : NMEAGPSState :=
  mkNMEAGPSState lat lon alt (geoidSep st) (speedKnots st)
    (courseTrue st) (courseMag st) (fixQuality st) (fixMode st) (numSatellites st)
    (pdop st) (hdop st) (vdop st) (satPRN st) (satElevation st) (satAzimuth st) (satSNR st)
    (numSatsInView st) (hour st) (minute st) (second st) (day st) (month st) (year st)
    (magVariation st) (lastOutputMs st).

Definition set_satellites (prn el az snr : list Z) (n : Z) (st : NMEAGPSState) : NMEAGPSState :=
  mkNMEAGPSState (latitude st) (longitude st) (altitude st) (geoidSep st) (speedKnots st)
    (courseTrue st) (courseMag st) (fixQuality st) (fixMode st) (numSatellites st)
    (pdop st) (hdop st) (vdop st) prn el az snr n
    (hour st) (minute st) (second st) (day st) (month st) (year st)
    (magVariation st) (lastOutputMs st).

(** [setTime(h, m, s, d, mo, y)]; a zero day, month or year keeps the field. *)
Definition setTime (h m s d mo y : Z) (st : NMEAGPSState) : NMEAGPSState :=
  set_clock h m s (if d >? 0 then d else day st) (if mo >? 0 then mo else month st)
            (if y >? 0 then y else year st) st.

(** [advanceTime]: the time fields are [uint8_t], the year [uint16_t]; each
    increment wraps in its type. *)
Definition advanceTime (st : NMEAGPSState) : NMEAGPSState :=
  let second1 := to_uint8 (second st + 1) in
  if second1 >=? 60 then
    let minute1 := to_uint8 (minute st + 1) in
    if minute1 >=? 60 then
      let hour1 := to_uint8 (hour st + 1) in
      if hour1 >=? 24 then
        let day1 := to_uint8 (day st + 1) in
        if day1 >? 28 then
          let month1 := to_uint8 (month st + 1) in
          if month1 >? 12 then
            set_clock 0 0 0 1 1 (to_uint16 (year st + 1)) st
          else set_clock 0 0 0 1 month1 (year st) st
        else set_clock 0 0 0 day1 (month st) (year st) st
      else set_clock hour1 0 0 (day st) (month st) (year st) st
    else set_clock (hour st) minute1 0 (day st) (month st) (year st) st
  else set_clock (hour st) (minute st) second1 (day st) (month st) (year st) st.

Definition hasValidFix (st : NMEAGPSState) : bool := fixQuality st >? 0.

Definition getLatHemisphere (st : NMEAGPSState) : Z :=
  if F64.ge (latitude st) (F64.of_Z 0) then 78 else 83.   (* 'N' : 'S' *)

Definition getLonHemisphere (st : NMEAGPSState) : Z :=
  if F64.ge (longitude st) (F64.of_Z 0) then 69 else 87.  (* 'E' : 'W' *)

(** *** The sentence generator *)

(** [calculateChecksum]: the XOR of the characters after a leading [$] up to
    a [*] or the end of the string, in [uint8_t]. *)
Fixpoint xor_until_star (s : cstring) (checksum : Z) : Z :=
  match s with
  | [] => checksum
  | c :: r => if c =? 42 then checksum else xor_until_star r (to_uint8 (Z.lxor checksum c))
  end.

Definition calculateChecksum (sentence : cstring) : Z :=
  match sentence with
  | 36 :: r => xor_until_star r 0
  | _ => xor_until_star sentence 0
  end.

(** The serial port of the generator is the list of what [_serial.print]
    was called with, oldest first: a string, or [None] where the source
    does not define the string, because a text was written past the end of
    the array that holds it (the entries after a [None] are what the code
    prints when it carries on as written).  [sendSentence] prints one
    string. *)
Definition sendSentence (sentence : option cstring) (port : list (option cstring))
  : list (option cstring) :=
  port ++ [match sentence with
           | Some text =>
               let checksum := calculateChecksum text in
               Some (snprintf NMEA_SENTENCE_MAX_LEN
                       (text ++ str "*" ++ fmt_02X checksum ++ [13; 10]))
           | None => None
           end].

(** A text built in [_buffer] by successive
    [pos += snprintf(_buffer + pos, sizeof(_buffer) - pos, ...)]: the text so
    far and [pos].  Each piece is cut at the end of the buffer.  A piece
    written when [pos] exceeds the size of the buffer goes past its end:
    [None]. *)
Definition buf_start (piece : cstring) : cstring * nat :=
  (snprintf NMEA_SENTENCE_MAX_LEN piece, length piece).

Definition buf_append (b : cstring * nat) (piece : cstring) : option (cstring * nat) :=
  if (NMEA_SENTENCE_MAX_LEN <? snd b)%nat then None
  else Some (fst b ++ take (NMEA_SENTENCE_MAX_LEN - 1 - snd b) piece,
             (snd b + length piece)%nat).

Fixpoint buf_appends (pieces : list cstring) (b : cstring * nat) : option (cstring * nat) :=
  match pieces with
  | [] => Some b
  | piece :: r =>
      match buf_append b piece with
      | Some b1 => buf_appends r b1
      | None => None
      end
  end.

Definition formatTime (st : NMEAGPSState) : cstring :=
  snprintf 11 (fmt_d 2 (hour st) ++ fmt_d 2 (minute st) ++ fmt_d 2 (second st) ++ str ".00").

Definition formatDate (st : NMEAGPSState) : cstring :=
  snprintf 7 (fmt_d 2 (day st) ++ fmt_d 2 (month st) ++ fmt_d 2 (year st mod 100)).

(** The satellites written into one GSV message: the inner loop
    [for (i = 0; i < 4 && satIdx < numSatsInView; i++, satIdx++)], started
    with [i = 4 - fuel]. *)
Fixpoint gsv_sats (fuel : nat) (satIdx : nat) (inView : Z) : list nat :=
  match fuel with
  | O => []
  | S k => if Z.of_nat satIdx <? inView then satIdx :: gsv_sats k (S satIdx) inView else []
  end.

(** The messages of [outputGSV]: the outer loop over [msg], with the
    satellites of each message. *)
Fixpoint gsv_msgs (count : nat) (msg : Z) (satIdx : nat) (inView : Z) : list (Z * list nat) :=
  match count with
  | O => []
  | S k =>
      let sats := gsv_sats 4 satIdx inView in
      (msg, sats) :: gsv_msgs k (msg + 1) (satIdx + length sats)%nat inView
  end.

Definition gsv_numMsgs (st : NMEAGPSState) : Z :=
  let numMsgs := (numSatsInView st + 3) / 4 in
  if numMsgs =? 0 then 1 else numMsgs.

(** The fields of one satellite in a GSV message. *)
Definition gsv_group (st : NMEAGPSState) (satIdx : nat) : cstring :=
  str "," ++ fmt_d 2 (nth satIdx (satPRN st) 0)
  ++ str "," ++ fmt_d 2 (nth satIdx (satElevation st) 0)
  ++ str "," ++ fmt_d 3 (nth satIdx (satAzimuth st) 0)
  ++ str "," ++ fmt_d 2 (nth satIdx (satSNR st) 0).

(** The content of [_buffer] for one GSV message. *)
Definition gsv_buffer (st : NMEAGPSState) (numMsgs msg : Z) (sats : list nat)
  : option cstring :=
  option_map fst
    (buf_appends (map (gsv_group st) sats)
       (buf_start (str "$GPGSV," ++ fmt_d 0 numMsgs ++ str "," ++ fmt_d 0 msg
                   ++ str "," ++ fmt_d 2 (numSatsInView st)))).

Definition outputGSV (st : NMEAGPSState) (port : list (option cstring))
  : list (option cstring) :=
  let numMsgs := gsv_numMsgs st in
  fold_left (fun q '(msg, sats) => sendSentence (gsv_buffer st numMsgs msg sats) q)
            (gsv_msgs (Z.to_nat numMsgs) 1 0 (numSatsInView st)) port.

Section Generator.

(** [dtostrf(val, width, prec, buf)] of the Arduino core, which is not part
    of the sources: the text it writes to [buf], followed by a NUL. *)
Variable dtostrf : F64.f64 -> Z -> Z -> cstring.

(** [fmtFloat(buf, val, width, prec)] with [buf] an array of [size]
    characters: the text left in [buf], [None] when the text and its NUL do
    not fit the array. *)
Definition fmtFloat (size : nat) (val : F64.f64) (width prec : Z) : option cstring :=
  let text := dtostrf val width prec in
  if (length text <? size)%nat then Some text else None.

(** The loop [for (i = 0; minBuf[i] == ' '; i++) minBuf[i] = '0';] *)
Fixpoint zero_leading_spaces (s : cstring) : cstring :=
  match s with
  | 32 :: r => 48 :: zero_leading_spaces r
  | _ => s
  end.

(** [formatLatitude] and [formatLongitude]: [None] when [(int)absLat] is
    not defined or the minutes do not fit [minBuf[12]]. *)
Definition format_minutes (buf_size : nat) (deg_width : nat) (v : F64.f64)
  : option cstring :=
  let a := F64.fabs v in
  if negb (F64.fits_int a) then None
  else
    let degrees := F64.to_int a in
    let minutes := F64.mul (F64.sub a (F64.of_Z degrees)) (F64.of_Z 60) in
    match fmtFloat 12 minutes 7 4 with
    | Some minBuf => Some (snprintf buf_size (fmt_d deg_width degrees
                                              ++ zero_leading_spaces minBuf))
    | None => None
    end.

Definition formatLatitude (lat : F64.f64) : option cstring := format_minutes 12 2 lat.
Definition formatLongitude (lon : F64.f64) : option cstring := format_minutes 12 3 lon.

(** The content of [_buffer] in [outputGGA], [outputRMC], [outputGSA] and
    [outputVTG]; the number texts are written to the arrays [hdopStr[8]],
    [altStr[12]], [geoidStr[12]] and so on. *)
Definition gga_buffer (st : NMEAGPSState) : option cstring :=
  match formatLatitude (latitude st), formatLongitude (longitude st),
        fmtFloat 8 (F64.of_f32 (hdop st)) 1 1,
        fmtFloat 12 (F64.of_f32 (altitude st)) 1 1,
        fmtFloat 12 (F64.of_f32 (geoidSep st)) 1 1 with
  | Some lat, Some lon, Some hdopStr, Some altStr, Some geoidStr =>
      Some (snprintf NMEA_SENTENCE_MAX_LEN
              (str "$GPGGA," ++ formatTime st
               ++ str "," ++ lat ++ str "," ++ [getLatHemisphere st]
               ++ str "," ++ lon ++ str "," ++ [getLonHemisphere st]
               ++ str "," ++ fmt_d 0 (fixQuality st)
               ++ str "," ++ fmt_d 2 (numSatellites st)
               ++ str "," ++ hdopStr
               ++ str "," ++ altStr
               ++ str ",M," ++ geoidStr
               ++ str ",M,,"))
  | _, _, _, _, _ => None
  end.

Definition rmc_buffer (st : NMEAGPSState) : option cstring :=
  let status := if hasValidFix st then 65 else 86 in                          (* 'A' : 'V' *)
  let magDir := if F32.ge (magVariation st) (F32.of_Z 0) then 69 else 87 in   (* 'E' : 'W' *)
  match formatLatitude (latitude st), formatLongitude (longitude st),
        fmtFloat 12 (F64.of_f32 (speedKnots st)) 1 1,
        fmtFloat 12 (F64.of_f32 (courseTrue st)) 1 1,
        fmtFloat 12 (F64.fabs (F64.of_f32 (magVariation st))) 1 1 with
  | Some lat, Some lon, Some speedStr, Some courseStr, Some magVarStr =>
      Some (snprintf NMEA_SENTENCE_MAX_LEN
              (str "$GPRMC," ++ formatTime st
               ++ str "," ++ [status]
               ++ str "," ++ lat ++ str "," ++ [getLatHemisphere st]
               ++ str "," ++ lon ++ str "," ++ [getLonHemisphere st]
               ++ str "," ++ speedStr
               ++ str "," ++ courseStr
               ++ str "," ++ formatDate st
               ++ str "," ++ magVarStr
               ++ str "," ++ [magDir]
               ++ str ",A"))
  | _, _, _, _, _ => None
  end.

Definition gsa_prn (st : NMEAGPSState) (i : nat) : cstring :=
  if (Z.of_nat i <? numSatsInView st) && (nth i (satPRN st) 0 >? 0)
  then str "," ++ fmt_d 2 (nth i (satPRN st) 0)
  else str ",".

Definition gsa_buffer (st : NMEAGPSState) : option cstring :=
  match buf_appends (map (gsa_prn st) (seq 0 12))
          (buf_start (str "$GPGSA,A," ++ fmt_d 0 (fixMode st))),
        fmtFloat 8 (F64.of_f32 (pdop st)) 1 1,
        fmtFloat 8 (F64.of_f32 (hdop st)) 1 1,
        fmtFloat 8 (F64.of_f32 (vdop st)) 1 1 with
  | Some b, Some pdopStr, Some hdopStr, Some vdopStr =>
      option_map fst
        (buf_append b (str "," ++ pdopStr ++ str "," ++ hdopStr ++ str "," ++ vdopStr))
  | _, _, _, _ => None
  end.

Definition knots_to_kmh : F32.f32 := F32.literal 1852 1000.

Definition vtg_buffer (st : NMEAGPSState) : option cstring :=
  let speedKmh := F32.mul (speedKnots st) knots_to_kmh in
  match fmtFloat 12 (F64.of_f32 (courseTrue st)) 1 1,
        fmtFloat 12 (F64.of_f32 (courseMag st)) 1 1,
        fmtFloat 12 (F64.of_f32 (speedKnots st)) 1 1,
        fmtFloat 12 (F64.of_f32 speedKmh) 1 1 with
  | Some courseTStr, Some courseMStr, Some speedKnStr, Some speedKmStr =>
      Some (snprintf NMEA_SENTENCE_MAX_LEN
              (str "$GPVTG," ++ courseTStr
               ++ str ",T," ++ courseMStr
               ++ str ",M," ++ speedKnStr
               ++ str ",N," ++ speedKmStr
               ++ str ",K,A"))
  | _, _, _, _ => None
  end.

Definition outputGGA (st : NMEAGPSState) : list (option cstring) -> list (option cstring) :=
  sendSentence (gga_buffer st).
Definition outputRMC (st : NMEAGPSState) : list (option cstring) -> list (option cstring) :=
  sendSentence (rmc_buffer st).
Definition outputGSA (st : NMEAGPSState) : list (option cstring) -> list (option cstring) :=
  sendSentence (gsa_buffer st).
Definition outputVTG (st : NMEAGPSState) : list (option cstring) -> list (option cstring) :=
  sendSentence (vtg_buffer st).

Definition outputAll (st : NMEAGPSState) (port : list (option cstring))
  : list (option cstring) :=
  outputVTG st (outputGSV st (outputGSA st (outputRMC st (outputGGA st port)))).

End Generator.

(** *** The device wrapper *)

Definition BAUD_RATE_VALUES : list Z := [4800; 9600; 19200; 38400].
Definition NUM_BAUD_RATES : Z := 4.
Definition DEFAULT_BAUD_INDEX : Z := 1.
Definition UPDATE_RATE_VALUES : list Z := [1; 5; 10].
Definition NUM_UPDATE_RATES : Z := 3.
Definition DEFAULT_RATE_INDEX : Z := 0.

(** [class NMEAGPSDevice].  [has_serial] tells whether [_serial] is non-null,
    [port] is the baud rate the serial port is open at ([None]: closed),
    [printed] what was printed on it (see [sendSentence]); the two options
    are held by their current values. *)
Record NMEAGPSDevice := mkNMEAGPSDevice {
  has_serial : bool;
  port : option Z;
  printed : list (option cstring);
  uartIndex : Z;
  deviceId : Z;
  running : bool;
  state : NMEAGPSState;
  opt_baud_rate : Z;
  opt_update_rate : Z
}.

Definition set_state (s : NMEAGPSState) (d : NMEAGPSDevice) : NMEAGPSDevice :=
  mkNMEAGPSDevice (has_serial d) (port d) (printed d) (uartIndex d) (deviceId d)
    (running d) s (opt_baud_rate d) (opt_update_rate d).
Definition set_running (r : bool) (d : NMEAGPSDevice) : NMEAGPSDevice :=
  mkNMEAGPSDevice (has_serial d) (port d) (printed d) (uartIndex d) (deviceId d)
    r (state d) (opt_baud_rate d) (opt_update_rate d).
Definition set_port (b : option Z) (d : NMEAGPSDevice) : NMEAGPSDevice :=
  mkNMEAGPSDevice (has_serial d) b (printed d) (uartIndex d) (deviceId d)
    (running d) (state d) (opt_baud_rate d) (opt_update_rate d).
Definition set_printed (l : list (option cstring)) (d : NMEAGPSDevice) : NMEAGPSDevice :=
  mkNMEAGPSDevice (has_serial d) (port d) l (uartIndex d) (deviceId d)
    (running d) (state d) (opt_baud_rate d) (opt_update_rate d).
Definition set_options (b r : Z) (d : NMEAGPSDevice) : NMEAGPSDevice :=
  mkNMEAGPSDevice (has_serial d) (port d) (printed d) (uartIndex d) (deviceId d)
    (running d) (state d) b r.

Definition new (serial : bool) (uart : Z) : NMEAGPSDevice :=
  mkNMEAGPSDevice serial None [] uart 255 false reset DEFAULT_BAUD_INDEX DEFAULT_RATE_INDEX.

Definition applyBaudRate (d : NMEAGPSDevice) : NMEAGPSDevice :=
  let baudIndex := if opt_baud_rate d >=? NUM_BAUD_RATES then DEFAULT_BAUD_INDEX
                   else opt_baud_rate d in
  set_port (Some (nth (Z.to_nat baudIndex) BAUD_RATE_VALUES 0)) d.

(** [begin], with the value [now] of [millis()]. *)
Definition begin (now : Z) (d : NMEAGPSDevice) : bool * NMEAGPSDevice :=
  if negb (has_serial d) then (false, d)
  else
    let d1 := applyBaudRate d in
    (true, set_running true (set_state (set_lastOutputMs now reset) d1)).

Definition end_ (d : NMEAGPSDevice) : NMEAGPSDevice :=
  set_port None (set_running false d).

Definition getUpdateIntervalMs (d : NMEAGPSDevice) : Z :=
  let rateIndex := if opt_update_rate d >=? NUM_UPDATE_RATES then DEFAULT_RATE_INDEX
                   else opt_update_rate d in
  1000 / nth (Z.to_nat rateIndex) UPDATE_RATE_VALUES 1.

Definition deserializeOptions (bytes : list Z) (d : NMEAGPSDevice) : bool * NMEAGPSDevice :=
  match bytes with
  | b0 :: b1 :: _ =>
      let baudIndex := if b0 >=? NUM_BAUD_RATES then DEFAULT_BAUD_INDEX else b0 in
      let rateIndex := if b1 >=? NUM_UPDATE_RATES then DEFAULT_RATE_INDEX else b1 in
      (true, set_options baudIndex rateIndex d)
  | _ => (false, d)
  end.

Section Device.

Variable dtostrf : F64.f64 -> Z -> Z -> cstring.

(** [update], with the value [now] of [millis()]: an output tick when the
    update interval has elapsed ([unsigned long] arithmetic). *)
Definition update (now : Z) (d : NMEAGPSDevice) : NMEAGPSDevice :=
  if negb (running d) then d
  else if to_uint32 (now - lastOutputMs (state d)) >=? getUpdateIntervalMs d then
    let st := advanceTime (set_lastOutputMs now (state d)) in
    set_printed (outputAll dtostrf st (printed d)) (set_state st d)
  else d.

End Device.

End NMEA.

(** ** The device manager *)

Module DevMgr.
Import CLib.

Definition INVALID_ID : Z := 255.
Definition MAX_DEVICES : nat := 8.
Definition MAX_DEVICE_FACTORIES : nat := 8.
Definition DEFAULT_RADIO_TYPE : cstring := str "ft-991a".
Definition DEFAULT_ROTATOR_TYPE : cstring := str "g-5500".
Definition DEFAULT_GPS_TYPE : cstring := str "nmea-gps".

(** An [IEmulatedDevice] as the manager sees it: the values of [getName],
    [getUartIndex], [getDeviceId] and [isRunning].  The protocol state of a
    device is the matter of the device modules above; [begin], [end] and
    [update] never change the name or the UART of a device. *)
Record Device := mkDevice {
  getName : cstring;
  getUartIndex : Z;
  getDeviceId : Z;
  isRunning : bool
}.

Definition setDeviceId (id : Z) (d : Device) : Device :=
  mkDevice (getName d) (getUartIndex d) id (isRunning d).
Definition dev_begin (d : Device) : Device :=
  mkDevice (getName d) (getUartIndex d) (getDeviceId d) true.
Definition dev_end (d : Device) : Device :=
  mkDevice (getName d) (getUartIndex d) (getDeviceId d) false.

(** An [IDeviceFactory]: its type name and [create(serial, uartIndex)],
    [None] for a null result. *)
Record Factory := mkFactory {
  getTypeName : cstring;
  create : Z -> option Device
}.

(** The factories of the firmware: each constructs its device on the UART
    it is given, stopped and without an id. *)
Definition YaesuDeviceFactory : Factory :=
  mkFactory (str "yaesu") (fun u => Some (mkDevice (str "yaesu") u 255 false)).
Definition G5500DeviceFactory : Factory :=
  mkFactory (str "g-5500") (fun u => Some (mkDevice (str "g-5500") u 255 false)).
Definition NMEAGPSDeviceFactory : Factory :=
  mkFactory (str "nmea-gps") (fun u => Some (mkDevice (str "nmea-gps") u 255 false)).

(** [class DeviceManager]: [_factories] up to [_factoryCount], [_devices],
    [_deviceFactories], [_uartAllocation] and, for [_serialPorts], whether
    the wrapper of each UART exists. *)
Record DeviceManager := mkDeviceManager {
  factories : list Factory;
  devices : list (option Device);
  deviceFactories : list (option Factory);
  uartAllocation : list Z;
  serialPorts : list bool
}.

Definition resolveTypeName (typeOrCategory : cstring) : cstring :=
  if strcasecmp_eq typeOrCategory (str "radio") then
    (if (0 <? length DEFAULT_RADIO_TYPE)%nat then DEFAULT_RADIO_TYPE else typeOrCategory)
  else if strcasecmp_eq typeOrCategory (str "rotator") then
    (if (0 <? length DEFAULT_ROTATOR_TYPE)%nat then DEFAULT_ROTATOR_TYPE else typeOrCategory)
  else if strcasecmp_eq typeOrCategory (str "gps") then
    (if (0 <? length DEFAULT_GPS_TYPE)%nat then DEFAULT_GPS_TYPE else typeOrCategory)
  else typeOrCategory.

(** [registerFactory], for a non-null factory. *)
Definition registerFactory (factory : Factory) (m : DeviceManager) : bool * DeviceManager :=
  if (MAX_DEVICE_FACTORIES <=? length (factories m))%nat then (false, m)
  else if existsb (fun f => strcmp_eq (getTypeName f) (getTypeName factory)) (factories m)
       then (false, m)
  else (true, mkDeviceManager (factories m ++ [factory]) (devices m) (deviceFactories m)
                (uartAllocation m) (serialPorts m)).

Definition findFactory (typeName : cstring) (m : DeviceManager) : option Factory :=
  find (fun f => strcasecmp_eq (getTypeName f) typeName) (factories m).

(** [findFreeDeviceSlot]: the first empty slot, from [i] on. *)
Fixpoint first_free (i : nat) (slots : list (option Device)) : Z :=
  match slots with
  | [] => INVALID_ID
  | None :: _ => Z.of_nat i
  | Some _ :: r => first_free (S i) r
  end.

Definition findFreeDeviceSlot (m : DeviceManager) : Z := first_free 0 (devices m).

Section Platform.

(** The platform configuration: the number of device UARTs and which
    hardware serial ports exist. *)
Variable PLATFORM_MAX_UARTS : nat.
Variables HAS_SERIAL1 HAS_SERIAL2 : bool.

(** The constructor. *)
Definition empty : DeviceManager :=
  mkDeviceManager [] (replicate MAX_DEVICES None) (replicate MAX_DEVICES None)
    (replicate PLATFORM_MAX_UARTS INVALID_ID) (replicate PLATFORM_MAX_UARTS false).

Definition uart_in_range (uartIndex : Z) : bool :=
  negb ((uartIndex =? 0) || (uartIndex >? Z.of_nat PLATFORM_MAX_UARTS)).

Definition isUartAvailable (uartIndex : Z) (m : DeviceManager) : bool :=
  if negb (uart_in_range uartIndex) then false
  else if negb HAS_SERIAL1 && (uartIndex =? 1) then false
  else if negb HAS_SERIAL2 && (uartIndex =? 2) then false
  else match uartAllocation m !! Z.to_nat (uartIndex - 1) with
       | Some owner => owner =? INVALID_ID
       | None => false
       end.

(** [getSerialForUart]: whether the result is non-null, and the manager with
    the wrapper created if it was missing. *)
Definition getSerialForUart (uartIndex : Z) (m : DeviceManager) : bool * DeviceManager :=
  if negb (uart_in_range uartIndex) then (false, m)
  else match serialPorts m !! Z.to_nat (uartIndex - 1) with
       | Some true => (true, m)
       | _ =>
           if (HAS_SERIAL1 && (uartIndex =? 1)) || (HAS_SERIAL2 && (uartIndex =? 2)) then
             (true, mkDeviceManager (factories m) (devices m) (deviceFactories m)
                      (uartAllocation m) (<[Z.to_nat (uartIndex - 1) := true]> (serialPorts m)))
           else (false, m)
       end.

(** [createDevice]: the manager afterwards and the device id, [INVALID_ID]
    on failure. *)
Definition createDevice (typeName : cstring) (uartIndex : Z) (m : DeviceManager)
  : DeviceManager * Z :=
  let resolvedType := resolveTypeName typeName in
  if negb (uart_in_range uartIndex) then (m, INVALID_ID)
  else if negb (isUartAvailable uartIndex m) then (m, INVALID_ID)
  else match findFactory resolvedType m with
  | None => (m, INVALID_ID)
  | Some factory =>
      let slot := findFreeDeviceSlot m in
      if slot =? INVALID_ID then (m, INVALID_ID)
      else
        let '(serial, m1) := getSerialForUart uartIndex m in
        if negb serial then (m1, INVALID_ID)
        else match create factory uartIndex with
        | None => (m1, INVALID_ID)
        | Some device =>
            let deviceId := slot in
            let device := setDeviceId deviceId device in
            (mkDeviceManager (factories m1)
               (<[Z.to_nat slot := Some device]> (devices m1))
               (<[Z.to_nat slot := Some factory]> (deviceFactories m1))
               (<[Z.to_nat (uartIndex - 1) := deviceId]> (uartAllocation m1))
               (serialPorts m1), deviceId)
        end
  end.

(** [createDeviceWithOptions]: after [createDevice] only the options of the
    new device change, which the manager's tables do not show. *)
Definition createDeviceWithOptions (typeName : cstring) (uartIndex : Z)
  (optionData : list Z) (m : DeviceManager) : DeviceManager * Z :=
  createDevice typeName uartIndex m.

Definition destroyDevice (deviceId : Z) (m : DeviceManager) : bool * DeviceManager :=
  if (Z.of_nat MAX_DEVICES <=? deviceId) then (false, m)
  else match devices m !! Z.to_nat deviceId with
  | Some (Some device) =>
      let device := if isRunning device then dev_end device else device in
      let uartIndex := getUartIndex device in
      let alloc := if uart_in_range uartIndex
                   then <[Z.to_nat (uartIndex - 1) := INVALID_ID]> (uartAllocation m)
                   else uartAllocation m in
      (true, mkDeviceManager (factories m)
               (<[Z.to_nat deviceId := None]> (devices m))
               (<[Z.to_nat deviceId := None]> (deviceFactories m))
               alloc (serialPorts m))
  | _ => (false, m)
  end.

Definition getDevice (deviceId : Z) (m : DeviceManager) : option Device :=
  if (Z.of_nat MAX_DEVICES <=? deviceId) then None
  else match devices m !! Z.to_nat deviceId with
       | Some d => d
       | None => None
       end.

Definition getDeviceByUart (uartIndex : Z) (m : DeviceManager) : option Device :=
  if negb (uart_in_range uartIndex) then None
  else match uartAllocation m !! Z.to_nat (uartIndex - 1) with
       | Some deviceId => if deviceId =? INVALID_ID then None else getDevice deviceId m
       | None => None
       end.

(** [begin] and [end] called on the device with the given id (as the console
    and the start-up code do through [getDevice]). *)
Definition on_device (f : Device -> Device) (deviceId : Z) (m : DeviceManager) : DeviceManager :=
  match getDevice deviceId m with
  | Some d => mkDeviceManager (factories m) (<[Z.to_nat deviceId := Some (f d)]> (devices m))
                (deviceFactories m) (uartAllocation m) (serialPorts m)
  | None => m
  end.

End Platform.

(** The operations of the manager, for sequences of calls. *)
Inductive op :=
| RegisterFactory (factory : Factory)
| CreateDevice (typeName : cstring) (uartIndex : Z)
| CreateDeviceWithOptions (typeName : cstring) (uartIndex : Z) (optionData : list Z)
| DestroyDevice (deviceId : Z)
| GetSerialForUart (uartIndex : Z)
| Begin (deviceId : Z)
| End_ (deviceId : Z).

Section Run.

Variable PLATFORM_MAX_UARTS : nat.
Variables HAS_SERIAL1 HAS_SERIAL2 : bool.

Definition run_op (m : DeviceManager) (o : op) : DeviceManager :=
  match o with
  | RegisterFactory f => snd (registerFactory f m)
  | CreateDevice t u => fst (createDevice PLATFORM_MAX_UARTS HAS_SERIAL1 HAS_SERIAL2 t u m)
  | CreateDeviceWithOptions t u data =>
      fst (createDeviceWithOptions PLATFORM_MAX_UARTS HAS_SERIAL1 HAS_SERIAL2 t u data m)
  | DestroyDevice id => snd (destroyDevice PLATFORM_MAX_UARTS id m)
  | GetSerialForUart u => snd (getSerialForUart PLATFORM_MAX_UARTS HAS_SERIAL1 HAS_SERIAL2 u m)
  | Begin id => on_device dev_begin id m
  | End_ id => on_device dev_end id m
  end.

Definition run_ops (ops : list op) (m : DeviceManager) : DeviceManager :=
  fold_left run_op ops m.

End Run.

End DevMgr.

(** ** Reference notions the properties are stated with *)

Module Ref.
Import CLib.

(** *** Decimal numerals *)

(** The number a string of decimal digits denotes. *)
Definition decimal_value (ds : cstring) : Z :=
  fold_left (fun acc c => acc * 10 + (c - 48)) ds 0.

Definition all_digits (ds : cstring) : Prop := Forall (fun c => isdigit c = true) ds.

(** The 9-digit zero-padded decimal representation of a number: the digit of
    10^8 first, the digit of 10^0 last. *)
Definition nine_digits (f : Z) : cstring :=
  map (fun i => 48 + (f / 10 ^ i) mod 10) [8; 7; 6; 5; 4; 3; 2; 1; 0].

(** *** The CAT parser *)

(** A character the CAT parser buffers as it is: printable, not the
    terminator, not a lower-case letter. *)
Definition buffered_as_is (c : Z) : Prop :=
  32 <= c < 256 /\ c <> Yaesu.CAT_TERMINATOR /\ ~ (97 <= c <= 122).

(** *** Goto-azimuth 225 *)

Definition az225 : F32.f32 := F32.of_Z 225.

(** The azimuth axis has arrived: stopped at exactly 225, goto-mode off. *)
Definition az_arrived (s : G5500.G5500State) : Prop :=
  G5500.azimuth s = az225 /\ G5500.azRotation s = G5500.STOPPED /\
  G5500.azGotoMode s = false.

(** The azimuth axis is under way to 225 in goto-mode and has not reached
    it: rotating clockwise with [azimuth >= 225] false, or counter-clockwise
    with [azimuth <= 225] false. *)
Definition az_under_way (s : G5500.G5500State) : Prop :=
  G5500.azGotoMode s = true /\
  ((G5500.azRotation s = G5500.CW /\ F32.ge (G5500.azimuth s) az225 = false) \/
   (G5500.azRotation s = G5500.CCW /\ F32.le (G5500.azimuth s) az225 = false)).

(** The state of a device after the updates at the given clock readings,
    with no further input. *)
Definition after_updates (times : list Z) (d : G5500.G5500Device) : G5500.G5500State :=
  G5500.state (G5500.parser (fold_left (fun d t => G5500.update t [] d) times d)).

(** *** Exact values and elapsed time *)

(** The exact value of a finite binary32 number [m * 2^e], scaled by
    [2^400] so that it is the integer [m * 2^(e + 400)] (the exponents of
    the format are at least -149); 0 for the other numbers. *)
Definition f32_measure (x : F32.f32) : Z :=
  match x with
  | S754_finite s m e => (if s then -1 else 1) * (Z.pos m * 2 ^ (e + 400))
  | _ => 0
  end.


(** A zero or a positive finite number in the canonical form of the
    format: every [float] from 0 upward, infinity apart, is one. *)
Definition nonneg_canonical (x : F32.f32) : Prop :=
  match x with
  | S754_zero _ => True
  | S754_finite false m e => canonical_mantissa F32.prec F32.emax m e = true
  | _ => False
  end.







(** *** Option values *)

Definition rotator_options (d : G5500.G5500Device) : Z * Z * Z :=
  (G5500.opt_baud_rate d, G5500.opt_az_speed d, G5500.opt_el_speed d).

Definition gps_options (d : NMEA.NMEAGPSDevice) : Z * Z :=
  (NMEA.opt_baud_rate d, NMEA.opt_update_rate d).

(** *** NMEA sentences *)

(** A character of sentence text: a non-NUL byte other than [*]. *)
Definition plain_char (c : Z) : Prop := 0 < c < 256 /\ c <> 42.

(** The XOR of all the bytes of a text. *)
Definition xor_all (payload : cstring) : Z := fold_left Z.lxor payload 0.

(** An upper-case hexadecimal digit. *)
Definition upper_hex (c : Z) : Prop := 48 <= c <= 57 \/ 65 <= c <= 70.

(** A checksummed sentence: [$], a payload free of [*], [*], the XOR of the
    payload bytes as two upper-case hexadecimal digits, CR LF. *)
Definition checksummed_sentence (s : cstring) : Prop :=
  exists payload h1 h0,
    Forall plain_char payload /\
    [h1; h0] = fmt_02X (xor_all payload) /\ upper_hex h1 /\ upper_hex h0 /\
    s = str "$" ++ payload ++ str "*" ++ [h1; h0] ++ [13; 10].

(** A text that starts with [$] and holds no [*] after it. *)
Definition dollar_text (b : cstring) : Prop :=
  exists payload, b = str "$" ++ payload /\ Forall plain_char payload.

(** The contents of [_buffer] handed to [sendSentence] during one
    [outputAll], in order: GGA, RMC, GSA, the GSV messages, VTG.  A content
    is [None] when building it writes a text past the end of its array. *)
Definition sentence_buffers (dtostrf : F64.f64 -> Z -> Z -> cstring)
    (st : NMEA.NMEAGPSState) : list (option cstring) :=
  [NMEA.gga_buffer dtostrf st; NMEA.rmc_buffer dtostrf st; NMEA.gsa_buffer dtostrf st]
  ++ map (fun '(msg, sats) => NMEA.gsv_buffer st (NMEA.gsv_numMsgs st) msg sats)
         (NMEA.gsv_msgs (Z.to_nat (NMEA.gsv_numMsgs st)) 1 0 (NMEA.numSatsInView st))
  ++ [NMEA.vtg_buffer dtostrf st].

(** The string [sendSentence] prints for a buffer content. *)
Definition transmitted (buffer : cstring) : cstring :=
  snprintf NMEA.NMEA_SENTENCE_MAX_LEN
    (buffer ++ str "*" ++ fmt_02X (NMEA.calculateChecksum buffer) ++ [13; 10]).


(** The longest buffer content that is sent whole: with [*], two digits, CR
    and LF it fills the 82 characters of the final buffer. *)
Definition MAX_WHOLE_BODY : nat := 77.

(** *** The simulated clock *)

(** The date and time fields of a state, year first. *)
Definition clock (st : NMEA.NMEAGPSState) : Z * Z * Z * Z * Z * Z :=
  (NMEA.year st, NMEA.month st, NMEA.day st, NMEA.hour st, NMEA.minute st, NMEA.second st).

(** A clock reading of the simulator's calendar, in which every month has
    28 days. *)
Definition valid_clock (st : NMEA.NMEAGPSState) : Prop :=
  0 <= NMEA.second st <= 59 /\ 0 <= NMEA.minute st <= 59 /\ 0 <= NMEA.hour st <= 23 /\
  1 <= NMEA.day st <= 28 /\ 1 <= NMEA.month st <= 12 /\ 0 <= NMEA.year st < 65535.

(** One second later, with the cascade of roll-overs: second 59 to 0 carries
    into the minute, minute 59 to 0 into the hour, hour 23 to 0 into the day,
    day 28 to 1 into the month, month 12 to 1 into the year. *)
Definition next_second (c : Z * Z * Z * Z * Z * Z) : Z * Z * Z * Z * Z * Z :=
  let '(y, mo, d, h, mi, s) := c in
  if s =? 59 then
    if mi =? 59 then
      if h =? 23 then
        if d =? 28 then
          if mo =? 12 then (y + 1, 1, 1, 0, 0, 0)
          else (y, mo + 1, 1, 0, 0, 0)
        else (y, mo, d + 1, 0, 0, 0)
      else (y, mo, d, h + 1, 0, 0)
    else (y, mo, d, h, mi + 1, 0)
  else (y, mo, d, h, mi, s + 1).

Definition with_clock (c : Z * Z * Z * Z * Z * Z) (st : NMEA.NMEAGPSState) : NMEA.NMEAGPSState :=
  let '(y, mo, d, h, mi, s) := c in NMEA.set_clock h mi s d mo y st.

(** Seconds since the start of year 0 in the 28-day-month calendar. *)
Definition seconds_of (c : Z * Z * Z * Z * Z * Z) : Z :=
  let '(y, mo, d, h, mi, s) := c in
  ((((y * 12 + (mo - 1)) * 28 + (d - 1)) * 24 + h) * 60 + mi) * 60 + s.

(** *** The device manager *)

(** A factory that constructs its device on the UART it is given, as the
    interface asks ("uartIndex: which UART number"). *)
Definition binds_uart (f : DevMgr.Factory) : Prop :=
  forall u d, DevMgr.create f u = Some d -> DevMgr.getUartIndex d = u.

(** The calls a client can make: ids and UART indexes are [uint8_t] values,
    registered factories respect the interface. *)
Definition legal_op (o : DevMgr.op) : Prop :=
  match o with
  | DevMgr.RegisterFactory f => binds_uart f
  | DevMgr.CreateDevice _ u | DevMgr.CreateDeviceWithOptions _ u _
  | DevMgr.GetSerialForUart u => 0 <= u < 256
  | DevMgr.DestroyDevice id | DevMgr.Begin id | DevMgr.End_ id => 0 <= id < 256
  end.

(** At most one device owns a given UART. *)
Definition uart_exclusive (m : DevMgr.DeviceManager) : Prop :=
  forall i j d1 d2,
    DevMgr.devices m !! i = Some (Some d1) ->
    DevMgr.devices m !! j = Some (Some d2) ->
    DevMgr.getUartIndex d1 = DevMgr.getUartIndex d2 -> i = j.

(** The tables of the manager agree: they have their fixed sizes, and the
    UART of every live device is allocated to the slot of that device. *)
Definition tables_consistent (max_uarts : nat) (m : DevMgr.DeviceManager) : Prop :=
  length (DevMgr.devices m) = DevMgr.MAX_DEVICES /\
  length (DevMgr.uartAllocation m) = max_uarts /\
  length (DevMgr.serialPorts m) = max_uarts /\
  Forall binds_uart (DevMgr.factories m) /\
  forall i d, DevMgr.devices m !! i = Some (Some d) ->
    1 <= DevMgr.getUartIndex d <= Z.of_nat max_uarts /\
    DevMgr.uartAllocation m !! Z.to_nat (DevMgr.getUartIndex d - 1) = Some (Z.of_nat i).

(** Device [id] lives on UART [u], whose serial wrapper exists, and the type
    name [ty] resolves to the factory [f]. *)
Definition holds_uart (ty : cstring) (f : DevMgr.Factory) (id u : Z)
    (m : DevMgr.DeviceManager) : Prop :=
  (exists d, DevMgr.devices m !! Z.to_nat id = Some (Some d) /\ DevMgr.getUartIndex d = u) /\
  DevMgr.serialPorts m !! Z.to_nat (u - 1) = Some true /\
  DevMgr.findFactory (DevMgr.resolveTypeName ty) m = Some f.

(** *** A rendering of floating-point numbers *)

(** [dtostrf] belongs to the Arduino core.  For the examples below, a
    rendering in its style: fixed notation with [prec] decimals, rounded half
    up on the exact value, padded with blanks on the left up to [width]. *)
Definition dtostrf_ref (val : F64.f64) (width prec : Z) : cstring :=
  let pad (s : cstring) := replicate (Z.to_nat width - length s) 32 ++ s in
  match val with
  | S754_nan => pad (str "nan")
  | S754_infinity s => pad ((if s then str "-" else []) ++ str "inf")
  | S754_zero s =>
      pad ((if s then str "-" else []) ++ str "0"
           ++ (if prec =? 0 then [] else str "." ++ replicate (Z.to_nat prec) 48))
  | S754_finite s m e =>
      let scale := 10 ^ prec in
      let scaled := if 0 <=? e then Z.pos m * 2 ^ e * scale
                    else (2 * Z.pos m * scale + 2 ^ (- e)) / 2 ^ (- e + 1) in
      pad ((if s then str "-" else []) ++ dec_digits (scaled / scale)
           ++ (if prec =? 0 then []
               else str "." ++ zero_pad (Z.to_nat prec) (dec_digits (scaled mod scale))))
  end.

End Ref.

(** ** Device options *)

Module Options.
Import CLib.

Definition OPTION_STRING_MAX_LEN : nat := 32.

(** The union [value] of [struct DeviceOption] together with the [type] tag
    that selects its member. *)
Inductive OptionValue :=
| Uint32Val (min max current : Z)
| BoolVal (boolVal : bool)
| EnumVal (values : list cstring) (count current : Z)
| StringVal (stringVal : cstring).

(** [struct DeviceOption] *)
Record DeviceOption := mkDeviceOption {
  name : cstring;
  description : cstring;
  value : OptionValue
}.

Definition set_value (v : OptionValue) (opt : DeviceOption) : DeviceOption :=
  mkDeviceOption (name opt) (description opt) v.

Definition makeUint32Option (name desc : cstring) (min max current : Z) : DeviceOption :=
  mkDeviceOption name desc (Uint32Val min max current).

Definition makeBoolOption (name desc : cstring) (current : bool) : DeviceOption :=
  mkDeviceOption name desc (BoolVal current).

Definition makeEnumOption (name desc : cstring) (values : list cstring) (count current : Z)
  : DeviceOption :=
  mkDeviceOption name desc (EnumVal values count current).

(** [formatOptionValue]: the text left in [buffer]. *)
Definition formatOptionValue (opt : DeviceOption) (bufLen : nat) : cstring :=
  match value opt with
  | Uint32Val _ _ current => snprintf bufLen (fmt_u 0 current)
  | BoolVal b => snprintf bufLen (if b then str "true" else str "false")
  | EnumVal values count current =>
      if current <? count then snprintf bufLen (nth (Z.to_nat current) values [])
      else snprintf bufLen (str "?")
  | StringVal s => snprintf bufLen s
  end.

(** The loop of the [ENUM] case of [parseOptionValue]: the first index [i]
    below [count], from [i] on, whose value equals [s] without regard to
    case; [n] is the number of indexes left. *)
Fixpoint enum_index (s : cstring) (values : list cstring) (n : nat) (i : Z) : option Z :=
  match n with
  | O => None
  | S k => if strcasecmp_eq s (nth (Z.to_nat i) values []) then Some i
           else enum_index s values k (i + 1)
  end.

(** [parseOptionValue]: the result and the option afterwards. *)
Definition parseOptionValue (opt : DeviceOption) (s : cstring) : bool * DeviceOption :=
  match value opt with
  | Uint32Val min max _ =>
      let '(val, endptr) := strtoul s in
      match endptr with
      | _ :: _ => (false, opt)
      | [] =>
          if (val <? min) || (val >? max) then (false, opt)
          else (true, set_value (Uint32Val min max (to_uint32 val)) opt)
      end
  | BoolVal _ =>
      if strcasecmp_eq s (str "true") || strcmp_eq s (str "1")
      then (true, set_value (BoolVal true) opt)
      else if strcasecmp_eq s (str "false") || strcmp_eq s (str "0")
      then (true, set_value (BoolVal false) opt)
      else (false, opt)
  | EnumVal values count _ =>
      match enum_index s values (Z.to_nat count) 0 with
      | Some i => (true, set_value (EnumVal values count i) opt)
      | None => (false, opt)
      end
  | StringVal _ =>
      (true, set_value (StringVal (take (OPTION_STRING_MAX_LEN - 1) s)) opt)
  end.

(** The loop of [findOption] and [getOptionValue]: the index of the first
    option whose name compares equal to [name]. *)
Fixpoint find_index (eq : cstring -> cstring -> bool) (name0 : cstring)
    (opts : list DeviceOption) (i : nat) : option nat :=
  match opts with
  | [] => None
  | o :: r => if eq (name o) name0 then Some i else find_index eq name0 r (S i)
  end.

End Options.

(** ** The Yaesu radio device *)

Module YaesuDev.
Import CLib Options.

Definition baudRateValues : list cstring :=
  [str "4800"; str "9600"; str "19200"; str "38400"].
Definition baudRates : list Z := [4800; 9600; 19200; 38400].
Definition NUM_BAUD_RATES : Z := 4.
Definition DEFAULT_BAUD_INDEX : Z := 3.

(** [enum class MeterType : uint8_t], by its numeric code. *)
Definition SMETER : Z := 0.
Definition POWER : Z := 1.
Definition SWR : Z := 2.
Definition ALC : Z := 3.
Definition COMP : Z := 4.

(** [class YaesuDevice].  [has_serial] tells whether [_serial] is non-null,
    [port] is the baud rate the serial port is open at ([None]: closed);
    [parser] carries the radio state and the serial output; [options] is
    [_options]. *)
Record YaesuDevice := mkYaesuDevice {
  has_serial : bool;
  port : option Z;
  uartIndex : Z;
  deviceId : Z;
  running : bool;
  parser : Yaesu.CATParser;
  options : list DeviceOption
}.

Definition set_port (b : option Z) (d : YaesuDevice) : YaesuDevice :=
  mkYaesuDevice (has_serial d) b (uartIndex d) (deviceId d) (running d) (parser d) (options d).
Definition set_running (r : bool) (d : YaesuDevice) : YaesuDevice :=
  mkYaesuDevice (has_serial d) (port d) (uartIndex d) (deviceId d) r (parser d) (options d).
Definition set_parser (p : Yaesu.CATParser) (d : YaesuDevice) : YaesuDevice :=
  mkYaesuDevice (has_serial d) (port d) (uartIndex d) (deviceId d) (running d) p (options d).
Definition set_options (o : list DeviceOption) (d : YaesuDevice) : YaesuDevice :=
  mkYaesuDevice (has_serial d) (port d) (uartIndex d) (deviceId d) (running d) (parser d) o.

Definition initOptions : list DeviceOption :=
  [ makeEnumOption (str "baud_rate") (str "Serial baud rate")
      baudRateValues NUM_BAUD_RATES DEFAULT_BAUD_INDEX;
    makeBoolOption (str "echo") (str "Echo CAT commands to console") false ].

(** The constructor. *)
Definition new (serial : bool) (uart : Z) : YaesuDevice :=
  mkYaesuDevice serial None uart 255 false (Yaesu.mkCATParser Yaesu.reset [] []) initOptions.

(** [_options[0].value.enumVal.current] and [_options[1].value.boolVal]. *)
Definition baud_index (d : YaesuDevice) : Z :=
  match options d with
  | o :: _ => match value o with EnumVal _ _ current => current | _ => 0 end
  | [] => 0
  end.

Definition echo (d : YaesuDevice) : bool :=
  match options d with
  | _ :: o :: _ => match value o with BoolVal b => b | _ => false end
  | _ => false
  end.

(** [applyBaudRate]: the port is closed if it was open, then opened at
    [baudRates[baudIndex]].  (The source does not check the index; outside
    the table the model reads 0.) *)
Definition applyBaudRate (d : YaesuDevice) : YaesuDevice :=
  set_port (Some (nth (Z.to_nat (baud_index d)) baudRates 0)) d.

Definition begin (d : YaesuDevice) : bool * YaesuDevice :=
  if running d then (true, d)
  else if negb (has_serial d) then (false, d)
  else
    let d1 := applyBaudRate d in
    (true, set_running true (set_parser (Yaesu.set_buffer [] (parser d1)) d1)).

Definition end_ (d : YaesuDevice) : YaesuDevice :=
  if negb (running d) then d
  else set_running false (set_port None d).

(** [update], with the characters available on the serial port. *)
Definition update (input : cstring) (d : YaesuDevice) : YaesuDevice :=
  if negb (running d) then d
  else set_parser (Yaesu.update input (parser d)) d.

Definition findOption (name0 : cstring) (d : YaesuDevice) : option nat :=
  find_index strcasecmp_eq name0 (options d) 0.

Definition setOption (name0 value0 : cstring) (d : YaesuDevice) : bool * YaesuDevice :=
  match findOption name0 d with
  | None => (false, d)
  | Some i =>
      match options d !! i with
      | None => (false, d)
      | Some opt =>
          let '(success, opt1) := parseOptionValue opt value0 in
          let d1 := set_options (<[i := opt1]> (options d)) d in
          if success && strcmp_eq name0 (str "baud_rate") && running d1
          then (success, applyBaudRate d1)
          else (success, d1)
      end
  end.

Definition set_meters (sm pw sw al co : Z) (s : Yaesu.YaesuState) : Yaesu.YaesuState :=
  Yaesu.mkYaesuState (Yaesu.freqVfoA s) (Yaesu.freqVfoB s) (Yaesu.currentVfo s)
    (Yaesu.modeVfoA s) (Yaesu.modeVfoB s) (Yaesu.ptt s) (Yaesu.powerOn s) (Yaesu.ritOn s)
    (Yaesu.xitOn s) (Yaesu.ritOffset s) (Yaesu.xitOffset s) sm pw sw al co
    (Yaesu.squelch s) (Yaesu.afGain s) (Yaesu.rfGain s).

(** [setMeter(type, value)] *)
Definition setMeter (type value0 : Z) (d : YaesuDevice) : bool * YaesuDevice :=
  let s := Yaesu.state (parser d) in
  let store s1 := (true, set_parser (Yaesu.with_state (fun _ => s1) (parser d)) d) in
  if type =? SMETER then
    store (set_meters value0 (Yaesu.powerMeter s) (Yaesu.swrMeter s) (Yaesu.alcMeter s)
             (Yaesu.compMeter s) s)
  else if type =? POWER then
    store (set_meters (Yaesu.smeter s) value0 (Yaesu.swrMeter s) (Yaesu.alcMeter s)
             (Yaesu.compMeter s) s)
  else if type =? SWR then
    store (set_meters (Yaesu.smeter s) (Yaesu.powerMeter s) value0 (Yaesu.alcMeter s)
             (Yaesu.compMeter s) s)
  else if type =? ALC then
    store (set_meters (Yaesu.smeter s) (Yaesu.powerMeter s) (Yaesu.swrMeter s) value0
             (Yaesu.compMeter s) s)
  else if type =? COMP then
    store (set_meters (Yaesu.smeter s) (Yaesu.powerMeter s) (Yaesu.swrMeter s)
             (Yaesu.alcMeter s) value0 s)
  else (false, d).

Definition getMeter (type : Z) (d : YaesuDevice) : Z :=
  let s := Yaesu.state (parser d) in
  if type =? SMETER then Yaesu.smeter s
  else if type =? POWER then Yaesu.powerMeter s
  else if type =? SWR then Yaesu.swrMeter s
  else if type =? ALC then Yaesu.alcMeter s
  else if type =? COMP then Yaesu.compMeter s
  else 0.

(** [serializeOptions]: the bytes written; their number is the result. *)
Definition serializeOptions (bufLen : nat) (d : YaesuDevice) : list Z :=
  if (bufLen <? 2)%nat then []
  else [baud_index d; if echo d then 1 else 0].

Definition store_current (baudIndex : Z) (e : bool) (d : YaesuDevice) : YaesuDevice :=
  set_options
    (match options d with
     | o0 :: o1 :: r =>
         set_value (match value o0 with
                    | EnumVal values count _ => EnumVal values count baudIndex
                    | v => v
                    end) o0
         :: set_value (BoolVal e) o1 :: r
     | l => l
     end) d.

Definition deserializeOptions (bytes : list Z) (d : YaesuDevice) : bool * YaesuDevice :=
  match bytes with
  | b0 :: b1 :: _ =>
      let baudIndex := if b0 >=? NUM_BAUD_RATES then DEFAULT_BAUD_INDEX else b0 in
      (true, store_current baudIndex (negb (b1 =? 0)) d)
  | _ => (false, d)
  end.

End YaesuDev.

(** ** Options of the rotator device *)

Module G5500Opt.
Import CLib Options G5500.

Definition BAUD_RATE_OPTIONS : list cstring := [str "1200"; str "4800"; str "9600"].

(** [_options]: the descriptors set up by [initOptions], with the current
    values the device holds.  Only the current values ever change. *)
Definition options (d : G5500Device) : list DeviceOption :=
  [ makeEnumOption (str "baud_rate") (str "Serial baud rate")
      BAUD_RATE_OPTIONS NUM_BAUD_RATES (opt_baud_rate d);
    makeUint32Option (str "az_speed") (str "Azimuth speed (deg/sec)")
      MIN_SPEED MAX_SPEED (opt_az_speed d);
    makeUint32Option (str "el_speed") (str "Elevation speed (deg/sec)")
      MIN_SPEED MAX_SPEED (opt_el_speed d) ].

(** The current value of an option descriptor. *)
Definition current_of (opt : DeviceOption) : Z :=
  match value opt with
  | Uint32Val _ _ current => current
  | EnumVal _ _ current => current
  | _ => 0
  end.

(** Writing the descriptor [opt] back to [_options[i]]. *)
Definition store (i : nat) (opt : DeviceOption) (d : G5500Device) : G5500Device :=
  match i with
  | 0%nat => set_options (current_of opt) (opt_az_speed d) (opt_el_speed d) d
  | 1%nat => set_options (opt_baud_rate d) (current_of opt) (opt_el_speed d) d
  | 2%nat => set_options (opt_baud_rate d) (opt_az_speed d) (current_of opt) d
  | _ => d
  end.

Definition findOption (name0 : cstring) (d : G5500Device) : option nat :=
  find_index strcmp_eq name0 (options d) 0.

Definition setOption (name0 value0 : cstring) (d : G5500Device) : bool * G5500Device :=
  match findOption name0 d with
  | None => (false, d)
  | Some i =>
      match options d !! i with
      | None => (false, d)
      | Some opt =>
          let '(ok, opt1) := parseOptionValue opt value0 in
          if negb ok then (false, d)
          else
            let d1 := store i opt1 d in
            if strcmp_eq name0 (str "baud_rate") && running d1
            then (true, applyBaudRate d1)
            else (true, d1)
      end
  end.

(** [serializeOptions]: the bytes written; their number is the result. *)
Definition serializeOptions (bufLen : nat) (d : G5500Device) : list Z :=
  if (bufLen <? 3)%nat then []
  else [opt_baud_rate d; to_uint8 (opt_az_speed d); to_uint8 (opt_el_speed d)].

End G5500Opt.

(** ** Options of the GPS device *)

Module NMEAOpt.
Import CLib Options NMEA.

Definition BAUD_RATE_OPTIONS : list cstring :=
  [str "4800"; str "9600"; str "19200"; str "38400"].
Definition UPDATE_RATE_OPTIONS : list cstring := [str "1"; str "5"; str "10"].

(** [_options]: the descriptors set up by [initOptions], with the current
    values the device holds. *)
Definition options (d : NMEAGPSDevice) : list DeviceOption :=
  [ makeEnumOption (str "baud_rate") (str "Serial baud rate")
      BAUD_RATE_OPTIONS NUM_BAUD_RATES (opt_baud_rate d);
    makeEnumOption (str "update_rate") (str "Output rate (Hz)")
      UPDATE_RATE_OPTIONS NUM_UPDATE_RATES (opt_update_rate d) ].

Definition current_of (opt : DeviceOption) : Z :=
  match value opt with
  | Uint32Val _ _ current => current
  | EnumVal _ _ current => current
  | _ => 0
  end.

Definition store (i : nat) (opt : DeviceOption) (d : NMEAGPSDevice) : NMEAGPSDevice :=
  match i with
  | 0%nat => set_options (current_of opt) (opt_update_rate d) d
  | 1%nat => set_options (opt_baud_rate d) (current_of opt) d
  | _ => d
  end.

Definition findOption (name0 : cstring) (d : NMEAGPSDevice) : option nat :=
  find_index strcmp_eq name0 (options d) 0.

Definition setOption (name0 value0 : cstring) (d : NMEAGPSDevice) : bool * NMEAGPSDevice :=
  match findOption name0 d with
  | None => (false, d)
  | Some i =>
      match options d !! i with
      | None => (false, d)
      | Some opt =>
          let '(ok, opt1) := parseOptionValue opt value0 in
          if negb ok then (false, d)
          else
            let d1 := store i opt1 d in
            if strcmp_eq name0 (str "baud_rate") && running d1
            then (true, applyBaudRate d1)
            else (true, d1)
      end
  end.

End NMEAOpt.

(** ** Further queries of the device manager *)

Module DevMgrQueries.
Import CLib DevMgr.

(** [getFactory(index)] *)
Definition getFactory (index : nat) (m : DeviceManager) : option Factory :=
  if (length (factories m) <=? index)%nat then None else factories m !! index.

End DevMgrQueries.

(** ** The console: splitting a command line *)

Module Console.
Import CLib.

Definition is_blank (c : Z) : bool := (c =? 32) || (c =? 9).

(** The loop that steps over blanks and tabs. *)
Fixpoint skip_blanks (p : cstring) : cstring :=
  match p with
  | c :: r => if is_blank c then skip_blanks r else p
  | [] => []
  end.

(** The loops that step over an argument, up to a stop character or the end
    of the line: the characters stepped over and the rest, which is empty or
    starts with a stop character. *)
Fixpoint scan_until (stop : Z -> bool) (p : cstring) : cstring * cstring :=
  match p with
  | c :: r => if stop c then ([], p)
              else let '(tok, rest) := scan_until stop r in (c :: tok, rest)
  | [] => ([], [])
  end.

(** [parseArgs(line, argv, maxArgs)]: the strings [argv[0 .. argc-1]] point
    to after the call.  Every pass of the outer loop that does not leave it
    stores one argument, so the number of passes left is [maxArgs - argc]. *)
Fixpoint parseArgs (line : cstring) (maxArgs : nat) : list cstring :=
  match maxArgs with
  | O => []
  | S m =>
      match skip_blanks line with
      | [] => []
      | 34 :: r =>
          let '(tok, rest) := scan_until (fun c => c =? 34) r in
          tok :: parseArgs (drop 1 rest) m
      | p =>
          let '(tok, rest) := scan_until is_blank p in
          tok :: parseArgs (drop 1 rest) m
      end
  end.

End Console.

(** ** Further reference notions *)

Module Ref2.
Import CLib.

(** The zero-padded decimal representation of a number on [w] digits: the
    digit of 10^(w-1) first, the digit of 10^0 last. *)
Definition decimal_digits (w : nat) (v : Z) : cstring :=
  map (fun i => 48 + (v / 10 ^ Z.of_nat i) mod 10) (rev (seq 0 w)).

(** *** The CAT parser *)

(** The settings of the radio lie in their documented ranges: frequencies
    within [FREQ_MIN, FREQ_MAX], modes 1 to 14, RIT offset within
    -9999 to +9999, squelch 0 to 100, gains 0 to 255. *)
Definition radio_in_range (s : Yaesu.YaesuState) : Prop :=
  Yaesu.FREQ_MIN <= Yaesu.freqVfoA s <= Yaesu.FREQ_MAX /\
  Yaesu.FREQ_MIN <= Yaesu.freqVfoB s <= Yaesu.FREQ_MAX /\
  1 <= Yaesu.modeVfoA s <= 14 /\
  1 <= Yaesu.modeVfoB s <= 14 /\
  -9999 <= Yaesu.ritOffset s <= 9999 /\
  0 <= Yaesu.squelch s <= 100 /\
  0 <= Yaesu.afGain s <= 255 /\
  0 <= Yaesu.rfGain s <= 255.


(** The responses written between two parsers: the serial output of [q] is
    that of [p] followed by the given responses, each with its terminator. *)
Definition responses_between (p q : Yaesu.CATParser) (rs : list cstring) : Prop :=
  Yaesu.serial_out q
  = Yaesu.serial_out p ++ concat (map (fun r => r ++ [Yaesu.CAT_TERMINATOR]) rs).

(** A character of a response: a digit, a capital letter or a sign.  The
    terminator is none of these. *)
Definition response_char (c : Z) : Prop :=
  48 <= c <= 57 \/ 65 <= c <= 90 \/ c = 43 \/ c = 45.

(** What one command may do to a parser: at most one response is written,
    the buffer is kept, and settings in range stay in range. *)
Definition command_effect (p q : Yaesu.CATParser) : Prop :=
  exists s' rs,
    q = Yaesu.mkCATParser s' (Yaesu.serial_out p
                              ++ concat (map (fun r => r ++ [Yaesu.CAT_TERMINATOR]) rs))
                          (Yaesu.buffer p) /\
    (length rs <= 1)%nat /\
    Forall (Forall response_char) rs /\
    (radio_in_range (Yaesu.state p) -> radio_in_range s').

(** The number of terminators in an input. *)
Definition terminators (input : cstring) : nat :=
  length (List.filter (fun c => c =? Yaesu.CAT_TERMINATOR) input).

(** *** GSV sentences *)







(** *** The GS-232 parser and the rotator *)

(** A character the GS-232 parser buffers: printable ASCII. *)
Definition printable (c : Z) : Prop := 32 <= c < 127.

(** [x == y] on floats. *)
Definition float_eq (x y : spec_float) : Prop := SFcompare x y = Some Eq.

(** The azimuth axis stands at the target [t]: [azimuth == t], stopped,
    goto-mode off. *)
Definition az_at (t : F32.f32) (s : G5500.G5500State) : Prop :=
  float_eq (G5500.azimuth s) t /\ G5500.azRotation s = G5500.STOPPED /\
  G5500.azGotoMode s = false.

(** The azimuth axis is under way to [t] in goto-mode and has not reached
    it: rotating clockwise with [azimuth >= t] false, or counter-clockwise
    with [azimuth <= t] false. *)
Definition az_under_way_to (t : F32.f32) (s : G5500.G5500State) : Prop :=
  G5500.azGotoMode s = true /\
  ((G5500.azRotation s = G5500.CW /\ F32.ge (G5500.azimuth s) t = false) \/
   (G5500.azRotation s = G5500.CCW /\ F32.le (G5500.azimuth s) t = false)).

(** The same for the elevation axis. *)
Definition el_at (t : F32.f32) (s : G5500.G5500State) : Prop :=
  float_eq (G5500.elevation s) t /\ G5500.elRotation s = G5500.STOPPED /\
  G5500.elGotoMode s = false.

Definition el_under_way_to (t : F32.f32) (s : G5500.G5500State) : Prop :=
  G5500.elGotoMode s = true /\
  ((G5500.elRotation s = G5500.CW /\ F32.ge (G5500.elevation s) t = false) \/
   (G5500.elRotation s = G5500.CCW /\ F32.le (G5500.elevation s) t = false)).

(** The position and motion of both axes. *)
Definition axes (s : G5500.G5500State)
  : F32.f32 * F32.f32 * G5500.RotationDir * G5500.RotationDir :=
  (G5500.azimuth s, G5500.elevation s, G5500.azRotation s, G5500.elRotation s).

(** *** Options *)

(** The values of an enumeration differ even when case is ignored. *)
Definition distinct_ignoring_case (values : list cstring) : Prop :=
  NoDup (map (map tolower) values).

(** A well-formed option: a number within its range, a selection among the
    values of an enumeration, a string that fits its buffer. *)
Definition wf_option (opt : Options.DeviceOption) : Prop :=
  match Options.value opt with
  | Options.Uint32Val min max current => 0 <= min /\ min <= current <= max /\ max <= ULONG_MAX
  | Options.BoolVal _ => True
  | Options.EnumVal values count current =>
      0 <= current < count /\ count = Z.of_nat (length values)
  | Options.StringVal s => (length s < Options.OPTION_STRING_MAX_LEN)%nat
  end.

(** The values of an enumeration option are pairwise distinct. *)
Definition distinct_values (opt : Options.DeviceOption) : Prop :=
  match Options.value opt with
  | Options.EnumVal values _ _ => distinct_ignoring_case values
  | _ => True
  end.

(** The buffer handed to [formatOptionValue] holds the whole text. *)
Definition fits_buffer (opt : Options.DeviceOption) (bufLen : nat) : Prop :=
  (Options.OPTION_STRING_MAX_LEN <= bufLen)%nat /\
  match Options.value opt with
  | Options.EnumVal values _ _ => Forall (fun v => (length v < bufLen)%nat) values
  | _ => True
  end.

(** The option values of the rotator are valid: a baud rate of the table,
    speeds of 1 to 10 degrees per second. *)
Definition valid_rotator_options (d : G5500.G5500Device) : Prop :=
  0 <= G5500.opt_baud_rate d < G5500.NUM_BAUD_RATES /\
  G5500.MIN_SPEED <= G5500.opt_az_speed d <= G5500.MAX_SPEED /\
  G5500.MIN_SPEED <= G5500.opt_el_speed d <= G5500.MAX_SPEED.

(** Bytes. *)
Definition bytes (l : list Z) : Prop := Forall (fun b => 0 <= b < 256) l.

(** The options of the radio device are its two descriptors, with a baud
    rate of the table selected. *)
Definition valid_radio_options (d : YaesuDev.YaesuDevice) : Prop :=
  exists i e,
    YaesuDev.options d
    = [ Options.makeEnumOption (str "baud_rate") (str "Serial baud rate")
          YaesuDev.baudRateValues YaesuDev.NUM_BAUD_RATES i;
        Options.makeBoolOption (str "echo") (str "Echo CAT commands to console") e ] /\
    0 <= i < YaesuDev.NUM_BAUD_RATES.

(** *** Command lines *)

(** A run of blanks and tabs. *)
Definition blanks (p : cstring) : Prop := Forall (fun c => Console.is_blank c = true) p.

(** A word: not empty, free of blanks, tabs and NUL characters, not opening
    with a quote. *)
Definition plain_word (w : cstring) : Prop :=
  w <> [] /\ Forall (fun c => Console.is_blank c = false /\ c <> 0) w /\ hd 0 w <> 34.

(** Words joined by single blanks. *)
Definition join_words (ws : list cstring) : cstring :=
  match ws with
  | [] => []
  | w :: r => w ++ concat (map (fun v => 32 :: v) r)
  end.

End Ref2.

(* ===================================================================== *)
(** * Part II: properties                                                 *)
(* ===================================================================== *)

(** ** The simulated GPS clock *)

Section Clock.
Import CLib NMEA Ref.

Lemma advanceTime_next_second st :
  valid_clock st -> advanceTime st = with_clock (next_second (clock st)) st.
Proof.
  intros (Hs & Hm & Hh & Hd & Hmo & Hy).
  unfold advanceTime, with_clock, next_second, clock, to_uint8, to_uint16.
  destruct (Z.eqb_spec (second st) 59) as [Es|Es].
  - rewrite Es. change ((59 + 1) mod 256 >=? 60) with true. cbv iota.
    destruct (Z.eqb_spec (minute st) 59) as [Em|Em].
    + rewrite Em. change ((59 + 1) mod 256 >=? 60) with true. cbv iota.
      destruct (Z.eqb_spec (hour st) 23) as [Eh|Eh].
      * rewrite Eh. change ((23 + 1) mod 256 >=? 24) with true. cbv iota.
        destruct (Z.eqb_spec (day st) 28) as [Ed|Ed].
        -- rewrite Ed. change ((28 + 1) mod 256 >? 28) with true. cbv iota.
           destruct (Z.eqb_spec (month st) 12) as [Emo|Emo].
           ++ rewrite Emo. change ((12 + 1) mod 256 >? 12) with true. cbv iota.
              rewrite Z.mod_small by lia. reflexivity.
           ++ rewrite (Z.mod_small (month st + 1)) by lia.
              destruct (Z.gtb_spec (month st + 1) 12); [lia | reflexivity].
        -- rewrite (Z.mod_small (day st + 1)) by lia.
           destruct (Z.gtb_spec (day st + 1) 28); [lia | reflexivity].
      * rewrite (Z.mod_small (hour st + 1)) by lia.
        destruct (Z.geb_spec (hour st + 1) 24); [lia | reflexivity].
    + rewrite (Z.mod_small (minute st + 1)) by lia.
      destruct (Z.geb_spec (minute st + 1) 60); [lia | reflexivity].
  - rewrite (Z.mod_small (second st + 1)) by lia.
    destruct (Z.geb_spec (second st + 1) 60); [lia | reflexivity].
Qed.

Lemma next_second_one_second c st :
  valid_clock st -> c = clock st -> seconds_of (next_second c) = seconds_of c + 1.
Proof.
  intros (Hs & Hm & Hh & Hd & Hmo & Hy) ->. unfold clock, next_second, seconds_of.
  repeat match goal with
         | |- context [?a =? ?b] => destruct (Z.eqb_spec a b)
         end; lia.
Qed.

(** A valid clock reading stays valid (until the [uint16_t] year is used up). *)
Lemma advanceTime_valid st :
  valid_clock st -> year st < 65534 -> valid_clock (advanceTime st).
Proof.
  intros Hv Hy. pose proof Hv as (Hs & Hm & Hh & Hd & Hmo & Hyr).
  rewrite advanceTime_next_second by exact Hv.
  unfold valid_clock, with_clock, next_second, clock.
  repeat match goal with
         | |- context [?a =? ?b] => destruct (Z.eqb_spec a b)
         end; cbn [set_clock second minute hour day month year]; lia.
Qed.

Lemma reset_valid_clock : valid_clock reset.
Proof. vm_compute. repeat split; discriminate. Qed.

Lemma clock_with_clock c st : clock (with_clock c st) = c.
Proof. destruct c as [[[[[y mo] d] h] mi] s]. reflexivity. Qed.

(** C6. An output tick of the GPS device (running, update interval elapsed)
    advances the simulated clock by exactly one second of the 28-day-month
    calendar: the clock becomes [next_second] of what it was (second 59 to 0
    carries into the minute, minute 59 to 0 into the hour, hour 23 to 0 into
    the day, day 28 to 1 into the month, month 12 to 1 into the year), that is
    one second more, and apart from the time stamp of the tick no other field
    of the state changes. *)
Theorem gps_tick_advances_clock_one_second
    (dtostrf : F64.f64 -> Z -> Z -> cstring) (now : Z) (d : NMEAGPSDevice) :
  running d = true ->
  (to_uint32 (now - lastOutputMs (state d)) >=? getUpdateIntervalMs d) = true ->
  valid_clock (state d) ->
  let st' := state (update dtostrf now d) in
  st' = with_clock (next_second (clock (state d))) (set_lastOutputMs now (state d))
  /\ clock st' = next_second (clock (state d))
  /\ seconds_of (clock st') = seconds_of (clock (state d)) + 1.
Proof.
  intros Hrun Htick Hvalid st'.
  assert (E : st' = with_clock (next_second (clock (state d)))
                              (set_lastOutputMs now (state d))).
  { subst st'. unfold update. rewrite Hrun, Htick. cbn [negb state set_printed set_state].
    rewrite advanceTime_next_second by exact Hvalid. reflexivity. }
  split; [exact E|]. rewrite E, clock_with_clock.
  split; [reflexivity|]. eapply next_second_one_second; [exact Hvalid | reflexivity].
Qed.

Lemma gps_tick_advances_clock_one_second_witness :
  let d := snd (begin 0 (new true 1)) in
  running d = true /\
  (to_uint32 (1000 - lastOutputMs (state d)) >=? getUpdateIntervalMs d) = true /\
  valid_clock (state d) /\
  clock (state (update dtostrf_ref 1000 d)) = (2025, 1, 1, 12, 0, 1).
Proof.
  cbv zeta.
  assert (Hv : valid_clock (state (snd (begin 0 (new true 1))))).
  { vm_compute. repeat split; discriminate. }
  split; [reflexivity|]. split; [reflexivity|]. split; [exact Hv|].
  exact (proj1 (proj2 (gps_tick_advances_clock_one_second dtostrf_ref 1000
                         (snd (begin 0 (new true 1))) eq_refl eq_refl Hv))).
Defined.

End Clock.

(** ** The device manager: registry and UART ownership *)

Section Manager.
Import CLib DevMgr Ref.

Variable P : nat.
Variables H1 H2 : bool.

Local Abbreviation createDevice := (DevMgr.createDevice P H1 H2).
Local Abbreviation destroyDevice := (DevMgr.destroyDevice P).
Local Abbreviation getSerialForUart := (DevMgr.getSerialForUart P H1 H2).
Local Abbreviation isUartAvailable := (DevMgr.isUartAvailable P H1 H2).
Local Abbreviation run_ops := (DevMgr.run_ops P H1 H2).
Local Abbreviation run_op := (DevMgr.run_op P H1 H2).
Local Abbreviation consistent := (tables_consistent P).

Lemma uart_in_range_spec u :
  0 <= u -> uart_in_range P u = true <-> 1 <= u <= Z.of_nat P.
Proof.
  intros Hu. unfold uart_in_range.
  destruct (Z.eqb_spec u 0), (Z.gtb_spec u (Z.of_nat P)); cbn; split; intros; try lia; try discriminate; reflexivity.
Qed.

Lemma first_free_spec slots : forall i,
  (first_free i slots = INVALID_ID /\ Forall (fun s => s <> None) slots) \/
  (exists k, first_free i slots = Z.of_nat (i + k) /\ slots !! k = Some None).
Proof.
  induction slots as [|[d|] r IH]; intros i; cbn.
  - left. split; [reflexivity | constructor].
  - destruct (IH (S i)) as [[E F]|(k & E & L)].
    + left. split; [exact E | constructor; [discriminate | exact F]].
    + right. exists (S k). split; [rewrite E; f_equal; lia | exact L].
  - right. exists O. split; [f_equal; lia | reflexivity].
Qed.

Lemma consistent_empty : consistent (empty P).
Proof.
  unfold tables_consistent, empty.
  cbn [devices uartAllocation serialPorts factories].
  rewrite !length_replicate. repeat split; try reflexivity; try constructor.
  all: match goal with H : replicate _ _ !! _ = Some _ |- _ =>
         apply lookup_replicate in H as [? ?]; discriminate end.
Qed.

Lemma consistent_exclusive m : consistent m -> uart_exclusive m.
Proof.
  intros (_ & _ & _ & _ & Hown) i j d1 d2 Hi Hj E.
  destruct (Hown _ _ Hi) as [_ Ai]. destruct (Hown _ _ Hj) as [_ Aj].
  rewrite E in Ai. rewrite Ai in Aj. injection Aj. lia.
Qed.

(** [getSerialForUart] touches the serial wrappers only, and only creates. *)
Lemma getSerialForUart_tables u m :
  0 <= u -> length (serialPorts m) = P ->
  let r := getSerialForUart u m in
  factories (snd r) = factories m /\ devices (snd r) = devices m /\
  deviceFactories (snd r) = deviceFactories m /\
  uartAllocation (snd r) = uartAllocation m /\
  length (serialPorts (snd r)) = length (serialPorts m) /\
  (forall k, serialPorts m !! k = Some true -> serialPorts (snd r) !! k = Some true) /\
  (fst r = true -> serialPorts (snd r) !! Z.to_nat (u - 1) = Some true).
Proof.
  intros Hu Hlen. unfold DevMgr.getSerialForUart.
  destruct (uart_in_range P u) eqn:Hr; cbn [negb].
  2:{ cbn. repeat split; auto; discriminate. }
  apply uart_in_range_spec in Hr; [|exact Hu].
  destruct (serialPorts m !! Z.to_nat (u - 1)) as [[|]|] eqn:Hw.
  - cbn. repeat split; auto.
  - destruct ((H1 && (u =? 1)) || (H2 && (u =? 2))); cbn.
    + repeat split; auto.
      * apply length_insert.
      * intros k Hk. destruct (decide (Z.to_nat (u - 1) = k)) as [<-|Hne].
        -- congruence.
        -- rewrite list_lookup_insert_ne; assumption.
      * intros _. apply list_lookup_insert_eq. lia.
    + repeat split; auto; discriminate.
  - apply lookup_ge_None in Hw. lia.
Qed.

Lemma consistent_getSerialForUart u m :
  0 <= u -> consistent m -> consistent (snd (getSerialForUart u m)).
Proof.
  intros Hu (L1 & L2 & L3 & Hf & Hown).
  destruct (getSerialForUart_tables u m Hu L3) as (Ef & Ed & _ & Ea & El & _ & _).
  unfold tables_consistent. rewrite Ef, Ed, Ea, El. auto.
Qed.

Lemma consistent_registerFactory f m :
  binds_uart f -> consistent m -> consistent (snd (registerFactory f m)).
Proof.
  intros Hb Hc. unfold registerFactory.
  destruct (MAX_DEVICE_FACTORIES <=? length (factories m))%nat; [exact Hc|].
  destruct (existsb _ _); [exact Hc|].
  destruct Hc as (L1 & L2 & L3 & Hf & Hown).
  unfold tables_consistent. cbn [snd factories devices uartAllocation serialPorts].
  split; [exact L1|]. split; [exact L2|]. split; [exact L3|]. split; [|exact Hown].
  apply Forall_app; split; [exact Hf | constructor; [exact Hb | constructor]].
Qed.

Lemma findFactory_binds ty m f :
  Forall binds_uart (factories m) -> findFactory ty m = Some f -> binds_uart f.
Proof.
  intros Hall Hfind. unfold findFactory in Hfind. apply find_some in Hfind as [Hin _].
  rewrite Forall_forall in Hall. apply Hall. apply list_elem_of_In. exact Hin.
Qed.

(** What a call of [createDevice] does: it either fails, leaving the tables
    as they were up to a serial wrapper, or fills a free slot and allocates
    the UART, which was free. *)
Lemma createDevice_cases ty u m :
  0 <= u < 256 -> consistent m ->
  let r := createDevice ty u m in
  (snd r = INVALID_ID /\ (fst r = m \/ fst r = snd (getSerialForUart u m))) \/
  (exists f slot d,
      snd r = Z.of_nat slot /\ (slot < MAX_DEVICES)%nat /\
      devices m !! slot = Some None /\
      findFactory (resolveTypeName ty) m = Some f /\ create f u = Some d /\
      1 <= u <= Z.of_nat P /\
      uartAllocation m !! Z.to_nat (u - 1) = Some INVALID_ID /\
      isUartAvailable u m = true /\
      fst (getSerialForUart u m) = true /\
      let m1 := snd (getSerialForUart u m) in
      fst r = mkDeviceManager (factories m1)
                (<[slot := Some (setDeviceId (Z.of_nat slot) d)]> (devices m1))
                (<[slot := Some f]> (deviceFactories m1))
                (<[Z.to_nat (u - 1) := Z.of_nat slot]> (uartAllocation m1))
                (serialPorts m1)).
Proof.
  intros Hu Hc. unfold DevMgr.createDevice.
  destruct (uart_in_range P u) eqn:Hr; cbn [negb]; [|left; cbn; auto].
  destruct (isUartAvailable u m) eqn:Hav; cbn [negb]; [|left; cbn; auto].
  destruct (findFactory (resolveTypeName ty) m) as [f|] eqn:Hf; [|left; cbn; auto].
  destruct (first_free_spec (devices m) 0) as [[E _]|(k & E & Hk)];
    unfold findFreeDeviceSlot; rewrite E.
  { rewrite Z.eqb_refl. left; cbn; auto. }
  assert (Hklt : (k < MAX_DEVICES)%nat).
  { destruct Hc as (L1 & _). rewrite <- L1. apply lookup_lt_is_Some. eauto. }
  cbn [Nat.add].
  destruct (Z.eqb_spec (Z.of_nat k) INVALID_ID) as [Ek|_].
  { unfold INVALID_ID, MAX_DEVICES in *. lia. }
  destruct (getSerialForUart u m) as [serial m1] eqn:Hs.
  destruct serial; cbn [negb]; [|left; cbn; auto].
  destruct (create f u) as [d|] eqn:Hcr; [|left; cbn; auto].
  right. exists f, k, d. rewrite Nat2Z.id. cbn [fst snd].
  apply uart_in_range_spec in Hr; [|lia].
  pose proof Hav as Hav'.
  unfold DevMgr.isUartAvailable in Hav.
  rewrite (proj2 (uart_in_range_spec u ltac:(lia)) Hr) in Hav. cbn [negb] in Hav.
  destruct (negb H1 && (u =? 1)); [discriminate|].
  destruct (negb H2 && (u =? 2)); [discriminate|].
  destruct (uartAllocation m !! Z.to_nat (u - 1)) as [owner|] eqn:Ho; [|discriminate].
  apply Z.eqb_eq in Hav. subst owner. repeat split; auto; lia.
Qed.

Lemma consistent_createDevice ty u m :
  0 <= u < 256 -> consistent m -> consistent (fst (createDevice ty u m)).
Proof.
  intros Hu Hc.
  destruct (createDevice_cases ty u m Hu Hc) as [[_ [-> | ->]] | Hok].
  - exact Hc.
  - apply consistent_getSerialForUart; [lia | exact Hc].
  - destruct Hok as (f & slot & d & _ & Hslot & Hfree & Hf & Hcr & Hr & Hal & _ & _ & ->).
    pose proof Hc as (L1 & L2 & L3 & Hfs & Hown).
    destruct (getSerialForUart_tables u m ltac:(lia) L3) as (Ef & Ed & _ & Ea & El & _ & _).
    unfold tables_consistent.
    cbn [factories devices uartAllocation serialPorts]. rewrite Ef, Ed, Ea, El.
    rewrite !length_insert. do 4 (split; [assumption|]).
    intros i d' Hi.
    destruct (decide (slot = i)) as [<-|Hne].
    + rewrite list_lookup_insert_eq in Hi by (rewrite L1; exact Hslot).
      injection Hi as <-. cbn [setDeviceId getUartIndex].
      rewrite (findFactory_binds _ _ _ Hfs Hf u d Hcr).
      split; [exact Hr|]. apply list_lookup_insert_eq. lia.
    + rewrite list_lookup_insert_ne in Hi by exact Hne.
      destruct (Hown _ _ Hi) as [Hr' Ha']. split; [exact Hr'|].
      assert (i < MAX_DEVICES)%nat.
      { rewrite <- L1. apply lookup_lt_is_Some. eauto. }
      rewrite list_lookup_insert_ne; [exact Ha'|].
      intros Eq. rewrite Eq in Hal. rewrite Hal in Ha'. injection Ha'.
      unfold INVALID_ID, MAX_DEVICES in *. lia.
Qed.

Lemma consistent_destroyDevice id m :
  0 <= id < 256 -> consistent m -> consistent (snd (destroyDevice id m)).
Proof.
  intros Hid Hc. unfold DevMgr.destroyDevice.
  destruct (Z.of_nat MAX_DEVICES <=? id); [exact Hc|].
  destruct (devices m !! Z.to_nat id) as [[d|]|] eqn:Hd; try exact Hc.
  pose proof Hc as (L1 & L2 & L3 & Hfs & Hown).
  destruct (Hown _ _ Hd) as [Hr Ha].
  set (d' := if isRunning d then dev_end d else d).
  assert (Eu : getUartIndex d' = getUartIndex d) by (subst d'; destruct (isRunning d); reflexivity).
  rewrite Eu. rewrite (proj2 (uart_in_range_spec (getUartIndex d) ltac:(lia)) Hr).
  unfold tables_consistent. cbn [snd factories devices uartAllocation serialPorts].
  rewrite !length_insert. do 4 (split; [assumption|]).
  intros i e Hi.
  destruct (decide (Z.to_nat id = i)) as [<-|Hne].
  - rewrite list_lookup_insert_eq in Hi; [discriminate|].
    apply lookup_lt_is_Some. eauto.
  - rewrite list_lookup_insert_ne in Hi by exact Hne.
    destruct (Hown _ _ Hi) as [Hr' Ha']. split; [exact Hr'|].
    rewrite list_lookup_insert_ne; [exact Ha'|].
    intros Eq. rewrite Eq in Ha. rewrite Ha in Ha'. injection Ha'. lia.
Qed.

Lemma consistent_on_device f id m :
  (forall d, getUartIndex (f d) = getUartIndex d) ->
  consistent m -> consistent (on_device f id m).
Proof.
  intros Hf Hc. unfold on_device, getDevice.
  destruct (Z.of_nat MAX_DEVICES <=? id); [exact Hc|].
  destruct (devices m !! Z.to_nat id) as [[d|]|] eqn:Hd; try exact Hc.
  pose proof Hc as (L1 & L2 & L3 & Hfs & Hown).
  unfold tables_consistent. cbn [factories devices uartAllocation serialPorts].
  rewrite !length_insert. do 4 (split; [assumption|]).
  intros i e Hi.
  destruct (decide (Z.to_nat id = i)) as [<-|Hne].
  - rewrite list_lookup_insert_eq in Hi by (apply lookup_lt_is_Some; eauto).
    injection Hi as <-. rewrite Hf. apply Hown. exact Hd.
  - rewrite list_lookup_insert_ne in Hi by exact Hne. apply Hown. exact Hi.
Qed.

Lemma consistent_run_op o m : legal_op o -> consistent m -> consistent (run_op m o).
Proof.
  destruct o; cbn [legal_op DevMgr.run_op]; intros Hl Hc.
  - apply consistent_registerFactory; assumption.
  - apply consistent_createDevice; assumption.
  - apply consistent_createDevice; assumption.
  - apply consistent_destroyDevice; assumption.
  - apply consistent_getSerialForUart; [lia | assumption].
  - apply consistent_on_device; [reflexivity | assumption].
  - apply consistent_on_device; [reflexivity | assumption].
Qed.

Lemma consistent_run_ops ops : forall m,
  Forall legal_op ops -> consistent m -> consistent (run_ops ops m).
Proof.
  induction ops as [|o ops IH]; intros m Hl Hc; [exact Hc|].
  apply Forall_cons in Hl as [Ho Hl]. cbn. apply IH; [exact Hl|].
  apply consistent_run_op; assumption.
Qed.

Lemma find_app_Some {A} (p : A -> bool) (l l' : list A) x :
  find p l = Some x -> find p (l ++ l') = Some x.
Proof.
  induction l as [|a l IH]; cbn; [discriminate|].
  destruct (p a); [trivial | exact IH].
Qed.

Lemma holds_uart_after_create ty u m :
  0 <= u < 256 -> consistent m ->
  snd (createDevice ty u m) <> INVALID_ID ->
  exists f d, create f u = Some d /\ isUartAvailable u m = true /\
              holds_uart ty f (snd (createDevice ty u m)) u (fst (createDevice ty u m)).
Proof.
  intros Hu Hc Hid.
  destruct (createDevice_cases ty u m Hu Hc) as [[E _] | Hok]; [contradiction|].
  destruct Hok as (f & slot & d & Eid & Hslot & Hfree & Hf & Hcr & Hr & Hal & Hav & Hser & Em).
  pose proof Hc as (L1 & L2 & L3 & Hfs & Hown).
  destruct (getSerialForUart_tables u m ltac:(lia) L3) as (Ef & Ed & _ & Ea & El & Hmono & Hw).
  exists f, d. split; [exact Hcr|]. split; [exact Hav|].
  rewrite Eid, Em. unfold holds_uart. cbn [devices serialPorts]. rewrite Nat2Z.id. split; [|split].
  - exists (setDeviceId (Z.of_nat slot) d). split.
    + rewrite Ed. apply list_lookup_insert_eq. rewrite L1. exact Hslot.
    + cbn. exact (findFactory_binds _ _ _ Hfs Hf u d Hcr).
  - apply Hw. exact Hser.
  - unfold findFactory in *. cbn [factories]. rewrite Ef. exact Hf.
Qed.

Lemma holds_uart_getSerialForUart ty f id u u' m :
  0 <= u' -> length (serialPorts m) = P ->
  holds_uart ty f id u m -> holds_uart ty f id u (snd (getSerialForUart u' m)).
Proof.
  intros Hu' L3 (Hd & Hw & Hf).
  destruct (getSerialForUart_tables u' m Hu' L3) as (Ef & Ed & _ & _ & _ & Hmono & _).
  unfold holds_uart, findFactory in *. rewrite Ef, Ed. auto.
Qed.

Lemma holds_uart_run_op ty f id u m o :
  0 <= id -> consistent m -> legal_op o -> o <> DestroyDevice id ->
  holds_uart ty f id u m -> holds_uart ty f id u (run_op m o).
Proof.
  intros Hid Hc Hl Hne Hh.
  pose proof Hc as (L1 & L2 & L3 & Hfs & Hown).
  assert (Hcreate : forall t u', 0 <= u' < 256 ->
            holds_uart ty f id u (fst (createDevice t u' m))).
  { intros t u' Hu'.
    destruct (createDevice_cases t u' m Hu' Hc) as [[_ [-> | ->]] | Hok].
    - exact Hh.
    - apply holds_uart_getSerialForUart; [lia | exact L3 | exact Hh].
    - destruct Hok as (g & slot & d & _ & Hslot & Hfree & _ & _ & _ & _ & _ & _ & ->).
      apply (holds_uart_getSerialForUart ty f id u u' m ltac:(lia) L3) in Hh.
      destruct (getSerialForUart_tables u' m ltac:(lia) L3) as (Ef & Ed & _).
      destruct Hh as ((d0 & Hd0 & Hu0) & Hw & Hf).
      unfold holds_uart, findFactory in *. cbn [devices serialPorts factories].
      split; [|split; assumption].
      exists d0. split; [|exact Hu0].
      rewrite list_lookup_insert_ne; [exact Hd0|].
      intros ->. rewrite Ed in Hd0. congruence. }
  destruct o; cbn [legal_op DevMgr.run_op] in *.
  - (* registerFactory *)
    unfold registerFactory.
    destruct (MAX_DEVICE_FACTORIES <=? length (factories m))%nat; [exact Hh|].
    destruct (existsb _ _); [exact Hh|].
    destruct Hh as (Hd & Hw & Hf). unfold holds_uart, findFactory in *.
    cbn [snd devices serialPorts factories]. split; [exact Hd|]. split; [exact Hw|].
    apply find_app_Some. exact Hf.
  - apply Hcreate. exact Hl.
  - apply Hcreate. exact Hl.
  - (* destroyDevice *)
    assert (deviceId <> id) by congruence.
    unfold DevMgr.destroyDevice.
    destruct (Z.of_nat MAX_DEVICES <=? deviceId); [exact Hh|].
    destruct (devices m !! Z.to_nat deviceId) as [[d|]|] eqn:Hd; try exact Hh.
    destruct Hh as ((d0 & Hd0 & Hu0) & Hw & Hf). unfold holds_uart, findFactory in *.
    cbn [snd devices serialPorts factories]. split; [|split; assumption].
    exists d0. split; [|exact Hu0]. rewrite list_lookup_insert_ne; [exact Hd0 | lia].
  - apply holds_uart_getSerialForUart; [lia | exact L3 | exact Hh].
  - (* begin *)
    unfold on_device, getDevice.
    destruct (Z.of_nat MAX_DEVICES <=? deviceId); [exact Hh|].
    destruct (devices m !! Z.to_nat deviceId) as [[d|]|] eqn:Hd; try exact Hh.
    destruct Hh as ((d0 & Hd0 & Hu0) & Hw & Hf). unfold holds_uart, findFactory in *.
    cbn [devices serialPorts factories]. split; [|split; assumption].
    destruct (decide (Z.to_nat deviceId = Z.to_nat id)) as [E|E].
    + rewrite E in *. exists (dev_begin d). split.
      * apply list_lookup_insert_eq. apply lookup_lt_is_Some. eauto.
      * cbn. congruence.
    + exists d0. split; [|exact Hu0]. rewrite list_lookup_insert_ne; assumption.
  - (* end *)
    unfold on_device, getDevice.
    destruct (Z.of_nat MAX_DEVICES <=? deviceId); [exact Hh|].
    destruct (devices m !! Z.to_nat deviceId) as [[d|]|] eqn:Hd; try exact Hh.
    destruct Hh as ((d0 & Hd0 & Hu0) & Hw & Hf). unfold holds_uart, findFactory in *.
    cbn [devices serialPorts factories]. split; [|split; assumption].
    destruct (decide (Z.to_nat deviceId = Z.to_nat id)) as [E|E].
    + rewrite E in *. exists (dev_end d). split.
      * apply list_lookup_insert_eq. apply lookup_lt_is_Some. eauto.
      * cbn. congruence.
    + exists d0. split; [|exact Hu0]. rewrite list_lookup_insert_ne; assumption.
Qed.

Lemma holds_uart_run_ops ty f id u ops : forall m,
  0 <= id -> consistent m -> Forall legal_op ops -> ~ In (DestroyDevice id) ops ->
  holds_uart ty f id u m -> holds_uart ty f id u (run_ops ops m).
Proof.
  induction ops as [|o ops IH]; intros m Hid Hc Hl Hni Hh; [exact Hh|].
  apply Forall_cons in Hl as [Ho Hl]. cbn.
  apply IH; [exact Hid | apply consistent_run_op; assumption | exact Hl | |].
  - intros Hin. apply Hni. right. exact Hin.
  - apply holds_uart_run_op; try assumption. intros ->. apply Hni. left. reflexivity.
Qed.

(** While a device holds UART [u], creating on [u] fails and changes nothing. *)
Lemma createDevice_busy ty f id u m ty' :
  0 <= id -> consistent m -> holds_uart ty f id u m ->
  createDevice ty' u m = (m, INVALID_ID).
Proof.
  intros Hid (L1 & L2 & L3 & Hfs & Hown) ((d & Hd & Hu) & _ & _).
  destruct (Hown _ _ Hd) as [Hr Ha]. rewrite Hu in Hr, Ha.
  assert (Hlt : (Z.to_nat id < MAX_DEVICES)%nat).
  { rewrite <- L1. apply lookup_lt_is_Some. eauto. }
  unfold DevMgr.createDevice, DevMgr.isUartAvailable.
  rewrite (proj2 (uart_in_range_spec u ltac:(lia)) Hr). cbn [negb].
  destruct (negb H1 && (u =? 1)); [reflexivity|].
  destruct (negb H2 && (u =? 2)); [reflexivity|].
  rewrite Ha. destruct (Z.eqb_spec (Z.of_nat (Z.to_nat id)) INVALID_ID) as [E|_]; [|reflexivity].
  unfold INVALID_ID, MAX_DEVICES in *. lia.
Qed.

(** Destroying the holder frees the UART: the same creation succeeds again. *)
Lemma createDevice_after_destroy ty f d0 id u m :
  0 <= id -> 0 <= u < 256 -> consistent m -> holds_uart ty f id u m ->
  create f u = Some d0 ->
  (negb H1 && (u =? 1)) = false -> (negb H2 && (u =? 2)) = false ->
  fst (destroyDevice id m) = true /\
  snd (createDevice ty u (snd (destroyDevice id m))) <> INVALID_ID.
Proof.
  intros Hid Hu Hc ((d & Hd & Hud) & Hw & Hf) Hcr Hp1 Hp2.
  pose proof Hc as (L1 & L2 & L3 & Hfs & Hown).
  destruct (Hown _ _ Hd) as [Hr Ha]. rewrite Hud in Hr, Ha.
  assert (Hlt : (Z.to_nat id < MAX_DEVICES)%nat).
  { rewrite <- L1. apply lookup_lt_is_Some. eauto. }
  unfold DevMgr.destroyDevice at 1 2.
  destruct (Z.leb_spec (Z.of_nat MAX_DEVICES) id) as [Hge|_]; [lia|].
  rewrite Hd.
  set (d' := if isRunning d then dev_end d else d).
  assert (Eu : getUartIndex d' = u) by (subst d'; destruct (isRunning d); exact Hud).
  rewrite Eu, (proj2 (uart_in_range_spec u ltac:(lia)) Hr). cbn [fst snd].
  split; [reflexivity|].
  unfold DevMgr.createDevice, DevMgr.isUartAvailable, findFreeDeviceSlot, DevMgr.getSerialForUart.
  cbn [uartAllocation devices factories serialPorts].
  rewrite (proj2 (uart_in_range_spec u ltac:(lia)) Hr). cbn [negb].
  rewrite Hp1, Hp2.
  rewrite list_lookup_insert_eq by lia. rewrite Z.eqb_refl. cbn [negb].
  unfold findFactory in *. cbn [factories]. rewrite Hf.
  destruct (first_free_spec (<[Z.to_nat id := None]> (devices m)) 0) as [[_ Hall]|(k & E & Hk)].
  { exfalso. rewrite Forall_forall in Hall.
    apply (Hall None); [|reflexivity].
    apply list_elem_of_lookup. exists (Z.to_nat id).
    apply list_lookup_insert_eq. lia. }
  rewrite E. cbn [Nat.add].
  assert (Hk8 : (k < MAX_DEVICES)%nat).
  { rewrite <- L1, <- (length_insert (devices m) (Z.to_nat id) None).
    apply lookup_lt_is_Some. eauto. }
  destruct (Z.eqb_spec (Z.of_nat k) INVALID_ID) as [Ek|Ek].
  { unfold INVALID_ID, MAX_DEVICES in *. lia. }
  rewrite Hw. cbn [negb]. rewrite Hcr. cbn [snd]. exact Ek.
Qed.

(** C2. UART exclusivity.  Starting from the empty manager, after any calls
    (with [uint8_t] arguments and factories that construct their device on
    the UART they are given) no two live devices own the same UART.  And once
    [createDevice(type, u)] has succeeded, as long as that device is not
    destroyed every [createDevice(anyType, u)] returns the invalid id 0xFF
    and leaves the manager as it was; destroying the device succeeds, and
    after it the same [createDevice(type, u)] succeeds again. *)
Theorem uart_exclusive_ownership :
  (forall ops, Forall legal_op ops -> uart_exclusive (run_ops ops (empty P))) /\
  (forall ops1 ty u ops2,
     Forall legal_op ops1 -> Forall legal_op ops2 -> 0 <= u < 256 ->
     let r := createDevice ty u (run_ops ops1 (empty P)) in
     snd r <> INVALID_ID ->
     ~ In (DestroyDevice (snd r)) ops2 ->
     let m2 := run_ops ops2 (fst r) in
     uart_exclusive m2 /\
     (forall ty', createDevice ty' u m2 = (m2, INVALID_ID)) /\
     fst (destroyDevice (snd r) m2) = true /\
     snd (createDevice ty u (snd (destroyDevice (snd r) m2))) <> INVALID_ID).
Proof.
  split.
  - intros ops Hl. apply consistent_exclusive, consistent_run_ops; [exact Hl|].
    apply consistent_empty.
  - intros ops1 ty u ops2 Hl1 Hl2 Hu r Hok Hni m2.
    assert (Hc0 : consistent (run_ops ops1 (empty P))).
    { apply consistent_run_ops; [exact Hl1 | apply consistent_empty]. }
    assert (Hc1 : consistent (fst r)) by (apply consistent_createDevice; assumption).
    destruct (holds_uart_after_create ty u _ Hu Hc0 Hok) as (f & d0 & Hcr & Hav & Hh).
    fold r in Hh.
    assert (Hid : 0 <= snd r).
    { destruct (createDevice_cases ty u _ Hu Hc0) as [[E _] | (f' & slot & d' & E & _)];
        fold r in E; [contradiction | lia]. }
    assert (Hc2 : consistent m2) by (apply consistent_run_ops; assumption).
    assert (Hh2 : holds_uart ty f (snd r) u m2) by (apply holds_uart_run_ops; assumption).
    split; [apply consistent_exclusive; exact Hc2|].
    split; [intros ty'; eapply createDevice_busy; eassumption|].
    unfold DevMgr.isUartAvailable in Hav.
    destruct (negb (uart_in_range P u)); [discriminate|].
    destruct (negb H1 && (u =? 1)) eqn:Hp1; [discriminate|].
    destruct (negb H2 && (u =? 2)) eqn:Hp2; [discriminate|].
    eapply createDevice_after_destroy; eassumption.
Qed.

End Manager.

Lemma firmware_factories_bind_uart :
  Ref.binds_uart DevMgr.YaesuDeviceFactory /\ Ref.binds_uart DevMgr.G5500DeviceFactory /\
  Ref.binds_uart DevMgr.NMEAGPSDeviceFactory.
Proof. repeat split; intros u d [= <-]; reflexivity. Qed.

Lemma uart_exclusive_ownership_witness :
  let ops1 := [DevMgr.RegisterFactory DevMgr.YaesuDeviceFactory;
               DevMgr.RegisterFactory DevMgr.G5500DeviceFactory;
               DevMgr.RegisterFactory DevMgr.NMEAGPSDeviceFactory] in
  let ops2 := [DevMgr.CreateDevice (CLib.str "rotator") 2; DevMgr.Begin 0;
               DevMgr.DestroyDevice 1] in
  let r := DevMgr.createDevice 2 true true (CLib.str "yaesu") 1
             (DevMgr.run_ops 2 true true ops1 (DevMgr.empty 2)) in
  let m2 := DevMgr.run_ops 2 true true ops2 (fst r) in
  Forall Ref.legal_op ops1 /\ Forall Ref.legal_op ops2 /\ 0 <= 1 < 256 /\
  snd r <> DevMgr.INVALID_ID /\ ~ In (DevMgr.DestroyDevice (snd r)) ops2 /\
  DevMgr.createDevice 2 true true (CLib.str "nmea-gps") 1 m2 = (m2, DevMgr.INVALID_ID).
Proof.
  cbv zeta.
  assert (Hl1 : Forall Ref.legal_op
                  [DevMgr.RegisterFactory DevMgr.YaesuDeviceFactory;
                   DevMgr.RegisterFactory DevMgr.G5500DeviceFactory;
                   DevMgr.RegisterFactory DevMgr.NMEAGPSDeviceFactory]).
  { repeat constructor; intros u d [= <-]; reflexivity. }
  assert (Hl2 : Forall Ref.legal_op
                  [DevMgr.CreateDevice (CLib.str "rotator") 2; DevMgr.Begin 0;
                   DevMgr.DestroyDevice 1]).
  { repeat constructor; cbn; lia. }
  assert (Hok : snd (DevMgr.createDevice 2 true true (CLib.str "yaesu") 1
                       (DevMgr.run_ops 2 true true
                          [DevMgr.RegisterFactory DevMgr.YaesuDeviceFactory;
                           DevMgr.RegisterFactory DevMgr.G5500DeviceFactory;
                           DevMgr.RegisterFactory DevMgr.NMEAGPSDeviceFactory]
                          (DevMgr.empty 2))) <> DevMgr.INVALID_ID).
  { vm_compute. discriminate. }
  assert (Hni : ~ In (DevMgr.DestroyDevice
                        (snd (DevMgr.createDevice 2 true true (CLib.str "yaesu") 1
                                (DevMgr.run_ops 2 true true
                                   [DevMgr.RegisterFactory DevMgr.YaesuDeviceFactory;
                                    DevMgr.RegisterFactory DevMgr.G5500DeviceFactory;
                                    DevMgr.RegisterFactory DevMgr.NMEAGPSDeviceFactory]
                                   (DevMgr.empty 2)))))
                   [DevMgr.CreateDevice (CLib.str "rotator") 2; DevMgr.Begin 0;
                    DevMgr.DestroyDevice 1]).
  { intros [H|[H|[H|[]]]]; vm_compute in H; discriminate. }
  split; [exact Hl1|]. split; [exact Hl2|]. split; [lia|].
  split; [exact Hok|]. split; [exact Hni|].
  assert (Hu : 0 <= 1 < 256) by lia.
  exact (proj1 (proj2 (proj2 (uart_exclusive_ownership 2 true true) _ _ 1 _
                               Hl1 Hl2 Hu Hok Hni))
               (CLib.str "nmea-gps")).
Defined.

(** *** Factory registration *)

(** Registration fails, leaving the registry as it was, when the registry
    is full and when a factory of exactly the same type name is there. *)
Lemma registerFactory_full_or_same_name f m :
  (DevMgr.MAX_DEVICE_FACTORIES <= length (DevMgr.factories m))%nat \/
  (exists g, In g (DevMgr.factories m) /\ DevMgr.getTypeName g = DevMgr.getTypeName f) ->
  DevMgr.registerFactory f m = (false, m).
Proof.
  intros H. unfold DevMgr.registerFactory.
  destruct (Nat.leb_spec DevMgr.MAX_DEVICE_FACTORIES (length (DevMgr.factories m)));
    [reflexivity|].
  destruct H as [H | (g & Hin & Hname)]; [lia|].
  assert (E : existsb (fun f0 => CLib.strcmp_eq (DevMgr.getTypeName f0) (DevMgr.getTypeName f))
                      (DevMgr.factories m) = true).
  { apply existsb_exists. exists g. split; [exact Hin|].
    unfold CLib.strcmp_eq. apply bool_decide_eq_true. exact Hname. }
  rewrite E. reflexivity.
Qed.

(** C9.  The duplicate check of [registerFactory] compares type names with
    [strcmp], while [findFactory] looks them up with [strcasecmp].  With
    "yaesu" registered, a factory named "YAESU" has an equal name under
    case-insensitive comparison, yet its registration returns true and
    adds it; the new factory can never be found, every spelling of the name
    resolves to the first one. *)
Theorem registerFactory_accepts_name_differing_in_case :
  let m := snd (DevMgr.registerFactory DevMgr.YaesuDeviceFactory (DevMgr.empty 2)) in
  let shadow := DevMgr.mkFactory (CLib.str "YAESU") (DevMgr.create DevMgr.G5500DeviceFactory) in
  let r := DevMgr.registerFactory shadow m in
  CLib.strcasecmp_eq (DevMgr.getTypeName DevMgr.YaesuDeviceFactory)
                     (DevMgr.getTypeName shadow) = true /\
  fst r = true /\
  map DevMgr.getTypeName (DevMgr.factories (snd r)) = [CLib.str "yaesu"; CLib.str "YAESU"] /\
  option_map DevMgr.getTypeName (DevMgr.findFactory (CLib.str "YAESU") (snd r))
  = Some (CLib.str "yaesu").
Proof. cbv zeta. repeat split; vm_compute; reflexivity. Qed.

(** ** Facts about the C library model *)

Section CLibFacts.
Import CLib Ref.

Lemma isdigit_spec c : isdigit c = true <-> 48 <= c <= 57.
Proof. unfold isdigit. rewrite andb_true_iff, !Z.leb_le. reflexivity. Qed.

Lemma fold_decimal_snoc ds c acc :
  fold_left (fun a x => a * 10 + (x - 48)) (ds ++ [c]) acc
  = fold_left (fun a x => a * 10 + (x - 48)) ds acc * 10 + (c - 48).
Proof. rewrite fold_left_app. reflexivity. Qed.

Lemma decimal_value_snoc ds c : decimal_value (ds ++ [c]) = decimal_value ds * 10 + (c - 48).
Proof. apply fold_decimal_snoc. Qed.

Lemma decimal_value_nonneg ds : all_digits ds -> 0 <= decimal_value ds.
Proof.
  induction ds as [|c ds IH] using rev_ind; intros Hd; [cbn; lia|].
  apply Forall_app in Hd as [Hds Hc]. apply Forall_cons in Hc as [Hc _].
  apply isdigit_spec in Hc. rewrite decimal_value_snoc. specialize (IH Hds). lia.
Qed.

(** [scan_digits] reads a string of digits to its end. *)
Lemma scan_digits_all ds : forall acc n rest,
  all_digits ds ->
  match rest with c :: _ => isdigit c = false | [] => True end ->
  scan_digits acc n (ds ++ rest)
  = (fold_left (fun a x => a * 10 + (x - 48)) ds acc, (n + length ds)%nat, rest).
Proof.
  induction ds as [|c ds IH]; intros acc n rest Hd Hrest.
  - cbn. rewrite Nat.add_0_r. destruct rest as [|c r]; [reflexivity|]. cbn. rewrite Hrest. reflexivity.
  - apply Forall_cons in Hd as [Hc Hds]. cbn. rewrite Hc.
    rewrite IH by assumption. f_equal. f_equal. cbn. lia.
Qed.

Lemma skip_spaces_digit c s : isdigit c = true -> skip_spaces (c :: s) = c :: s.
Proof.
  intros Hc. apply isdigit_spec in Hc. cbn. unfold isspace.
  destruct (Z.eqb_spec c 32); [lia|]. destruct (Z.leb_spec 9 c), (Z.leb_spec c 13); try lia; reflexivity.
Qed.

Lemma scan_sign_digit c s : isdigit c = true -> scan_sign (c :: s) = (false, c :: s).
Proof.
  intros Hc. apply isdigit_spec in Hc. unfold scan_sign.
  destruct c as [|q|q]; try lia.
  repeat (destruct q as [q|q|]; try reflexivity; try lia).
Qed.

(** [strtoul] on a non-empty string of digits followed by a non-digit (or
    the end). *)
Lemma strtoul_digits ds rest :
  all_digits ds -> ds <> [] ->
  match rest with c :: _ => isdigit c = false | [] => True end ->
  strtoul (ds ++ rest)
  = (if decimal_value ds >? ULONG_MAX then ULONG_MAX else decimal_value ds, rest).
Proof.
  intros Hd Hne Hrest. destruct ds as [|c ds]; [contradiction|].
  pose proof (Forall_inv Hd) as Hc. cbn beta in Hc.
  unfold strtoul. rewrite <- app_comm_cons, skip_spaces_digit, scan_sign_digit by exact Hc.
  rewrite app_comm_cons, scan_digits_all by assumption.
  fold (decimal_value (c :: ds)). cbn [length Nat.add].
  destruct (decimal_value (c :: ds) >? ULONG_MAX); reflexivity.
Qed.

Lemma strtol_digits ds rest :
  all_digits ds -> ds <> [] ->
  match rest with c :: _ => isdigit c = false | [] => True end ->
  strtol (ds ++ rest)
  = (if decimal_value ds >? LONG_MAX then LONG_MAX else decimal_value ds, rest).
Proof.
  intros Hd Hne Hrest. destruct ds as [|c ds]; [contradiction|].
  pose proof (Forall_inv Hd) as Hc. cbn beta in Hc.
  pose proof (decimal_value_nonneg _ Hd) as Hnn.
  unfold strtol. rewrite <- app_comm_cons, skip_spaces_digit, scan_sign_digit by exact Hc.
  rewrite app_comm_cons, scan_digits_all by assumption.
  fold (decimal_value (c :: ds)). cbn [length Nat.add].
  destruct (Z.gtb_spec (decimal_value (c :: ds)) LONG_MAX); [reflexivity|].
  destruct (Z.ltb_spec (decimal_value (c :: ds)) LONG_MIN); [unfold LONG_MIN in *; lia | reflexivity].
Qed.

(** [strtol] and [strtoul] leave [endptr] at the start of the string exactly
    when they convert nothing: after a conversion the rest is shorter. *)
Lemma scan_digits_length s : forall acc n,
  let '(_, n', rest) := scan_digits acc n s in
  (length rest + n' = length s + n)%nat.
Proof.
  induction s as [|c r IH]; intros acc n; cbn [scan_digits]; [reflexivity|].
  destruct (isdigit c); [|reflexivity].
  specialize (IH (acc * 10 + (c - 48)) (S n)).
  destruct (scan_digits (acc * 10 + (c - 48)) (S n) r) as [[v n'] rest]. cbn [length]. lia.
Qed.

Lemma skip_spaces_length s : (length (skip_spaces s) <= length s)%nat.
Proof.
  induction s as [|c r IH]; cbn [skip_spaces]; [lia|].
  destruct (isspace c); cbn [length]; lia.
Qed.

Lemma scan_sign_length s : (length (snd (scan_sign s)) <= length s)%nat.
Proof.
  unfold scan_sign. destruct s as [|c r]; [cbn; lia|].
  destruct c as [|q|q]; cbn [snd length]; try lia.
  repeat (destruct q as [q|q|]; cbn [snd length]; try lia).
Qed.

Lemma strtol_endptr s :
  snd (strtol s) = s <->
  snd (fst (scan_digits 0 O (snd (scan_sign (skip_spaces s))))) = O.
Proof.
  unfold strtol. pose proof (skip_spaces_length s) as Hsp.
  pose proof (scan_sign_length (skip_spaces s)) as Hsg.
  destruct (scan_sign (skip_spaces s)) as [neg t]. cbn [snd] in *.
  pose proof (scan_digits_length t 0 O) as Hd.
  destruct (scan_digits 0 O t) as [[v n] rest]. cbn [fst snd].
  destruct n as [|n]; cbn [snd]; split; intros H; try reflexivity; try discriminate.
  exfalso. rewrite H in Hd. lia.
Qed.

(** *** Printing inverts reading *)

Lemma zero_pad_snoc w s c : zero_pad (S w) (s ++ [c]) = zero_pad w s ++ [c].
Proof.
  unfold zero_pad. rewrite length_app. cbn [length].
  replace (S w - (length s + 1))%nat with (w - length s)%nat by lia.
  rewrite app_assoc. reflexivity.
Qed.

Lemma replicate_snoc {A} n (x : A) : replicate n x ++ [x] = replicate (S n) x.
Proof. induction n as [|n IH]; cbn; [reflexivity | rewrite IH; reflexivity]. Qed.

(** With enough fuel, the digits of the value of a digit string, padded
    with zeros to its length, are the string itself. *)
Lemma dec_digits_aux_decimal_value ds :
  all_digits ds -> ds <> [] ->
  forall fuel, decimal_value ds < 2 ^ (Z.of_nat fuel + 1) ->
  zero_pad (length ds) (dec_digits_aux fuel (decimal_value ds)) = ds.
Proof.
  induction ds as [|c ds IH] using rev_ind; intros Hd Hne fuel Hfuel; [contradiction|].
  apply Forall_app in Hd as [Hds Hc]. apply Forall_cons in Hc as [Hc _].
  apply isdigit_spec in Hc.
  pose proof (decimal_value_nonneg _ Hds) as Hnn.
  rewrite decimal_value_snoc in *. set (v := decimal_value ds) in *.
  rewrite length_app. cbn [length]. rewrite Nat.add_1_r.
  assert (Hmod : (v * 10 + (c - 48)) mod 10 = c - 48).
  { rewrite Z.add_comm, Z.mod_add by lia. apply Z.mod_small. lia. }
  assert (Hdiv : (v * 10 + (c - 48)) / 10 = v).
  { rewrite Z.add_comm, Z.div_add by lia. rewrite Z.div_small by lia. lia. }
  assert (Hsmall : v * 10 + (c - 48) < 10 ->
                   zero_pad (S (length ds)) [48 + (v * 10 + (c - 48))] = ds ++ [c]).
  { intros Hlt. assert (v = 0) by lia. replace (48 + (v * 10 + (c - 48))) with c by lia.
    change [c] with ([] ++ [c]). rewrite zero_pad_snoc. f_equal.
    destruct ds as [|c0 ds0]; [reflexivity|].
    specialize (IH Hds ltac:(discriminate) O). fold v in IH.
    etransitivity; [|apply IH; rewrite H; cbn; lia].
    rewrite H. cbn [dec_digits_aux].
    unfold zero_pad. cbn [length]. rewrite Nat.sub_0_r.
    replace (S (length ds0) - 1)%nat with (length ds0) by lia.
    change [48 + 0 mod 10] with [48]. rewrite replicate_snoc, app_nil_r. reflexivity. }
  destruct fuel as [|k]; cbn [dec_digits_aux].
  - change (2 ^ (Z.of_nat 0 + 1)) with 2 in Hfuel.
    rewrite Hmod. replace (c - 48) with (v * 10 + (c - 48)) by lia.
    apply Hsmall. lia.
  - destruct (Z.ltb_spec (v * 10 + (c - 48)) 10) as [Hlt|Hge]; [apply Hsmall; exact Hlt|].
    rewrite Hmod, Hdiv. replace (48 + (c - 48)) with c by lia.
    rewrite zero_pad_snoc. f_equal.
    assert (ds <> []) by (intros ->; subst v; cbn in Hge; lia).
    apply IH; [exact Hds | assumption |].
    replace (Z.of_nat (S k) + 1) with (Z.succ (Z.of_nat k + 1)) in Hfuel by lia.
    rewrite Z.pow_succ_r in Hfuel by lia. lia.
Qed.

Lemma log2_fuel_enough n : 0 <= n -> n < 2 ^ (Z.of_nat (Z.to_nat (Z.log2 n)) + 1).
Proof.
  intros Hn. pose proof (Z.log2_nonneg n). rewrite Z2Nat.id by assumption.
  destruct (Z.eq_dec n 0) as [->|Hnz]; [cbn; lia|].
  replace (Z.log2 n + 1) with (Z.succ (Z.log2 n)) by lia.
  apply Z.log2_spec. lia.
Qed.

(** ["%0<n>lu"] of the value of an [n]-digit string prints that string. *)
Lemma fmt_u_decimal_value ds :
  all_digits ds -> ds <> [] -> fmt_u (length ds) (decimal_value ds) = ds.
Proof.
  intros Hd Hne. unfold fmt_u, dec_digits.
  apply dec_digits_aux_decimal_value; [assumption | assumption |].
  apply log2_fuel_enough, decimal_value_nonneg, Hd.
Qed.

(** The nine digits of a number below 10^9 denote it. *)
Lemma nine_digits_spec f :
  0 <= f < 10 ^ 9 ->
  length (nine_digits f) = 9%nat /\ all_digits (nine_digits f) /\
  decimal_value (nine_digits f) = f.
Proof.
  intros Hf. split; [reflexivity|]. split.
  - unfold nine_digits. apply Forall_map, Forall_forall. intros i _. cbn beta.
    apply isdigit_spec. pose proof (Z.mod_pos_bound (f / 10 ^ i) 10 ltac:(lia)). lia.
  - unfold nine_digits, decimal_value. cbn [map fold_left].
    assert (Hstep : forall i, 0 <= i -> f / 10 ^ i = 10 * (f / 10 ^ (i + 1)) + (f / 10 ^ i) mod 10).
    { intros i Hi. rewrite Z.pow_add_r by lia. change (10 ^ 1) with 10.
      rewrite <- Z.div_div by (try apply Z.pow_pos_nonneg; lia).
      apply Z.div_mod. lia. }
    pose proof (Hstep 0 ltac:(lia)) as H0. pose proof (Hstep 1 ltac:(lia)) as H1.
    pose proof (Hstep 2 ltac:(lia)) as H2. pose proof (Hstep 3 ltac:(lia)) as H3.
    pose proof (Hstep 4 ltac:(lia)) as H4. pose proof (Hstep 5 ltac:(lia)) as H5.
    pose proof (Hstep 6 ltac:(lia)) as H6. pose proof (Hstep 7 ltac:(lia)) as H7.
    pose proof (Hstep 8 ltac:(lia)) as H8.
    assert (H9 : f / 10 ^ 9 = 0) by (apply Z.div_small; lia).
    change (0 + 1) with 1 in *. change (1 + 1) with 2 in *. change (2 + 1) with 3 in *.
    change (3 + 1) with 4 in *. change (4 + 1) with 5 in *. change (5 + 1) with 6 in *.
    change (6 + 1) with 7 in *. change (7 + 1) with 8 in *. change (8 + 1) with 9 in *.
    change (10 ^ 0) with 1 in *. rewrite Z.div_1_r in *.
    lia.
Qed.

End CLibFacts.

(** ** Yaesu CAT parser *)

Section CAT.
Import CLib Yaesu Ref.

Lemma update_app a b p : update (a ++ b) p = update b (update a p).
Proof. apply fold_left_app. Qed.

Lemma update_char_buffered c p :
  buffered_as_is c -> (length (buffer p) < CAT_BUFFER_SIZE - 1)%nat ->
  update_char c p = set_buffer (buffer p ++ [c]) p.
Proof.
  intros (Hr & Ht & Hl) Hlen. unfold update_char.
  destruct (Z.eqb_spec c CAT_TERMINATOR); [contradiction|].
  destruct (Z.ltb_spec c 32); [lia|].
  destruct (Nat.ltb_spec (length (buffer p)) (CAT_BUFFER_SIZE - 1)); [|lia].
  unfold toupper, to_uint8.
  destruct (Z.leb_spec 97 c), (Z.leb_spec c 122); cbn [andb]; try lia;
    rewrite Z.mod_small by lia; reflexivity.
Qed.

Lemma update_buffered cs : forall p,
  Forall buffered_as_is cs ->
  (length (buffer p) + length cs <= CAT_BUFFER_SIZE - 1)%nat ->
  update cs p = set_buffer (buffer p ++ cs) p.
Proof.
  unfold CAT_BUFFER_SIZE.
  induction cs as [|c cs IH]; intros p Hcs Hlen.
  - cbn. rewrite app_nil_r. destruct p; reflexivity.
  - apply Forall_cons in Hcs as [Hc Hcs]. cbn [length] in Hlen.
    change (update (c :: cs) p) with (update cs (update_char c p)).
    rewrite update_char_buffered by (assumption || (unfold CAT_BUFFER_SIZE; lia)).
    rewrite IH; cbn [buffer set_buffer]; [|assumption|rewrite length_app; cbn; lia].
    rewrite <- app_assoc. reflexivity.
Qed.

Lemma digit_buffered_as_is c : isdigit c = true -> buffered_as_is c.
Proof. intros H. apply isdigit_spec in H. unfold buffered_as_is, CAT_TERMINATOR. lia. Qed.

(** Feeding a whole command: two command letters, digits, the terminator. *)
Lemma update_command c0 c1 ds p :
  buffer p = [] -> buffered_as_is c0 -> buffered_as_is c1 -> all_digits ds ->
  (length ds <= 60)%nat ->
  update ([c0; c1] ++ ds ++ [CAT_TERMINATOR]) p
  = set_buffer [] (processCommand (set_buffer (c0 :: c1 :: ds) p)).
Proof.
  intros Hb H0 H1 Hds Hlen.
  rewrite app_assoc, update_app.
  rewrite (update_buffered ([c0; c1] ++ ds)).
  - rewrite Hb. cbn [app]. unfold update at 1. cbn [fold_left]. unfold update_char.
    rewrite Z.eqb_refl. cbn [buffer set_buffer]. reflexivity.
  - apply Forall_app; split;
      [constructor; [exact H0 | constructor; [exact H1 | constructor]]|].
    eapply Forall_impl; [exact Hds | intros; apply digit_buffered_as_is; assumption].
  - rewrite Hb, length_app. cbn. unfold CAT_BUFFER_SIZE. lia.
Qed.

Lemma parseFrequency_digits ds :
  all_digits ds -> ds <> [] ->
  parseFrequency ds =
    if (decimal_value ds <? FREQ_MIN) || (decimal_value ds >? FREQ_MAX) then None
    else Some (decimal_value ds).
Proof.
  intros Hd Hne. unfold parseFrequency.
  rewrite <- (app_nil_r ds) at 1. rewrite strtoul_digits by (assumption || exact I).
  destruct (Z.gtb_spec (decimal_value ds) ULONG_MAX) as [Hbig|_]; [|reflexivity].
  destruct (Z.gtb_spec (decimal_value ds) FREQ_MAX) as [_|Hle];
    [|unfold ULONG_MAX, FREQ_MAX in *; lia].
  destruct (decimal_value ds <? FREQ_MIN); reflexivity.
Qed.

Lemma processCommand_FA params p :
  processCommand (set_buffer (70 :: 65 :: params) p)
  = handleFA params (set_buffer (70 :: 65 :: params) p).
Proof. reflexivity. Qed.

(** An FA write with a digit string in range sets VFO-A and answers nothing. *)
Lemma fa_write_digits ds p :
  buffer p = [] -> all_digits ds -> ds <> [] -> (length ds <= 60)%nat ->
  FREQ_MIN <= decimal_value ds <= FREQ_MAX ->
  update (str "FA" ++ ds ++ str ";") p
  = mkCATParser (set_freqVfoA (decimal_value ds) (state p)) (serial_out p) [].
Proof.
  intros Hb Hd Hne Hlen Hr.
  change (str "FA") with [70; 65]. change (str ";") with [CAT_TERMINATOR].
  rewrite update_command; try assumption; try (unfold buffered_as_is, CAT_TERMINATOR; lia).
  rewrite processCommand_FA. unfold handleFA.
  rewrite parseFrequency_digits by assumption.
  destruct (Z.ltb_spec (decimal_value ds) FREQ_MIN); [lia|].
  destruct (Z.gtb_spec (decimal_value ds) FREQ_MAX); [lia|].
  destruct ds; [contradiction | reflexivity].
Qed.

(** An FA read answers ["FA"], the frequency with ["%09lu"], and [;]. *)
Lemma fa_read p :
  buffer p = [] ->
  update (str "FA;") p
  = mkCATParser (state p)
      (serial_out p ++ snprintf 16 (str "FA" ++ fmt_u 9 (freqVfoA (state p))) ++ str ";") [].
Proof.
  intros Hb.
  change (str "FA;") with ([70; 65] ++ [] ++ [CAT_TERMINATOR]).
  rewrite update_command; try assumption; try (unfold buffered_as_is, CAT_TERMINATOR; lia);
    [|constructor|cbn; lia].
  reflexivity.
Qed.

(** The round trip for any nine-digit string whose value is in range. *)
Lemma fa_roundtrip_digits (p : CATParser) (ds : cstring) (f : Z) :
  buffer p = [] ->
  length ds = 9%nat -> all_digits ds -> decimal_value ds = f ->
  FREQ_MIN <= f <= FREQ_MAX ->
  let p1 := update (str "FA" ++ ds ++ str ";") p in
  let p2 := update (str "FA;") p1 in
  fmt_u 9 f = ds /\
  serial_out p1 = serial_out p /\
  freqVfoA (state p1) = f /\
  serial_out p2 = serial_out p1 ++ str "FA" ++ ds ++ str ";".
Proof.
  intros Hb Hlen Hd Hv Hr p1 p2.
  assert (Hne : ds <> []) by (intros ->; discriminate).
  assert (Hfmt : fmt_u 9 f = ds).
  { rewrite <- Hv, <- Hlen. apply fmt_u_decimal_value; assumption. }
  assert (E1 : p1 = mkCATParser (set_freqVfoA f (state p)) (serial_out p) []).
  { subst p1. rewrite fa_write_digits; try assumption; [rewrite Hv; reflexivity | lia | lia]. }
  split; [exact Hfmt|]. rewrite E1. cbn [serial_out state freqVfoA set_freqVfoA].
  split; [reflexivity|]. split; [reflexivity|].
  subst p2. rewrite E1, fa_read by reflexivity.
  cbn [serial_out state freqVfoA set_freqVfoA]. rewrite Hfmt.
  unfold snprintf. rewrite take_ge; [reflexivity|].
  rewrite length_app, Hlen. cbn. lia.
Qed.

(** C1. FA write-then-read round trip.  For every frequency [f] with
    FREQ_MIN <= f <= FREQ_MAX, feeding a parser whose command buffer is empty
    the command [FA], the 9-digit zero-padded decimal representation of [f]
    and [;] writes nothing to the serial port and sets VFO-A to [f]; feeding
    [FA;] next writes exactly [FA], the same nine digits and [;].  The nine
    digits are also what ["%09lu"] prints for [f]. *)
Theorem fa_write_then_read_roundtrip (p : CATParser) (f : Z) :
  buffer p = [] ->
  FREQ_MIN <= f <= FREQ_MAX ->
  let p1 := update (str "FA" ++ nine_digits f ++ str ";") p in
  let p2 := update (str "FA;") p1 in
  fmt_u 9 f = nine_digits f /\
  serial_out p1 = serial_out p /\
  freqVfoA (state p1) = f /\
  serial_out p2 = serial_out p1 ++ str "FA" ++ nine_digits f ++ str ";".
Proof.
  intros Hb Hr.
  destruct (nine_digits_spec f) as (Hlen & Hd & Hv);
    [unfold FREQ_MIN, FREQ_MAX in Hr; lia|].
  apply fa_roundtrip_digits; assumption.
Qed.

Lemma fa_write_then_read_roundtrip_witness :
  let p := mkCATParser reset [] [] in
  buffer p = [] /\ FREQ_MIN <= 7074000 <= FREQ_MAX /\
  nine_digits 7074000 = str "007074000" /\
  serial_out (update (str "FA;") (update (str "FA" ++ str "007074000" ++ str ";") p))
  = str "FA007074000;".
Proof.
  cbv zeta.
  assert (Hr : FREQ_MIN <= 7074000 <= FREQ_MAX) by (unfold FREQ_MIN, FREQ_MAX; lia).
  split; [reflexivity|]. split; [exact Hr|]. split; [reflexivity|].
  exact (proj2 (proj2 (proj2 (fa_write_then_read_roundtrip (mkCATParser reset [] [])
                                7074000 eq_refl Hr)))).
Defined.

(** *** Rejected and clamped writes *)

(** A digit string whose value is out of range is ignored. *)
Lemma fa_write_out_of_range_ignored ds p :
  all_digits ds -> ds <> [] ->
  decimal_value ds < FREQ_MIN \/ FREQ_MAX < decimal_value ds ->
  handleFA ds p = p.
Proof.
  intros Hd Hne Hr. unfold handleFA. rewrite parseFrequency_digits by assumption.
  destruct (Z.ltb_spec (decimal_value ds) FREQ_MIN), (Z.gtb_spec (decimal_value ds) FREQ_MAX);
    cbn [orb]; try lia; destruct ds; try contradiction; reflexivity.
Qed.

(** Digits followed by anything else are ignored. *)
Lemma fa_write_trailing_text_ignored ds c rest p :
  all_digits ds -> ds <> [] -> isdigit c = false -> c <> CAT_TERMINATOR ->
  handleFA (ds ++ c :: rest) p = p.
Proof.
  intros Hd Hne Hc Ht. unfold handleFA, parseFrequency.
  rewrite strtoul_digits by assumption.
  destruct (Z.eqb_spec c CAT_TERMINATOR); [contradiction|]. cbn [negb].
  destruct ds; [contradiction | reflexivity].
Qed.

(** A parameter that does not start with a digit, a blank or a sign is
    ignored. *)
Lemma fa_write_no_number_ignored c rest p :
  isdigit c = false -> isspace c = false -> c <> 43 -> c <> 45 -> c <> CAT_TERMINATOR ->
  handleFA (c :: rest) p = p.
Proof.
  intros Hd Hs Hp Hm Ht. unfold handleFA, parseFrequency, strtoul.
  cbn [skip_spaces]. rewrite Hs.
  assert (Hsign : scan_sign (c :: rest) = (false, c :: rest)).
  { unfold scan_sign. destruct c as [|q|q]; try reflexivity.
    repeat (destruct q as [q|q|]; try reflexivity; try lia). }
  rewrite Hsign. cbn [scan_digits]. rewrite Hd.
  destruct (Z.eqb_spec c CAT_TERMINATOR); [contradiction | reflexivity].
Qed.

Example fa_write_below_minimum_ignored :
  let p := mkCATParser reset [] [] in
  update (str "FA000029999;") p = p.
Proof. reflexivity. Qed.

Lemma constrain_range amt low high : low <= high -> low <= constrain amt low high <= high.
Proof.
  intros H. unfold constrain.
  destruct (Z.ltb_spec amt low); [lia|]. destruct (Z.gtb_spec amt high); lia.
Qed.

(** AG, RG and SQ writes clamp the value into the range of the setting. *)
Lemma gain_writes_clamp params p :
  (4 <= length params)%nat ->
  state (handleAG params p) = set_afGain (constrain (atoi (drop 1 params)) 0 255) (state p) /\
  state (handleRG params p) = set_rfGain (constrain (atoi (drop 1 params)) 0 255) (state p) /\
  state (handleSQ params p) = set_squelch (constrain (atoi (drop 1 params)) 0 100) (state p) /\
  0 <= afGain (state (handleAG params p)) <= 255 /\
  0 <= rfGain (state (handleRG params p)) <= 255 /\
  0 <= squelch (state (handleSQ params p)) <= 100.
Proof.
  intros Hlen. unfold handleAG, handleRG, handleSQ.
  destruct (Nat.leb_spec (length params) 1); [lia|].
  destruct (Nat.leb_spec 4 (length params)); [|lia].
  cbn [state with_state afGain rfGain squelch set_afGain set_rfGain set_squelch].
  repeat split; apply constrain_range; lia.
Qed.

Example gain_writes_clamp_examples :
  let p := mkCATParser reset [] [] in
  afGain (state (update (str "AG0999;") p)) = 255 /\
  rfGain (state (update (str "RG0-12;") p)) = 0 /\
  squelch (state (update (str "SQ0101;") p)) = 100.
Proof. repeat split; reflexivity. Qed.

(** C8. The frequency parser accepts parameter strings that are not entirely
    numeric: with VFO-A at 14074000 Hz, the writes [FA+07074000;] and
    [FA 07074000;] set it to 7074000 Hz, and [FA-4294937296;] sets it to
    30000 Hz, because [strtoul] steps over leading blanks and a sign (and
    negates in the unsigned type); only text after the digits is checked. *)
Theorem fa_write_accepts_sign_and_blank_prefix :
  let p := mkCATParser reset [] [] in
  freqVfoA (state p) = 14074000 /\
  ~ all_digits (str "+07074000") /\
  freqVfoA (state (update (str "FA+07074000;") p)) = 7074000 /\
  freqVfoA (state (update (str "FA 07074000;") p)) = 7074000 /\
  freqVfoA (state (update (str "FA-4294937296;") p)) = 30000.
Proof.
  cbv zeta. split; [reflexivity|]. split; [|repeat split; reflexivity].
  intros H. apply Forall_inv in H. discriminate H.
Qed.

End CAT.

(** ** GS-232 parser and rotation simulator *)

Section Rotator.
Import CLib G5500 Ref.

Lemma range_check_az az :
  (az <? F32.to_int AZ_MIN) || (az >? F32.to_int AZ_MAX) = true <-> az < 0 \/ 450 < az.
Proof.
  change (F32.to_int AZ_MIN) with 0. change (F32.to_int AZ_MAX) with 450.
  rewrite orb_true_iff, Z.ltb_lt, Z.gtb_ltb, Z.ltb_lt. reflexivity.
Qed.

Lemma range_check_el el :
  (el <? F32.to_int EL_MIN) || (el >? F32.to_int EL_MAX) = true <-> el < 0 \/ 180 < el.
Proof.
  change (F32.to_int EL_MIN) with 0. change (F32.to_int EL_MAX) with 180.
  rewrite orb_true_iff, Z.ltb_lt, Z.gtb_ltb, Z.ltb_lt. reflexivity.
Qed.

(** C7.  A [W] command whose azimuth is out of range is obeyed when its
    azimuth field is longer than seven characters.  In [W00000451 180] the
    field [00000451] denotes 451, outside 0 to 450, yet the rotator state
    changes: [handleW] copies at most seven characters of the field into
    [azStr[8]], reads [0000045] as 45 and sends the axes to 45 and 180.  The
    paths that read their field whole drop the same azimuth: [M00000451],
    and [W451 180], change nothing. *)
Theorem gs232_w_command_cuts_long_azimuth_field :
  let p := mkGS232Parser reset [] [] in
  let q := parser_update (str "W00000451 180" ++ [GS232_CR]) p in
  decimal_value (str "00000451") = 451 /\
  state q = gotoElevation (F32.of_Z 180) (gotoAzimuth (F32.of_Z 45) reset) /\
  targetAzimuth (state q) = F32.of_Z 45 /\
  azRotation (state q) = CW /\ azGotoMode (state q) = true /\
  targetElevation (state q) = F32.of_Z 180 /\
  elRotation (state q) = CW /\ elGotoMode (state q) = true /\
  state q <> state p /\
  parser_update (str "M00000451" ++ [GS232_CR]) p = p /\
  parser_update (str "W451 180" ++ [GS232_CR]) p = p.
Proof.
  cbv zeta. repeat split; try (vm_compute; reflexivity). vm_compute. discriminate.
Qed.

(** *** Goto-azimuth: comparisons with the constants 0, 225 and 450 *)

Lemma az225_value :
  az225 = S754_finite false 14745600 (-16) /\ AZ_MAX = S754_finite false 14745600 (-15) /\
  AZ_MIN = S754_zero false.
Proof. repeat split; reflexivity. Qed.

(** Above 450 is at or above 225. *)
Lemma gt_max_ge_225 x : F32.gt x AZ_MAX = true -> F32.ge x az225 = true.
Proof.
  destruct az225_value as (-> & -> & _). unfold F32.gt, F32.ge, SFltb, SFleb, SFcompare.
  destruct x as [s|s| |s m e]; cbv beta iota; try discriminate.
  - destruct s; [discriminate | reflexivity].
  - destruct s; [discriminate|].
    destruct (Z.compare_spec (-15) e), (Z.compare_spec (-16) e); try lia;
      try discriminate; reflexivity.
Qed.

(** Below 0 is at or below 225. *)
Lemma lt_min_le_225 x : F32.lt x AZ_MIN = true -> F32.le x az225 = true.
Proof.
  destruct az225_value as (-> & _ & ->). unfold F32.lt, F32.le, SFltb, SFleb, SFcompare.
  destruct x as [s|s| |s m e]; cbv beta iota; try discriminate.
  - destruct s; [reflexivity | discriminate].
  - destruct s; [reflexivity | discriminate].
Qed.




(** *** Goto-azimuth: the invariant of the simulation *)


(** The azimuth block keeps the invariant: from under way the axis either
    stays under way, short of 225, or arrives at exactly 225. *)
Lemma rotate_azimuth_invariant speed dt s :
  targetAzimuth s = az225 -> az_arrived s \/ az_under_way s ->
  let s' := rotate_azimuth speed dt s in
  targetAzimuth s' = az225 /\ (az_arrived s' \/ az_under_way s').
Proof.
  intros Ht [(Ha & Hr & Hg) | (Hg & [[Hr Hc] | [Hr Hc]])]; unfold rotate_azimuth; rewrite Hr.
  - split; [exact Ht|]. left. repeat split; assumption.
  - cbn [azGotoMode azimuth targetAzimuth set_azimuth]. rewrite Hg, Ht. cbn [andb].
    destruct (F32.ge (F32.add (azimuth s) (F32.mul speed dt)) az225) eqn:Hge.
    + cbn [azimuth stopAzimuth set_az set_azimuth].
      change (F32.gt az225 AZ_MAX) with false. cbv beta iota.
      split; [exact Ht|]. left. repeat split; reflexivity.
    + cbn [azimuth set_azimuth].
      destruct (F32.gt (F32.add (azimuth s) (F32.mul speed dt)) AZ_MAX) eqn:Hmax.
      * apply gt_max_ge_225 in Hmax. congruence.
      * split; [exact Ht|]. right. split; [exact Hg|]. left. split; [exact Hr | exact Hge].
  - cbn [azGotoMode azimuth targetAzimuth set_azimuth]. rewrite Hg, Ht. cbn [andb].
    destruct (F32.le (F32.sub (azimuth s) (F32.mul speed dt)) az225) eqn:Hle.
    + cbn [azimuth stopAzimuth set_az set_azimuth].
      change (F32.lt az225 AZ_MIN) with false. cbv beta iota.
      split; [exact Ht|]. left. repeat split; reflexivity.
    + cbn [azimuth set_azimuth].
      destruct (F32.lt (F32.sub (azimuth s) (F32.mul speed dt)) AZ_MIN) eqn:Hmin.
      * apply lt_min_le_225 in Hmin. congruence.
      * split; [exact Ht|]. right. split; [exact Hg|]. right. split; [exact Hr | exact Hle].
Qed.

(** The elevation block does not touch the azimuth axis. *)
Lemma rotate_elevation_azimuth speed dt s :
  let s' := rotate_elevation speed dt s in
  azimuth s' = azimuth s /\ targetAzimuth s' = targetAzimuth s /\
  azRotation s' = azRotation s /\ azGotoMode s' = azGotoMode s.
Proof.
  unfold rotate_elevation.
  destruct (elRotation s); cbn [elGotoMode elevation targetElevation set_elevation].
  - repeat split; reflexivity.
  - destruct (elGotoMode s && _); cbn [elevation set_elevation stopElevation set_el];
      destruct (F32.gt _ EL_MAX); repeat split; reflexivity.
  - destruct (elGotoMode s && _); cbn [elevation set_elevation stopElevation set_el];
      destruct (F32.lt _ EL_MIN); repeat split; reflexivity.
Qed.

Lemma simulateRotation_invariant now d :
  let s := state (parser d) in
  targetAzimuth s = az225 -> az_arrived s \/ az_under_way s ->
  let s' := state (parser (simulateRotation now d)) in
  targetAzimuth s' = az225 /\ (az_arrived s' \/ az_under_way s').
Proof.
  intros s Ht Hs. unfold simulateRotation. fold s.
  destruct (to_uint32 (now - lastUpdateMs s) <? MIN_UPDATE_INTERVAL); [split; assumption|].
  cbn [state parser set_parser with_state].
  set (dt := F32.div _ _).
  destruct (rotate_azimuth_invariant (getAzSpeed d) dt (set_lastUpdateMs now s) Ht Hs)
    as [Ht' Hs'].
  destruct (rotate_elevation_azimuth (getElSpeed d) dt
              (rotate_azimuth (getAzSpeed d) dt (set_lastUpdateMs now s)))
    as (Ea & Et & Er & Eg).
  unfold az_arrived, az_under_way in *. rewrite Ea, Et, Er, Eg. split; assumption.
Qed.

Lemma update_no_input_invariant now d :
  let s := state (parser d) in
  targetAzimuth s = az225 -> az_arrived s \/ az_under_way s ->
  let s' := state (parser (update now [] d)) in
  targetAzimuth s' = az225 /\ (az_arrived s' \/ az_under_way s').
Proof.
  intros s Ht Hs. unfold update. destruct (running d); cbn [negb]; [|split; assumption].
  cbn [parser_update fold_left].
  replace (set_parser (parser d) d) with d by (destruct d; reflexivity).
  apply simulateRotation_invariant; assumption.
Qed.

Lemma after_updates_invariant times : forall d,
  let s := state (parser d) in
  targetAzimuth s = az225 -> az_arrived s \/ az_under_way s ->
  let s' := after_updates times d in
  targetAzimuth s' = az225 /\ (az_arrived s' \/ az_under_way s').
Proof.
  induction times as [|t times IH]; intros d s Ht Hs; [split; assumption|].
  destruct (update_no_input_invariant t d Ht Hs) as [Ht' Hs'].
  exact (IH (update t [] d) Ht' Hs').
Qed.


End Rotator.

(** ** Device life cycle: what [begin] resets and what it keeps *)

Section Lifecycle.
Import CLib Ref.

Lemma rotator_begin_resets now d :
  G5500.has_serial d = true ->
  let d' := snd (G5500.begin now d) in
  fst (G5500.begin now d) = true /\
  G5500.running d' = true /\
  G5500.state (G5500.parser d') = G5500.set_lastUpdateMs now G5500.reset /\
  rotator_options d' = rotator_options d.
Proof.
  intros Hs. unfold G5500.begin. rewrite Hs. cbn [negb fst snd].
  repeat split; reflexivity.
Qed.

Lemma gps_begin_resets now d :
  NMEA.has_serial d = true ->
  let d' := snd (NMEA.begin now d) in
  fst (NMEA.begin now d) = true /\
  NMEA.running d' = true /\
  NMEA.state d' = NMEA.set_lastOutputMs now NMEA.reset /\
  gps_options d' = gps_options d.
Proof.
  intros Hs. unfold NMEA.begin. rewrite Hs. cbn [negb fst snd].
  repeat split; reflexivity.
Qed.

(** The UART of a device is fixed at construction: no operation of the
    device wrappers writes [_uartIndex]. *)
Lemma rotator_uart_fixed now input bytes d :
  G5500.uartIndex (snd (G5500.begin now d)) = G5500.uartIndex d /\
  G5500.uartIndex (G5500.end_ d) = G5500.uartIndex d /\
  G5500.uartIndex (G5500.update now input d) = G5500.uartIndex d /\
  G5500.uartIndex (snd (G5500.deserializeOptions bytes d)) = G5500.uartIndex d.
Proof.
  repeat split.
  - unfold G5500.begin. destruct (G5500.has_serial d); reflexivity.
  - unfold G5500.update, G5500.simulateRotation.
    destruct (G5500.running d); cbn [negb]; [|reflexivity].
    destruct (_ <? _); reflexivity.
  - destruct bytes as [|b0 [|b1 [|b2 r]]]; reflexivity.
Qed.

Lemma gps_uart_fixed dtostrf now bytes d :
  NMEA.uartIndex (snd (NMEA.begin now d)) = NMEA.uartIndex d /\
  NMEA.uartIndex (NMEA.end_ d) = NMEA.uartIndex d /\
  NMEA.uartIndex (NMEA.update dtostrf now d) = NMEA.uartIndex d /\
  NMEA.uartIndex (snd (NMEA.deserializeOptions bytes d)) = NMEA.uartIndex d.
Proof.
  repeat split.
  - unfold NMEA.begin. destruct (NMEA.has_serial d); reflexivity.
  - unfold NMEA.update. destruct (NMEA.running d); cbn [negb]; [|reflexivity].
    destruct (_ >=? _); reflexivity.
  - destruct bytes as [|b0 [|b1 r]]; reflexivity.
Qed.

(** C10. [begin] puts the simulated state back to its defaults and keeps the
    option values.  For the rotator: azimuth, elevation and both targets 0,
    both axes stopped, goto-mode off.  For the GPS: the default position,
    altitude, speed, course, fix data, dilution values, constellation and
    the date and time 2025-01-01 12:00:00.  Only the time stamp of the last
    update is set to the current clock.  So the state reached before an
    [end]/[begin] cycle is discarded by the restart, while baud rate, speeds
    and update rate are the same after the cycle as before it. *)
Theorem begin_resets_state_and_keeps_options :
  (forall now d, G5500.has_serial d = true ->
     let d' := snd (G5500.begin now (G5500.end_ d)) in
     let s := G5500.state (G5500.parser d') in
     G5500.running d' = true /\
     s = G5500.set_lastUpdateMs now G5500.reset /\
     (G5500.azimuth s = F32.of_Z 0 /\ G5500.elevation s = F32.of_Z 0 /\
      G5500.targetAzimuth s = F32.of_Z 0 /\ G5500.targetElevation s = F32.of_Z 0 /\
      G5500.azRotation s = G5500.STOPPED /\ G5500.elRotation s = G5500.STOPPED /\
      G5500.azGotoMode s = false /\ G5500.elGotoMode s = false) /\
     G5500.state (G5500.parser (snd (G5500.begin now d))) = s /\
     rotator_options d' = rotator_options d) /\
  (forall now d, NMEA.has_serial d = true ->
     let d' := snd (NMEA.begin now (NMEA.end_ d)) in
     let s := NMEA.state d' in
     NMEA.running d' = true /\
     s = NMEA.set_lastOutputMs now NMEA.reset /\
     (NMEA.latitude s = F64.literal 377749 10000 /\
      NMEA.longitude s = F64.literal (-1224194) 10000 /\
      NMEA.altitude s = F32.of_Z 10 /\
      NMEA.fixQuality s = 1 /\ NMEA.fixMode s = 3 /\ NMEA.numSatellites s = 8 /\
      NMEA.numSatsInView s = 8 /\
      Ref.clock s = (2025, 1, 1, 12, 0, 0)) /\
     NMEA.state (snd (NMEA.begin now d)) = s /\
     gps_options d' = gps_options d).
Proof.
  split; intros now d Hs d' s.
  - assert (Hs' : G5500.has_serial (G5500.end_ d) = true) by exact Hs.
    destruct (rotator_begin_resets now _ Hs') as (_ & Hr & Est & Eo).
    destruct (rotator_begin_resets now _ Hs) as (_ & _ & Est0 & _).
    split; [exact Hr|]. split; [exact Est|].
    split; [subst s d'; rewrite Est; repeat split; reflexivity|].
    split; [rewrite Est0; symmetry; exact Est | exact Eo].
  - assert (Hs' : NMEA.has_serial (NMEA.end_ d) = true) by exact Hs.
    destruct (gps_begin_resets now _ Hs') as (_ & Hr & Est & Eo).
    destruct (gps_begin_resets now _ Hs) as (_ & _ & Est0 & _).
    split; [exact Hr|]. split; [exact Est|].
    split; [subst s d'; rewrite Est; repeat split; reflexivity|].
    split; [rewrite Est0; symmetry; exact Est | exact Eo].
Qed.

Lemma begin_resets_state_and_keeps_options_witness :
  let d0 := snd (G5500.deserializeOptions [0; 5; 3] (G5500.new true 1)) in
  let d1 := G5500.update 3000 (str "W090 045" ++ [G5500.GS232_CR]) (snd (G5500.begin 0 d0)) in
  let d2 := snd (G5500.begin 9000 (G5500.end_ d1)) in
  G5500.has_serial d1 = true /\
  G5500.azimuth (G5500.state (G5500.parser d1)) = F32.of_Z 15 /\
  G5500.azimuth (G5500.state (G5500.parser d2)) = F32.of_Z 0 /\
  rotator_options d2 = (0, 5, 3).
Proof.
  cbv zeta. split; [reflexivity|]. split; [reflexivity|].
  pose proof (proj1 begin_resets_state_and_keeps_options 9000
                (G5500.update 3000 (str "W090 045" ++ [G5500.GS232_CR])
                   (snd (G5500.begin 0 (snd (G5500.deserializeOptions [0; 5; 3]
                                               (G5500.new true 1))))))
                eq_refl) as (_ & _ & (Ha & _) & _ & Eo).
  split; [exact Ha | exact Eo].
Defined.

End Lifecycle.

(** ** NMEA sentence generator *)

Section Sentences.
Import CLib NMEA Ref Ref2.

Lemma plain_digit c : 48 <= c <= 57 -> plain_char c.
Proof. unfold plain_char. lia. Qed.

Lemma dec_digits_aux_plain fuel : forall n, 0 <= n -> Forall plain_char (dec_digits_aux fuel n).
Proof.
  induction fuel as [|k IH]; intros n Hn; cbn [dec_digits_aux].
  - constructor; [|constructor]. apply plain_digit.
    pose proof (Z.mod_pos_bound n 10 ltac:(lia)). lia.
  - destruct (Z.ltb_spec n 10).
    + constructor; [|constructor]. apply plain_digit. lia.
    + apply Forall_app. split.
      * apply IH. apply Z.div_pos; lia.
      * constructor; [|constructor]. apply plain_digit.
        pose proof (Z.mod_pos_bound n 10 ltac:(lia)). lia.
Qed.

Lemma zero_pad_plain w s : Forall plain_char s -> Forall plain_char (zero_pad w s).
Proof.
  intros H. unfold zero_pad. apply Forall_app. split; [|exact H].
  apply Forall_replicate. apply plain_digit. lia.
Qed.

Lemma fmt_d_plain w n : Forall plain_char (fmt_d w n).
Proof.
  unfold fmt_d, dec_digits. destruct (Z.ltb_spec n 0).
  - constructor; [unfold plain_char; lia|].
    apply zero_pad_plain, dec_digits_aux_plain. lia.
  - apply zero_pad_plain, dec_digits_aux_plain. lia.
Qed.

Lemma take_plain n s : Forall plain_char s -> Forall plain_char (take n s).
Proof. apply Forall_take. Qed.

Lemma snprintf_plain n s : Forall plain_char s -> Forall plain_char (snprintf n s).
Proof. apply Forall_take. Qed.

(** *** The checksum *)

Lemma lxor_byte a b : 0 <= a < 256 -> 0 <= b < 256 -> 0 <= Z.lxor a b < 256.
Proof.
  intros Ha Hb. split; [apply Z.lxor_nonneg; lia|].
  destruct (Z.eq_dec (Z.lxor a b) 0) as [->|Hnz]; [lia|].
  assert (Hpos : 0 < Z.lxor a b) by (pose proof (proj2 (Z.lxor_nonneg a b)); lia).
  apply (Z.log2_lt_pow2 _ 8 Hpos).
  pose proof (Z.log2_lxor a b ltac:(lia) ltac:(lia)) as Hl.
  assert (Z.log2 a < 8).
  { destruct (Z.eq_dec a 0) as [->|]; [cbn; lia|]. apply Z.log2_lt_pow2; lia. }
  assert (Z.log2 b < 8).
  { destruct (Z.eq_dec b 0) as [->|]; [cbn; lia|]. apply Z.log2_lt_pow2; lia. }
  lia.
Qed.

Lemma xor_until_star_plain payload : forall acc tail,
  Forall plain_char payload -> 0 <= acc < 256 ->
  match tail with [] => True | c :: _ => c = 42 end ->
  xor_until_star (payload ++ tail) acc = fold_left Z.lxor payload acc /\
  0 <= fold_left Z.lxor payload acc < 256.
Proof.
  induction payload as [|c r IH]; intros acc tail Hp Hacc Htail.
  - cbn. split; [|exact Hacc]. destruct tail as [|c t]; [reflexivity|]. subst c. reflexivity.
  - apply Forall_cons in Hp as [[Hc Hstar] Hr]. cbn [app xor_until_star fold_left].
    destruct (Z.eqb_spec c 42); [contradiction|].
    pose proof (lxor_byte acc c Hacc ltac:(lia)) as Hb.
    unfold to_uint8. rewrite Z.mod_small by exact Hb. apply IH; assumption.
Qed.

Lemma calculateChecksum_plain payload :
  Forall plain_char payload ->
  calculateChecksum (36 :: payload) = xor_all payload /\ 0 <= xor_all payload < 256.
Proof.
  intros Hp. unfold calculateChecksum, xor_all.
  rewrite <- (app_nil_r payload) at 1.
  apply (xor_until_star_plain payload 0 []); [exact Hp | lia | exact I].
Qed.

Lemma hex_digit_upper d : 0 <= d < 16 -> upper_hex (hex_digit d).
Proof. intros Hd. unfold hex_digit, upper_hex. destruct (Z.ltb_spec d 10); lia. Qed.

(** A buffer content that starts with [$], holds no [*] and is at most 77
    characters long is sent whole, as a checksummed sentence. *)
Lemma transmitted_checksummed payload :
  Forall plain_char payload -> (length (str "$" ++ payload) <= MAX_WHOLE_BODY)%nat ->
  checksummed_sentence (transmitted (36 :: payload)).
Proof.
  intros Hp Hlen. destruct (calculateChecksum_plain payload Hp) as [Ec Hb].
  exists payload, (hex_digit (xor_all payload / 16)), (hex_digit (xor_all payload mod 16)).
  split; [exact Hp|]. split; [reflexivity|].
  split; [apply hex_digit_upper; split; [apply Z.div_pos; lia | apply Z.div_lt_upper_bound; lia]|].
  split; [apply hex_digit_upper, Z.mod_pos_bound; lia|].
  unfold transmitted, snprintf. rewrite Ec.
  rewrite take_ge; [reflexivity|].
  rewrite !length_app. unfold MAX_WHOLE_BODY, NMEA_SENTENCE_MAX_LEN in *. cbn in *. lia.
Qed.

Lemma sendSentence_transmitted b port :
  sendSentence b port = port ++ [option_map transmitted b].
Proof. destruct b; reflexivity. Qed.

(** *** The buffers hold [$] and text without [*] *)

Ltac plain_text :=
  repeat first
    [ apply Forall_nil_2
    | apply Forall_app; split
    | apply fmt_d_plain
    | apply snprintf_plain
    | apply Forall_take
    | match goal with
      | |- Forall plain_char (str ?s) =>
          let v := eval vm_compute in (str s) in change (str s) with v
      end
    | apply Forall_cons; split
    | assumption
    | (unfold plain_char; lia) ].

Lemma zero_leading_spaces_plain s :
  Forall plain_char s -> Forall plain_char (zero_leading_spaces s).
Proof.
  induction s as [|c r IH]; intros H; [exact H|].
  apply Forall_cons in H as [Hc Hr]. cbn [zero_leading_spaces].
  destruct c as [|q|q]; try (constructor; assumption).
  repeat (destruct q as [q|q|]; try (constructor; assumption)).
  constructor; [unfold plain_char; lia | apply IH, Hr].
Qed.

Lemma dollar_text_snprintf n text :
  (2 <= n)%nat -> Forall plain_char text -> dollar_text (snprintf n (str "$" ++ text)).
Proof.
  intros Hn Ht. exists (take (n - 2) text). split; [|apply Forall_take, Ht].
  unfold snprintf. destruct n as [|[|n]]; try lia. cbn [Nat.sub]. rewrite Nat.sub_0_r.
  reflexivity.
Qed.

Lemma dollar_text_buf_append b piece b' :
  buf_append b piece = Some b' ->
  dollar_text (fst b) -> Forall plain_char piece -> dollar_text (fst b').
Proof.
  unfold buf_append. destruct (_ <? _)%nat; [discriminate|]. intros [= <-].
  intros (payload & E & Hp) Hpiece. cbn [fst]. rewrite E.
  exists (payload ++ take (NMEA_SENTENCE_MAX_LEN - 1 - snd b) piece).
  split; [rewrite <- app_assoc; reflexivity|].
  apply Forall_app; split; [exact Hp | apply Forall_take, Hpiece].
Qed.

Lemma dollar_text_appends pieces : forall b b',
  buf_appends pieces b = Some b' ->
  dollar_text (fst b) -> Forall (Forall plain_char) pieces -> dollar_text (fst b').
Proof.
  induction pieces as [|x r IH]; intros b b' E Hb Hall; cbn [buf_appends] in E.
  - injection E as <-. exact Hb.
  - apply Forall_cons in Hall as [Hx Hr].
    destruct (buf_append b x) as [b1|] eqn:E1; [|discriminate].
    apply (IH b1 b' E); [|exact Hr].
    apply (dollar_text_buf_append b x b1 E1 Hb Hx).
Qed.

Lemma dollar_text_Some a b : Some a = Some b -> dollar_text a -> dollar_text b.
Proof. intros [= ->] H. exact H. Qed.

Lemma gsv_buffer_dollar_text st numMsgs msg sats b :
  gsv_buffer st numMsgs msg sats = Some b -> dollar_text b.
Proof.
  unfold gsv_buffer. destruct (buf_appends _ _) as [b'|] eqn:E; [|discriminate].
  intros [= <-]. apply (dollar_text_appends _ _ _ E).
  - unfold buf_start. cbn [fst].
    change (str "$GPGSV,") with (str "$" ++ str "GPGSV,"). rewrite <- app_assoc.
    apply dollar_text_snprintf; [unfold NMEA_SENTENCE_MAX_LEN; lia|]. plain_text.
  - apply Forall_map, Forall_forall. intros i _. unfold gsv_group. plain_text.
Qed.

Section WithDtostrf.

Variable dtostrf : F64.f64 -> Z -> Z -> cstring.
Hypothesis dtostrf_plain : forall v w p, Forall plain_char (dtostrf v w p).

Lemma fmtFloat_plain size v w p t :
  fmtFloat dtostrf size v w p = Some t -> Forall plain_char t.
Proof.
  unfold fmtFloat. destruct (_ <? _)%nat; [|discriminate]. intros [= <-]. apply dtostrf_plain.
Qed.

Lemma format_minutes_plain n w v t :
  format_minutes dtostrf n w v = Some t -> Forall plain_char t.
Proof.
  unfold format_minutes. destruct (negb _); [discriminate|].
  destruct (fmtFloat dtostrf 12 _ 7 4) as [minBuf|] eqn:E; [|discriminate].
  intros [= <-]. apply fmtFloat_plain in E. plain_text.
  apply zero_leading_spaces_plain, E.
Qed.

Lemma formatTime_plain st : Forall plain_char (formatTime st).
Proof. unfold formatTime. plain_text. Qed.

Lemma formatDate_plain st : Forall plain_char (formatDate st).
Proof. unfold formatDate. plain_text. Qed.

Ltac number_text H :=
  first [ apply fmtFloat_plain in H | apply format_minutes_plain in H ].

Ltac some_text :=
  repeat match goal with
         | |- context [match ?o with Some _ => _ | None => _ end] =>
             let E := fresh "E" in
             destruct o eqn:E; [number_text E | discriminate]
         end.

Lemma gga_buffer_dollar_text st b : gga_buffer dtostrf st = Some b -> dollar_text b.
Proof.
  unfold gga_buffer, formatLatitude, formatLongitude, getLatHemisphere, getLonHemisphere.
  some_text. intros H. apply (dollar_text_Some _ _ H).
  change (str "$GPGGA,") with (str "$" ++ str "GPGGA,"). rewrite <- app_assoc.
  apply dollar_text_snprintf; [unfold NMEA_SENTENCE_MAX_LEN; lia|].
  destruct (F64.ge (latitude st) _), (F64.ge (longitude st) _); plain_text.
Qed.

Lemma rmc_buffer_dollar_text st b : rmc_buffer dtostrf st = Some b -> dollar_text b.
Proof.
  unfold rmc_buffer, formatLatitude, formatLongitude, getLatHemisphere, getLonHemisphere.
  cbv zeta. some_text. intros H. apply (dollar_text_Some _ _ H).
  change (str "$GPRMC,") with (str "$" ++ str "GPRMC,"). rewrite <- app_assoc.
  apply dollar_text_snprintf; [unfold NMEA_SENTENCE_MAX_LEN; lia|].
  destruct (F64.ge (latitude st) _), (F64.ge (longitude st) _), (hasValidFix st),
    (F32.ge (magVariation st) _); plain_text.
Qed.

Lemma vtg_buffer_dollar_text st b : vtg_buffer dtostrf st = Some b -> dollar_text b.
Proof.
  unfold vtg_buffer. cbv zeta. some_text. intros H. apply (dollar_text_Some _ _ H).
  change (str "$GPVTG,") with (str "$" ++ str "GPVTG,"). rewrite <- app_assoc.
  apply dollar_text_snprintf; [unfold NMEA_SENTENCE_MAX_LEN; lia|].
  plain_text.
Qed.

Lemma gsa_buffer_dollar_text st b : gsa_buffer dtostrf st = Some b -> dollar_text b.
Proof.
  unfold gsa_buffer.
  destruct (buf_appends _ _) as [b1|] eqn:Eb1; [|discriminate].
  some_text.
  destruct (buf_append b1 _) as [b2|] eqn:Eb2; [|discriminate]. intros [= <-].
  apply (dollar_text_buf_append _ _ _ Eb2); [|plain_text].
  apply (dollar_text_appends _ _ _ Eb1).
  - unfold buf_start. cbn [fst].
    change (str "$GPGSA,A,") with (str "$" ++ str "GPGSA,A,"). rewrite <- app_assoc.
    apply dollar_text_snprintf; [unfold NMEA_SENTENCE_MAX_LEN; lia|]. plain_text.
  - apply Forall_map, Forall_forall. intros i _. unfold gsa_prn.
    destruct (_ && _); plain_text.
Qed.

(** Every defined buffer content of a cycle starts with [$] and holds no
    [*]. *)
Lemma sentence_buffers_dollar_text st :
  Forall (fun ob => forall b, ob = Some b -> dollar_text b) (sentence_buffers dtostrf st).
Proof.
  unfold sentence_buffers.
  repeat (apply Forall_cons; split);
    [intros b; apply gga_buffer_dollar_text | intros b; apply rmc_buffer_dollar_text
    | intros b; apply gsa_buffer_dollar_text |].
  apply Forall_app; split.
  - apply Forall_map, Forall_forall. intros [msg sats] _ b. apply gsv_buffer_dollar_text.
  - constructor; [intros b; apply vtg_buffer_dollar_text | constructor].
Qed.

End WithDtostrf.

Lemma outputGSV_transmitted st port :
  outputGSV st port
  = port ++ map (fun '(msg, sats) =>
                   option_map transmitted (gsv_buffer st (gsv_numMsgs st) msg sats))
                (gsv_msgs (Z.to_nat (gsv_numMsgs st)) 1 0 (numSatsInView st)).
Proof.
  unfold outputGSV. generalize (gsv_msgs (Z.to_nat (gsv_numMsgs st)) 1 0 (numSatsInView st)).
  intros msgs. revert port.
  induction msgs as [|[msg sats] r IH]; intros port; cbn [fold_left map].
  - rewrite app_nil_r. reflexivity.
  - rewrite IH, sendSentence_transmitted, <- app_assoc. reflexivity.
Qed.

Lemma outputAll_transmitted dtostrf st port :
  outputAll dtostrf st port
  = port ++ map (option_map transmitted) (sentence_buffers dtostrf st).
Proof.
  unfold outputAll, outputVTG, outputGSA, outputRMC, outputGGA, sentence_buffers.
  rewrite sendSentence_transmitted, outputGSV_transmitted, !sendSentence_transmitted.
  rewrite !map_app, map_map. cbn [map]. rewrite <- !app_assoc. cbn [app].
  do 5 f_equal. apply map_ext. intros [msg sats]. reflexivity.
Qed.

(** A string sent that is shorter than the 82 characters the final buffer
    holds was not cut. *)
Lemma transmitted_short b :
  (length (transmitted b) < NMEA_SENTENCE_MAX_LEN - 1)%nat -> (length b <= MAX_WHOLE_BODY)%nat.
Proof.
  unfold transmitted, snprintf, NMEA_SENTENCE_MAX_LEN, MAX_WHOLE_BODY.
  rewrite length_take, !length_app. cbn [length fmt_02X Nat.sub]. lia.
Qed.

(** C3 (as amended).  Whatever the state, what one [outputAll] prints are
    the transmitted forms of the buffer contents of GGA, RMC, GSA, the GSV
    messages and VTG, in this order.  Every buffer content that is defined
    (its number texts fit the arrays they are written to) and at most 77
    characters long is sent whole as [$] payload [*] HH CR LF, where the
    payload holds no [*] and HH is the XOR of all payload bytes as two
    upper-case hexadecimal digits; so is every string sent that is shorter
    than 82 characters.  (This supposes that the float rendering [dtostrf]
    of the Arduino core yields text without [*].) *)
Theorem nmea_sentences_carry_checksum
    (dtostrf : F64.f64 -> Z -> Z -> cstring) (st : NMEAGPSState) :
  (forall v w p, Forall plain_char (dtostrf v w p)) ->
  (forall port,
     outputAll dtostrf st port
     = port ++ map (option_map transmitted) (sentence_buffers dtostrf st)) /\
  (forall b, In (Some b) (sentence_buffers dtostrf st) ->
     (length b <= MAX_WHOLE_BODY)%nat -> checksummed_sentence (transmitted b)) /\
  (forall s, In (Some s) (outputAll dtostrf st []) ->
     (length s < NMEA_SENTENCE_MAX_LEN - 1)%nat -> checksummed_sentence s).
Proof.
  intros Hdt.
  assert (Hsum : forall b, In (Some b) (sentence_buffers dtostrf st) ->
            (length b <= MAX_WHOLE_BODY)%nat -> checksummed_sentence (transmitted b)).
  { intros b Hin Hlen.
    pose proof (sentence_buffers_dollar_text dtostrf Hdt st) as Hall.
    rewrite Forall_forall in Hall.
    destruct (Hall (Some b)) with (b := b) as (payload & -> & Hp);
      [apply list_elem_of_In, Hin | reflexivity |].
    apply transmitted_checksummed; assumption. }
  split; [intros port; apply outputAll_transmitted|]. split; [exact Hsum|].
  intros s Hin Hlen. rewrite outputAll_transmitted in Hin. cbn [app] in Hin.
  apply in_map_iff in Hin as ([b|] & E & Hin); [|discriminate].
  injection E as <-. apply Hsum; [exact Hin | apply transmitted_short, Hlen].
Qed.

(** The reference rendering yields digits, a sign, a point, blanks or the
    words for infinity and not-a-number. *)
Lemma dtostrf_ref_plain v w p : Forall plain_char (dtostrf_ref v w p).
Proof.
  unfold dtostrf_ref.
  assert (Hpad : forall s, Forall plain_char s ->
            Forall plain_char (replicate (Z.to_nat w - length s) 32 ++ s)).
  { intros s Hs. apply Forall_app; split; [|exact Hs].
    apply Forall_replicate. unfold plain_char. lia. }
  destruct v as [s|s| |s m e]; apply Hpad.
  - destruct s, (p =? 0); plain_text; apply Forall_replicate; unfold plain_char; lia.
  - destruct s; plain_text.
  - plain_text.
  - assert (Hsc : 0 <= (if 0 <=? e then Z.pos m * 2 ^ e * 10 ^ p
                        else (2 * Z.pos m * 10 ^ p + 2 ^ (- e)) / 2 ^ (- e + 1))).
    { destruct (Z.leb_spec 0 e).
      - apply Z.mul_nonneg_nonneg; [apply Z.mul_nonneg_nonneg; [lia | apply Z.pow_nonneg; lia]
                                   | apply Z.pow_nonneg; lia].
      - apply Z.div_pos; [|apply Z.pow_pos_nonneg; lia].
        apply Z.add_nonneg_nonneg; [|apply Z.pow_nonneg; lia].
        apply Z.mul_nonneg_nonneg; [lia | apply Z.pow_nonneg; lia]. }
    set (scaled := if 0 <=? e then _ else _) in *.
    assert (H10 : 0 <= 10 ^ p) by (apply Z.pow_nonneg; lia).
    assert (Hq : 0 <= scaled / 10 ^ p).
    { destruct (Z.eq_dec (10 ^ p) 0) as [->|]; [rewrite Z.div_0_r; lia | apply Z.div_pos; lia]. }
    assert (Hr : 0 <= scaled mod 10 ^ p).
    { destruct (Z.eq_dec (10 ^ p) 0) as [->|]; [rewrite Z.mod_0_r; lia
                                               | apply Z.mod_pos_bound; lia]. }
    destruct s, (p =? 0); plain_text;
      try (unfold dec_digits; apply dec_digits_aux_plain; assumption);
      apply Forall_replicate; unfold plain_char; lia.
Qed.

(** One output cycle from the reset state, at the first tick, with the
    reference rendering of floats. *)
Example outputAll_after_first_tick :
  outputAll dtostrf_ref (advanceTime reset) []
  = map Some
    [ str "$GPGGA,120001.00,3746.4940,N,12225.1640,W,1,08,1.0,10.0,M,-34.0,M,,*64" ++ [13; 10];
      str "$GPRMC,120001.00,A,3746.4940,N,12225.1640,W,0.0,0.0,010125,13.0,E,A*1A" ++ [13; 10];
      str "$GPGSA,A,3,02,05,09,12,15,18,21,25,,,,,1.5,1.0,1.2*30" ++ [13; 10];
      str "$GPGSV,2,1,08,02,45,120,42,05,67,230,45,09,23,045,38,12,34,315,40*75" ++ [13; 10];
      str "$GPGSV,2,2,08,15,56,180,44,18,12,090,35,21,78,270,47,25,41,150,41*73" ++ [13; 10];
      str "$GPVTG,0.0,T,0.0,M,0.0,N,0.0,K,A*23" ++ [13; 10] ].
Proof. vm_compute. reflexivity. Qed.

Lemma nmea_sentences_carry_checksum_witness :
  let st := advanceTime reset in
  (forall v w p, Forall plain_char (dtostrf_ref v w p)) /\
  Forall (fun ob => exists b, ob = Some b /\ (length b <= MAX_WHOLE_BODY)%nat)
         (sentence_buffers dtostrf_ref st) /\
  Forall (fun os => exists s, os = Some s /\ checksummed_sentence s)
         (outputAll dtostrf_ref st []).
Proof.
  cbv zeta.
  assert (Hfit : Forall (fun ob => exists b, ob = Some b /\ (length b <= MAX_WHOLE_BODY)%nat)
                        (sentence_buffers dtostrf_ref (advanceTime reset))).
  { vm_compute. repeat (constructor; [eexists; split; [reflexivity | repeat constructor]|]).
    constructor. }
  split; [exact dtostrf_ref_plain|]. split; [exact Hfit|].
  destruct (nmea_sentences_carry_checksum dtostrf_ref (advanceTime reset) dtostrf_ref_plain)
    as (Hout & Hsum & _).
  rewrite (Hout []). cbn [app]. apply Forall_map, Forall_forall. intros ob Hin.
  rewrite Forall_forall in Hfit. destruct (Hfit ob Hin) as (b & -> & Hlen).
  exists (transmitted b). split; [reflexivity|].
  apply Hsum; [apply list_elem_of_In, Hin | exact Hlen].
Defined.

(** The claim without these bounds fails.  With four satellites in view
    whose fields take three and five digits, the GSV text is 85 characters
    long; [_buffer] keeps 82 of them and so does the final buffer: what is
    sent has no [*], no checksum and no CR LF.  And with an altitude of
    1234567890 m set from the console, the twelve characters of its text and
    their NUL do not fit [altStr[12]]: the source does not define what GGA
    sends (here with the reference rendering of floats). *)
Lemma gsv_sentence_cut_before_checksum :
  let st := set_satellites [100; 100; 100; 100] [100; 100; 100; 100]
              [10000; 10000; 10000; 10000] [100; 100; 100; 100] 4 reset in
  let sent := str "$GPGSV,1,1,04,100,100,10000,100,100,100,10000,100,100,100,10000,100,100,100,10000," in
  let high := setPosition (latitude reset) (longitude reset) (F32.of_Z 1234567890) reset in
  outputGSV st [] = [Some sent] /\
  length sent = 82%nat /\
  ~ In 42 sent /\
  ~ checksummed_sentence sent /\
  dtostrf_ref (F64.of_f32 (altitude high)) 1 1 = str "1234567936.0" /\
  outputGGA dtostrf_ref high [] = [None].
Proof.
  cbv zeta.
  assert (Hstar : ~ In 42 (str "$GPGSV,1,1,04,100,100,10000,100,100,100,10000,100,100,100,10000,100,100,100,10000,")).
  { rewrite <- list_elem_of_In. apply (proj1 (bool_decide_eq_false _)). vm_compute. reflexivity. }
  split; [vm_compute; reflexivity|]. split; [reflexivity|]. split; [exact Hstar|].
  split; [|split; vm_compute; reflexivity].
  intros (payload & h1 & h0 & _ & _ & _ & _ & E). apply Hstar. rewrite E.
  apply in_or_app. right. apply in_or_app. right. left. reflexivity.
Qed.

(** *** GSV chunking *)








Lemma Z_range_forallb (f : Z -> bool) (hi : nat) :
  forallb f (map Z.of_nat (seq 0 hi)) = true ->
  forall n, 0 <= n < Z.of_nat hi -> f n = true.
Proof.
  intros H n Hn. rewrite forallb_forall in H. apply H.
  apply in_map_iff. exists (Z.to_nat n). split; [lia|]. apply in_seq. lia.
Qed.














End Sentences.

(** ** Rounding in binary32 *)

(** The operations of [SpecFloat] on positive numbers, related to exact
    values.  A number [m * 2^e] is measured as the integer [m * 2^(e + 400)];
    every exponent met below is above -400. *)

Section Rounding.
Import CLib Ref.


Lemma fexp24 k : fexp 24 128 k = Z.max (k - 24) (-149).
Proof. reflexivity. Qed.

(** *** The number of binary digits *)

Lemma digits2_pos_bounds p :
  2 ^ (Z.pos (digits2_pos p) - 1) <= Z.pos p < 2 ^ Z.pos (digits2_pos p).
Proof.
  induction p as [p IH|p IH|]; cbn [digits2_pos].
  - rewrite Pos2Z.inj_succ. replace (Z.succ (Z.pos (digits2_pos p)) - 1)
      with (Z.succ (Z.pos (digits2_pos p) - 1)) by lia.
    rewrite !Z.pow_succ_r by lia. lia.
  - rewrite Pos2Z.inj_succ. replace (Z.succ (Z.pos (digits2_pos p)) - 1)
      with (Z.succ (Z.pos (digits2_pos p) - 1)) by lia.
    rewrite !Z.pow_succ_r by lia. lia.
  - cbn. lia.
Qed.



(** *** Shifting right *)






(** *** Rounding a positive number *)


Lemma pow2_split a b : 0 <= a -> 0 <= b -> 2 ^ (a + b) = 2 ^ a * 2 ^ b.
Proof. intros. apply Z.pow_add_r; assumption. Qed.




(** *** [binary_round]: after aligning the mantissa *)




(** *** Canonical numbers and their order *)

Lemma canonical_digits m e :
  canonical_mantissa 24 128 m e = true ->
  -149 <= e /\ Z.pos m < 2 ^ 24 /\ (-149 < e -> 2 ^ 23 <= Z.pos m).
Proof.
  unfold canonical_mantissa. rewrite fexp24. intros H. apply Z.eqb_eq in H.
  pose proof (digits2_pos_bounds m) as Hd.
  assert (Hle : Z.pos (digits2_pos m) <= 24) by lia.
  split; [lia|]. split.
  - pose proof (Z.pow_le_mono_r 2 (Z.pos (digits2_pos m)) 24 ltac:(lia) Hle). lia.
  - intros He. assert (E : Z.pos (digits2_pos m) = 24) by lia. rewrite E in Hd.
    change (24 - 1) with 23 in Hd. lia.
Qed.

(** Canonical positive numbers are ordered as their exponents and
    mantissas are. *)
Lemma canonical_order m1 e1 m2 e2 :
  canonical_mantissa 24 128 m1 e1 = true ->
  canonical_mantissa 24 128 m2 e2 = true ->
  (e1 < e2 -> Z.pos m1 * 2 ^ (e1 + 400) < Z.pos m2 * 2 ^ (e2 + 400)) /\
  (e1 = e2 -> (Z.pos m1 * 2 ^ (e1 + 400) ?= Z.pos m2 * 2 ^ (e2 + 400)) = (m1 ?= m2)%positive).
Proof.
  intros H1 H2. apply canonical_digits in H1 as (He1 & Hm1 & _).
  apply canonical_digits in H2 as (He2 & _ & Hm2).
  pose proof (Z.pow_pos_nonneg 2 (e1 + 400) ltac:(lia) ltac:(lia)) as HP.
  split.
  - intros Hlt. specialize (Hm2 ltac:(lia)).
    replace (e2 + 400) with ((e2 - e1) + (e1 + 400)) by lia.
    rewrite (Z.pow_add_r 2 (e2 - e1) (e1 + 400)) by lia.
    assert (2 ^ 1 <= 2 ^ (e2 - e1)) by (apply Z.pow_le_mono_r; lia).
    change (2 ^ 1) with 2 in *. change (2 ^ 24) with 16777216 in *.
    change (2 ^ 23) with 8388608 in *.
    set (P := 2 ^ (e1 + 400)) in *. set (Q := 2 ^ (e2 - e1)) in *.
    assert (16777216 <= Z.pos m2 * Q) by nia.
    assert (Z.pos m1 * P < 16777216 * P) by nia.
    assert (16777216 * P <= Z.pos m2 * Q * P) by nia. lia.
  - intros <-. rewrite (Pos2Z.inj_compare m1 m2).
    destruct (Z.compare_spec (Z.pos m1) (Z.pos m2)) as [E|Hlt|Hgt].
    + rewrite E. apply Z.compare_refl.
    + apply Z.compare_lt_iff. nia.
    + apply Z.compare_gt_iff. nia.
Qed.

Lemma compare_canonical x y :
  nonneg_canonical x -> nonneg_canonical y ->
  SFcompare x y = Some (f32_measure x ?= f32_measure y).
Proof.
  destruct x as [sx|sx| |[|] mx ex]; cbn [nonneg_canonical]; try contradiction;
    destruct y as [sy|sy| |[|] my ey]; cbn [nonneg_canonical]; try contradiction;
    intros Hx Hy; unfold f32_measure, SFcompare.
  - reflexivity.
  - f_equal. symmetry. apply Z.compare_lt_iff.
    apply canonical_digits in Hy as (He & _).
    pose proof (Z.pow_pos_nonneg 2 (ey + 400) ltac:(lia) ltac:(lia)). lia.
  - f_equal. symmetry. apply Z.compare_gt_iff.
    apply canonical_digits in Hx as (He & _).
    pose proof (Z.pow_pos_nonneg 2 (ex + 400) ltac:(lia) ltac:(lia)). lia.
  - f_equal. rewrite !Z.mul_1_l.
    destruct (canonical_order mx ex my ey Hx Hy) as [Hlt Heq].
    destruct (canonical_order my ey mx ex Hy Hx) as [Hgt _].
    destruct (Z.compare_spec ex ey) as [E|L|G].
    + rewrite (Heq E). rewrite Pos.compare_cont_spec. destruct (mx ?= my)%positive; reflexivity.
    + symmetry. apply Z.compare_lt_iff. apply Hlt, L.
    + symmetry. apply Z.compare_gt_iff. apply Hgt. lia.
Qed.


Lemma lt_canonical x y :
  nonneg_canonical x -> nonneg_canonical y ->
  F32.lt x y = true <-> f32_measure x < f32_measure y.
Proof.
  intros Hx Hy. unfold F32.lt, SFltb. rewrite (compare_canonical x y Hx Hy).
  destruct (Z.compare_spec (f32_measure x) (f32_measure y)); split; intros; try lia;
    try reflexivity; discriminate.
Qed.

(** *** The operations on positive numbers *)








End Rounding.

(** ** Goto-azimuth 225: the axis arrives *)

Section Goto.
Import CLib G5500 Ref.


(** *** The increment of one step *)



(** *** One step of the azimuth *)









(** *** The updates of the device *)











End Goto.

(* ===================================================================== *)
(** * Part III: further properties                                        *)
(* ===================================================================== *)

(** ** The CAT parser on arbitrary input *)

Section CATInput.
Import CLib Yaesu Ref Ref2.

Lemma command_effect_refl p : command_effect p p.
Proof.
  exists (state p), []. cbn [map concat]. rewrite app_nil_r.
  split; [destruct p; reflexivity|]. split; [cbn; lia|]. split; [constructor | tauto].
Qed.

Lemma command_effect_send r p :
  Forall response_char r -> command_effect p (sendResponse r p).
Proof.
  intros Hr. exists (state p), [r]. cbn [map concat length]. rewrite app_nil_r.
  split; [reflexivity|]. split; [lia|]. split; [repeat constructor; exact Hr | tauto].
Qed.

Lemma command_effect_with f p :
  (radio_in_range (state p) -> radio_in_range (f (state p))) ->
  command_effect p (with_state f p).
Proof.
  intros H. exists (f (state p)), []. cbn [map concat]. rewrite app_nil_r.
  split; [reflexivity|]. split; [cbn; lia|]. split; [constructor | exact H].
Qed.

(** *** The characters of the responses *)

Lemma dec_digits_aux_response fuel : forall n,
  0 <= n -> Forall response_char (dec_digits_aux fuel n).
Proof.
  induction fuel as [|k IH]; intros n Hn; cbn [dec_digits_aux].
  - constructor; [|constructor]. pose proof (Z.mod_pos_bound n 10 ltac:(lia)).
    unfold response_char. lia.
  - destruct (Z.ltb_spec n 10).
    + constructor; [|constructor]. unfold response_char. lia.
    + apply Forall_app. split.
      * apply IH. apply Z.div_pos; lia.
      * constructor; [|constructor]. pose proof (Z.mod_pos_bound n 10 ltac:(lia)).
        unfold response_char. lia.
Qed.

Lemma dec_digits_response n : Forall response_char (dec_digits n).
Proof.
  unfold dec_digits. destruct (Z.le_gt_cases 0 n) as [Hn|Hn].
  - apply dec_digits_aux_response, Hn.
  - destruct n as [|q|q]; try lia. cbn [Z.log2 Z.to_nat dec_digits_aux].
    constructor; [|constructor]. pose proof (Z.mod_pos_bound (Z.neg q) 10 ltac:(lia)).
    unfold response_char. lia.
Qed.

Lemma zero_pad_response w s : Forall response_char s -> Forall response_char (zero_pad w s).
Proof.
  intros H. unfold zero_pad. apply Forall_app. split; [|exact H].
  apply Forall_replicate. unfold response_char. lia.
Qed.

Lemma fmt_u_response w n : Forall response_char (fmt_u w n).
Proof. apply zero_pad_response, dec_digits_response. Qed.

Lemma fmt_d_response w n : Forall response_char (fmt_d w n).
Proof.
  unfold fmt_d. destruct (n <? 0).
  - constructor; [unfold response_char; lia|]. apply zero_pad_response, dec_digits_response.
  - apply zero_pad_response, dec_digits_response.
Qed.

Lemma fmt_plus_d_response w n : Forall response_char (fmt_plus_d w n).
Proof.
  unfold fmt_plus_d. constructor.
  - destruct (n <? 0); unfold response_char; lia.
  - apply zero_pad_response, dec_digits_response.
Qed.

Ltac response_text :=
  unfold snprintf, formatIF, YAESU_RADIO_ID;
  repeat first
    [ apply Forall_take
    | apply fmt_u_response
    | apply fmt_d_response
    | apply fmt_plus_d_response
    | apply Forall_app; split
    | match goal with
      | |- Forall response_char (str ?s) =>
          let v := eval vm_compute in (str s) in change (str s) with v
      end
    | apply Forall_cons; split
    | apply Forall_nil_2
    | (unfold response_char; lia) ].

Ltac send_response := apply command_effect_send; response_text.

Lemma parseFrequency_range s f : parseFrequency s = Some f -> FREQ_MIN <= f <= FREQ_MAX.
Proof.
  unfold parseFrequency. destruct (strtoul s) as [val endptr].
  assert (H : (if (val <? FREQ_MIN) || (val >? FREQ_MAX) then None else Some val) = Some f
              -> FREQ_MIN <= f <= FREQ_MAX).
  { destruct (Z.ltb_spec val FREQ_MIN); [discriminate|].
    destruct (Z.gtb_spec val FREQ_MAX); [discriminate|]. cbn [orb]. intros [= <-]. lia. }
  destruct endptr as [|c r]; [exact H|].
  destruct (negb (c =? CAT_TERMINATOR)); [discriminate | exact H].
Qed.

Ltac in_range :=
  unfold radio_in_range, setCurrentMode;
  cbn [freqVfoA freqVfoB modeVfoA modeVfoB ritOffset squelch afGain rfGain currentVfo
       set_freqVfoA set_freqVfoB set_modeVfoA set_modeVfoB set_ptt set_powerOn
       set_currentVfo set_ritOn set_xitOn set_ritOffset set_squelch set_afGain set_rfGain];
  intros; try tauto.

Lemma handlers_effect params p :
  command_effect p (handleFA params p) /\ command_effect p (handleFB params p) /\
  command_effect p (handleIF params p) /\ command_effect p (handleID params p) /\
  command_effect p (handleMD params p) /\ command_effect p (handlePS params p) /\
  command_effect p (handleSM params p) /\ command_effect p (handleTX params p) /\
  command_effect p (handleRX params p) /\ command_effect p (handleVS params p) /\
  command_effect p (handleRI params p) /\ command_effect p (handleXT params p) /\
  command_effect p (handleRD params p) /\ command_effect p (handleRU params p) /\
  command_effect p (handleAG params p) /\ command_effect p (handleRG params p) /\
  command_effect p (handleSQ params p) /\ command_effect p (handleRM params p).
Proof.
  repeat split.
  - unfold handleFA. destruct params as [|c r]; [send_response|].
    destruct (parseFrequency (c :: r)) as [f|] eqn:E; [|apply command_effect_refl].
    apply parseFrequency_range in E. apply command_effect_with. in_range.
  - unfold handleFB. destruct params as [|c r]; [send_response|].
    destruct (parseFrequency (c :: r)) as [f|] eqn:E; [|apply command_effect_refl].
    apply parseFrequency_range in E. apply command_effect_with. in_range.
  - send_response.
  - send_response.
  - unfold handleMD. destruct params as [|c0 [|c1 r]];
      [send_response | apply command_effect_refl |].
    destruct (Z.leb_spec 1 (c1 - 48)), (Z.leb_spec (c1 - 48) 14); cbn [andb];
      try apply command_effect_refl.
    apply command_effect_with. in_range. destruct (currentVfo (state p)); in_range; lia.
  - unfold handlePS. destruct params; [send_response|].
    apply command_effect_with. in_range.
  - send_response.
  - unfold handleTX. destruct params; [send_response|].
    apply command_effect_with. in_range.
  - apply command_effect_with. in_range.
  - unfold handleVS. destruct params; [send_response|].
    apply command_effect_with. in_range.
  - unfold handleRI. destruct params; [send_response|].
    apply command_effect_with. in_range.
  - unfold handleXT. destruct params; [send_response|].
    apply command_effect_with. in_range.
  - unfold handleRD. destruct (4 <=? length params)%nat; apply command_effect_with; in_range;
      match goal with |- context [constrain ?a _ _] =>
        pose proof (constrain_range a (-9999) 9999 ltac:(lia)) end; lia.
  - unfold handleRU. destruct (4 <=? length params)%nat; apply command_effect_with; in_range;
      match goal with |- context [constrain ?a _ _] =>
        pose proof (constrain_range a (-9999) 9999 ltac:(lia)) end; lia.
  - unfold handleAG. destruct (length params <=? 1)%nat; [send_response|].
    destruct (4 <=? length params)%nat; [|apply command_effect_refl].
    apply command_effect_with; in_range.
    pose proof (constrain_range (atoi (drop 1 params)) 0 255 ltac:(lia)). lia.
  - unfold handleRG. destruct (length params <=? 1)%nat; [send_response|].
    destruct (4 <=? length params)%nat; [|apply command_effect_refl].
    apply command_effect_with; in_range.
    pose proof (constrain_range (atoi (drop 1 params)) 0 255 ltac:(lia)). lia.
  - unfold handleSQ. destruct (length params <=? 1)%nat; [send_response|].
    destruct (4 <=? length params)%nat; [|apply command_effect_refl].
    apply command_effect_with; in_range.
    pose proof (constrain_range (atoi (drop 1 params)) 0 100 ltac:(lia)). lia.
  - send_response.
Qed.

Lemma processCommand_effect p : command_effect p (processCommand p).
Proof.
  unfold processCommand.
  destruct (buffer p) as [|c0 [|c1 params]]; try apply command_effect_refl.
  pose proof (handlers_effect params p) as H.
  repeat match goal with
         | |- context [if ?b then _ else _] => destruct b; [tauto|]
         end.
  apply command_effect_refl.
Qed.

(** What one character of input does: it writes at most one response, and
    only when it is a terminator; settings in range stay in range; the
    buffer stays within [_buffer]. *)
Lemma update_char_effect c p :
  exists rs,
    responses_between p (update_char c p) rs /\
    (length rs <= terminators [c])%nat /\
    Forall (Forall response_char) rs /\
    (radio_in_range (state p) -> radio_in_range (state (update_char c p))) /\
    ((length (buffer p) < CAT_BUFFER_SIZE)%nat ->
     (length (buffer (update_char c p)) < CAT_BUFFER_SIZE)%nat).
Proof.
  unfold update_char, responses_between, terminators. cbn [List.filter].
  destruct (Z.eqb_spec c CAT_TERMINATOR) as [->|Hc].
  - cbn [length]. destruct (buffer p) as [|b0 br] eqn:Eb.
    + exists []. cbn [set_buffer serial_out state buffer map concat length].
      rewrite app_nil_r. unfold CAT_BUFFER_SIZE.
      refine (conj eq_refl (conj _ (conj (Forall_nil_2 _) (conj (fun H => H) _)))); lia.
    + destruct (processCommand_effect p) as (s' & rs & Eq & Hn & Hc & Hr).
      exists rs. rewrite Eq. cbn [set_buffer serial_out state buffer length].
      unfold CAT_BUFFER_SIZE. refine (conj eq_refl (conj Hn (conj Hc (conj Hr _)))). lia.
  - exists []. cbn [map concat length]. rewrite app_nil_r.
    destruct (c <? 32);
      [refine (conj eq_refl (conj _ (conj (Forall_nil_2 _) (conj (fun H => H) _)))); lia|].
    destruct (Nat.ltb_spec (length (buffer p)) (CAT_BUFFER_SIZE - 1));
      cbn [set_buffer serial_out state buffer];
      refine (conj eq_refl (conj _ (conj (Forall_nil_2 _) (conj (fun H => H) _)))); try lia.
    + rewrite length_app. cbn [length]. unfold CAT_BUFFER_SIZE in *. lia.
    + cbn [length]. unfold CAT_BUFFER_SIZE. lia.
Qed.

Lemma terminators_cons c input :
  terminators (c :: input) = (terminators [c] + terminators input)%nat.
Proof.
  unfold terminators. cbn [List.filter].
  destruct (c =? CAT_TERMINATOR); cbn [length]; lia.
Qed.

Lemma update_effect input : forall p,
  exists rs,
    responses_between p (update input p) rs /\
    (length rs <= terminators input)%nat /\
    Forall (Forall response_char) rs /\
    (radio_in_range (state p) -> radio_in_range (state (update input p))) /\
    ((length (buffer p) < CAT_BUFFER_SIZE)%nat ->
     (length (buffer (update input p)) < CAT_BUFFER_SIZE)%nat).
Proof.
  induction input as [|c input IH]; intros p.
  - exists []. unfold responses_between. cbn. rewrite app_nil_r.
    refine (conj eq_refl (conj _ (conj (Forall_nil_2 _) (conj (fun H => H) (fun H => H))))).
    lia.
  - change (update (c :: input) p) with (update input (update_char c p)).
    destruct (update_char_effect c p) as (rs1 & E1 & N1 & C1 & R1 & B1).
    destruct (IH (update_char c p)) as (rs2 & E2 & N2 & C2 & R2 & B2).
    exists (rs1 ++ rs2). unfold responses_between in *.
    rewrite E2, E1, map_app, concat_app, <- app_assoc.
    rewrite terminators_cons, length_app.
    refine (conj eq_refl (conj _ (conj _ (conj (fun H => R2 (R1 H)) (fun H => B2 (B1 H))))));
      [lia | apply Forall_app; split; assumption].
Qed.

(** No input drives a setting of the radio out of its range: whatever bytes
    arrive on the serial port, frequencies within [FREQ_MIN, FREQ_MAX],
    modes 1 to 14, a RIT offset within -9999 to +9999, a squelch 0 to 100
    and gains 0 to 255 stay so. *)
Theorem cat_input_keeps_settings_in_range (input : cstring) (p : CATParser) :
  radio_in_range (state p) -> radio_in_range (state (update input p)).
Proof.
  destruct (update_effect input p) as (rs & _ & _ & _ & H & _). exact H.
Qed.

Lemma cat_input_keeps_settings_in_range_witness :
  radio_in_range reset /\
  radio_in_range (state (update (str "FA999999999;MD0?;RU+20000;SQ0999;AG0-001;")
                                (mkCATParser reset [] []))).
Proof.
  assert (H : radio_in_range reset) by (vm_compute; repeat split; discriminate).
  split; [exact H|].
  exact (cat_input_keeps_settings_in_range _ (mkCATParser reset [] []) H).
Defined.

(** The command buffer never overflows: whatever bytes arrive, the number of
    buffered characters stays below [CAT_BUFFER_SIZE], so the terminating
    NUL written at [_buffer[_bufLen]] lies inside the array. *)
Theorem cat_buffer_never_overflows (input : cstring) (p : CATParser) :
  (length (buffer p) < CAT_BUFFER_SIZE)%nat ->
  (length (buffer (update input p)) < CAT_BUFFER_SIZE)%nat.
Proof.
  destruct (update_effect input p) as (rs & _ & _ & _ & _ & H). exact H.
Qed.

Lemma cat_buffer_never_overflows_witness :
  (length (buffer (update (replicate 200%nat 65%Z) (mkCATParser reset [] []))) < CAT_BUFFER_SIZE)%nat.
Proof.
  apply (cat_buffer_never_overflows (replicate 200%nat 65%Z) (mkCATParser reset [] [])).
  vm_compute. lia.
Defined.

(** The parser only ever appends to the serial output.  What it appends
    is a sequence of responses, each made of digits, capital letters and
    signs and followed by the terminator [;], at most one for each
    terminator received: the output gains no more terminators than the
    input holds. *)
Theorem cat_writes_one_terminated_response_per_command (input : cstring) (p : CATParser) :
  exists rs,
    serial_out (update input p)
    = serial_out p ++ concat (map (fun r => r ++ [CAT_TERMINATOR]) rs) /\
    Forall (Forall response_char) rs /\
    terminators (concat (map (fun r => r ++ [CAT_TERMINATOR]) rs)) = length rs /\
    (length rs <= terminators input)%nat.
Proof.
  destruct (update_effect input p) as (rs & E & N & C & _ & _). exists rs.
  split; [exact E|]. split; [exact C|]. split; [|exact N].
  clear E N. induction C as [|r rs Hr _ IH]; [reflexivity|].
  cbn [map concat length]. unfold terminators in *.
  rewrite !List.filter_app, !length_app, IH.
  assert (E : List.filter (fun c => c =? CAT_TERMINATOR) r = []).
  { clear IH. induction Hr as [|c r Hc _ IHr]; [reflexivity|].
    cbn [List.filter]. destruct (Z.eqb_spec c CAT_TERMINATOR) as [->|_]; [|exact IHr].
    unfold response_char, CAT_TERMINATOR in Hc. lia. }
  rewrite E. reflexivity.
Qed.

End CATInput.

(** ** Decimal fields *)

Section DecimalFields.
Import CLib Ref Ref2.

Lemma decimal_digits_S w v :
  decimal_digits (S w) v = decimal_digits w (v / 10) ++ [48 + v mod 10].
Proof.
  unfold decimal_digits. change (seq 0 (S w)) with (0%nat :: seq 1 w).
  cbn [rev]. rewrite map_app. cbn [map]. change (10 ^ Z.of_nat 0) with 1.
  rewrite Z.div_1_r. f_equal.
  rewrite <- seq_shift, <- map_rev, map_map. apply map_ext. intros i.
  rewrite Nat2Z.inj_succ, Z.pow_succ_r by lia.
  rewrite Z.div_div by (try apply Z.pow_pos_nonneg; lia). reflexivity.
Qed.

Lemma decimal_digits_length w v : length (decimal_digits w v) = w.
Proof. unfold decimal_digits. rewrite length_map, length_rev. apply length_seq. Qed.

Lemma decimal_digits_all_digits w v : all_digits (decimal_digits w v).
Proof.
  unfold decimal_digits. apply Forall_map, Forall_forall. intros i _. cbn beta.
  apply isdigit_spec. pose proof (Z.mod_pos_bound (v / 10 ^ Z.of_nat i) 10 ltac:(lia)). lia.
Qed.

Lemma decimal_digits_value w : forall v,
  0 <= v < 10 ^ Z.of_nat w -> decimal_value (decimal_digits w v) = v.
Proof.
  induction w as [|w IH]; intros v Hv.
  - change (10 ^ Z.of_nat 0) with 1 in Hv. replace v with 0 by lia. reflexivity.
  - rewrite decimal_digits_S, decimal_value_snoc.
    rewrite Nat2Z.inj_succ, Z.pow_succ_r in Hv by lia.
    rewrite IH.
    + pose proof (Z.div_mod v 10 ltac:(lia)). lia.
    + split; [apply Z.div_pos; lia | apply Z.div_lt_upper_bound; lia].
Qed.

(** ["%0<w>lu"] and ["%0<w>d"] print a number that fits [w] digits as its
    [w] decimal digits. *)
Lemma fmt_u_decimal_digits w v :
  (0 < w)%nat -> 0 <= v < 10 ^ Z.of_nat w -> fmt_u w v = decimal_digits w v.
Proof.
  intros Hw Hv.
  rewrite <- (decimal_digits_value w v Hv) at 1.
  rewrite <- (decimal_digits_length w v) at 1.
  apply fmt_u_decimal_value; [apply decimal_digits_all_digits|].
  intros E. apply (f_equal (@length Z)) in E. rewrite decimal_digits_length in E.
  cbn in E. lia.
Qed.

Lemma fmt_d_decimal_digits w v :
  (0 < w)%nat -> 0 <= v < 10 ^ Z.of_nat w -> fmt_d w v = decimal_digits w v.
Proof.
  intros Hw Hv. unfold fmt_d. destruct (Z.ltb_spec v 0); [lia|].
  apply fmt_u_decimal_digits; assumption.
Qed.

(** A digit string read back by [strtol] and [atoi]. *)
Lemma atoi_decimal_digits w v :
  (0 < w)%nat -> 0 <= v < 10 ^ Z.of_nat w -> v <= LONG_MAX ->
  atoi (decimal_digits w v) = v.
Proof.
  intros Hw Hv Hmax. unfold atoi.
  rewrite <- (app_nil_r (decimal_digits w v)).
  rewrite strtol_digits; [|apply decimal_digits_all_digits| |exact I].
  - rewrite decimal_digits_value by assumption. cbn [fst].
    destruct (Z.gtb_spec v LONG_MAX); [lia|].
    unfold to_int32, LONG_MAX in *. rewrite Z.mod_small by lia. lia.
  - intros E. apply (f_equal (@length Z)) in E. rewrite decimal_digits_length in E.
    cbn in E. lia.
Qed.

End DecimalFields.

(** ** CAT commands *)

Section CATCommands.
Import CLib Yaesu Ref Ref2.

(** Feeding a whole command line and its terminator. *)
Lemma update_line line p :
  buffer p = [] -> Forall buffered_as_is line -> line <> [] ->
  (length line <= CAT_BUFFER_SIZE - 1)%nat ->
  update (line ++ [CAT_TERMINATOR]) p
  = set_buffer [] (processCommand (set_buffer line p)).
Proof.
  intros Hb Hl Hne Hlen. rewrite update_app, (update_buffered line) by (rewrite ?Hb; assumption).
  rewrite Hb. cbn [app]. unfold update. cbn [fold_left]. unfold update_char.
  rewrite Z.eqb_refl. cbn [buffer set_buffer].
  destruct line; [contradiction | reflexivity].
Qed.

Lemma toupper_idempotent c : toupper (toupper c) = toupper c.
Proof.
  unfold toupper. destruct ((97 <=? c) && (c <=? 122)) eqn:E; [|rewrite E; reflexivity].
  apply andb_true_iff in E as [E1 E2]. apply Z.leb_le in E1, E2.
  destruct (Z.leb_spec 97 (c - 32)); [lia | reflexivity].
Qed.

Lemma update_char_toupper c p : update_char (toupper c) p = update_char c p.
Proof.
  unfold update_char. rewrite toupper_idempotent.
  assert (Ht : (toupper c =? CAT_TERMINATOR) = (c =? CAT_TERMINATOR)).
  { unfold toupper, CAT_TERMINATOR.
    destruct (Z.leb_spec 97 c), (Z.leb_spec c 122); cbn [andb]; try reflexivity.
    destruct (Z.eqb_spec (c - 32) 59), (Z.eqb_spec c 59); lia || reflexivity. }
  assert (Hc : (toupper c <? 32) = (c <? 32)).
  { unfold toupper.
    destruct (Z.leb_spec 97 c), (Z.leb_spec c 122); cbn [andb]; try reflexivity.
    destruct (Z.ltb_spec (c - 32) 32), (Z.ltb_spec c 32); lia || reflexivity. }
  rewrite Ht, Hc. reflexivity.
Qed.

(** Commands are case-insensitive: an input and the same input in upper
    case have the same effect, whatever the parser holds. *)
Theorem cat_commands_case_insensitive (input : cstring) (p : CATParser) :
  update (map toupper input) p = update input p.
Proof.
  revert p. induction input as [|c input IH]; intros p; [reflexivity|].
  cbn [map]. change (update (toupper c :: map toupper input) p)
    with (update (map toupper input) (update_char (toupper c) p)).
  rewrite IH, update_char_toupper. reflexivity.
Qed.

(** Control characters (codes below 32: CR, LF, TAB, NUL, ...) are dropped
    wherever they occur: removing them from an input does not change its
    effect. *)
Theorem cat_control_characters_ignored (input : cstring) (p : CATParser) :
  update (List.filter (fun c => negb (c <? 32)) input) p = update input p.
Proof.
  revert p. induction input as [|c input IH]; intros p; [reflexivity|].
  cbn [List.filter]. change (update (c :: input) p) with (update input (update_char c p)).
  destruct (Z.ltb_spec c 32) as [Hc|Hc]; cbn [negb].
  - rewrite IH. f_equal. unfold update_char, CAT_TERMINATOR.
    destruct (Z.eqb_spec c 59); [lia|]. destruct (Z.ltb_spec c 32); [reflexivity | lia].
  - change (update (c :: List.filter (fun c => negb (c <? 32)) input) p)
      with (update (List.filter (fun c => negb (c <? 32)) input) (update_char c p)).
    apply IH.
Qed.

Ltac eval_strs :=
  repeat match goal with
         | |- context [str ?s] => let l := eval vm_compute in (str s) in change (str s) with l
         end.

Ltac buffered_text :=
  eval_strs; repeat (constructor; [unfold buffered_as_is, CAT_TERMINATOR; lia|]); constructor.







(** *** Writes and the reads that follow them *)

Lemma digits_buffered ds : all_digits ds -> Forall buffered_as_is ds.
Proof. intros H. eapply Forall_impl; [exact H | intros; apply digit_buffered_as_is; assumption]. Qed.

Lemma snprintf_fits size text : (length text < size)%nat -> snprintf size text = text.
Proof. intros H. unfold snprintf. apply take_ge. lia. Qed.

Lemma fb_write_digits ds p :
  buffer p = [] -> all_digits ds -> ds <> [] -> (length ds <= 60)%nat ->
  FREQ_MIN <= decimal_value ds <= FREQ_MAX ->
  update (str "FB" ++ ds ++ str ";") p
  = mkCATParser (set_freqVfoB (decimal_value ds) (state p)) (serial_out p) [].
Proof.
  intros Hb Hd Hne Hlen Hr.
  change (str "FB") with [70; 66]. change (str ";") with [CAT_TERMINATOR].
  rewrite update_command; try assumption; try (unfold buffered_as_is, CAT_TERMINATOR; lia).
  change (processCommand (set_buffer (70 :: 66 :: ds) p))
    with (handleFB ds (set_buffer (70 :: 66 :: ds) p)).
  unfold handleFB. rewrite parseFrequency_digits by assumption.
  destruct (Z.ltb_spec (decimal_value ds) FREQ_MIN); [lia|].
  destruct (Z.gtb_spec (decimal_value ds) FREQ_MAX); [lia|].
  destruct ds; [contradiction | reflexivity].
Qed.

(** FB write-then-read round trip.  For every frequency [f] within
    [FREQ_MIN, FREQ_MAX], the command [FB] with the nine decimal digits of
    [f] sets VFO-B to [f], leaves VFO-A alone and answers nothing; [FB;]
    then answers [FB], the same nine digits and [;]. *)
Theorem fb_write_then_read_roundtrip (p : CATParser) (f : Z) :
  buffer p = [] ->
  FREQ_MIN <= f <= FREQ_MAX ->
  let p1 := update (str "FB" ++ decimal_digits 9 f ++ str ";") p in
  let p2 := update (str "FB;") p1 in
  serial_out p1 = serial_out p /\
  freqVfoB (state p1) = f /\
  freqVfoA (state p1) = freqVfoA (state p) /\
  serial_out p2 = serial_out p1 ++ str "FB" ++ decimal_digits 9 f ++ str ";".
Proof.
  intros Hb Hr p1 p2.
  assert (Hf : 0 <= f < 10 ^ Z.of_nat 9) by (unfold FREQ_MIN, FREQ_MAX in Hr; cbn; lia).
  assert (E1 : p1 = mkCATParser (set_freqVfoB f (state p)) (serial_out p) []).
  { subst p1. rewrite fb_write_digits; rewrite ?decimal_digits_value by exact Hf;
      try assumption; try apply decimal_digits_all_digits.
    - reflexivity.
    - intros E. apply (f_equal (@length Z)) in E. discriminate E.
    - rewrite decimal_digits_length. lia. }
  rewrite E1. cbn [serial_out state freqVfoA freqVfoB set_freqVfoB].
  split; [reflexivity|]. split; [reflexivity|]. split; [reflexivity|].
  subst p2. rewrite E1.
  change (str "FB;") with ([70; 66] ++ [CAT_TERMINATOR]).
  rewrite update_line; [|reflexivity|buffered_text|discriminate|cbn; lia].
  change (processCommand (set_buffer [70; 66] ?q)) with (handleFB [] (set_buffer [70; 66] q)).
  unfold handleFB. cbn [sendResponse set_buffer serial_out state freqVfoB set_freqVfoB].
  rewrite fmt_u_decimal_digits by (lia || exact Hf).
  rewrite snprintf_fits by (rewrite length_app, decimal_digits_length; cbn; lia).
  rewrite <- !app_assoc. reflexivity.
Qed.

Lemma fb_write_then_read_roundtrip_witness :
  let p := mkCATParser reset [] [] in
  decimal_digits 9 145500000 = str "145500000" /\
  serial_out (update (str "FB;") (update (str "FB145500000;") p)) = str "FB145500000;".
Proof.
  cbv zeta. split; [reflexivity|].
  assert (Hr : FREQ_MIN <= 145500000 <= FREQ_MAX) by (unfold FREQ_MIN, FREQ_MAX; lia).
  exact (proj2 (proj2 (proj2 (fb_write_then_read_roundtrip (mkCATParser reset [] [])
                                145500000 eq_refl Hr)))).
Defined.

Lemma fmt_plus_d_decimal_digits w v :
  (0 < w)%nat -> Z.abs v < 10 ^ Z.of_nat w ->
  fmt_plus_d (S w) v = (if v <? 0 then 45 else 43) :: decimal_digits w (Z.abs v).
Proof.
  intros Hw Hv. unfold fmt_plus_d. f_equal.
  replace (S w - 1)%nat with w by lia.
  apply (fmt_u_decimal_digits w (Z.abs v)); lia.
Qed.

(** The answer to [IF;].  With the settings in range, it is [IF], the nine
    digits of the frequency of the selected VFO, the sign and four digits of
    the RIT offset (of 0 when RIT is off), [0], the two digits of the mode
    of the selected VFO and ten zeros; the state does not change. *)
Theorem if_reports_selected_vfo_and_rit (p : CATParser) :
  buffer p = [] -> radio_in_range (state p) ->
  let s := state p in
  let rit := if ritOn s then ritOffset s else 0 in
  update (str "IF;") p
  = mkCATParser s
      (serial_out p ++ str "IF" ++ decimal_digits 9 (getCurrentFreq s)
       ++ [if rit <? 0 then 45 else 43] ++ decimal_digits 4 (Z.abs rit)
       ++ str "0" ++ decimal_digits 2 (getCurrentMode s) ++ str "0000000000" ++ str ";")
      [].
Proof.
  intros Hb (HfA & HfB & HmA & HmB & Hrit & _) s rit.
  change (str "IF;") with ([73; 70] ++ [CAT_TERMINATOR]).
  rewrite update_line; [|assumption|buffered_text|discriminate|cbn; lia].
  change (processCommand (set_buffer [73; 70] p)) with (handleIF [] (set_buffer [73; 70] p)).
  unfold handleIF, formatIF, sendResponse. cbn [set_buffer state serial_out buffer].
  fold s. fold rit.
  assert (Hf : 0 <= getCurrentFreq s < 10 ^ Z.of_nat 9).
  { unfold getCurrentFreq, FREQ_MIN, FREQ_MAX in *. fold s in HfA, HfB.
    destruct (currentVfo s); cbn; lia. }
  assert (Hm : 1 <= getCurrentMode s <= 14).
  { unfold getCurrentMode. fold s in HmA, HmB. destruct (currentVfo s); lia. }
  assert (Hr : Z.abs rit < 10 ^ Z.of_nat 4).
  { subst rit. fold s in Hrit. destruct (ritOn s); cbn; lia. }
  rewrite fmt_u_decimal_digits by (lia || exact Hf).
  rewrite (fmt_plus_d_decimal_digits 4) by (lia || exact Hr).
  unfold to_uint8. rewrite (Z.mod_small (getCurrentMode s)) by lia.
  rewrite fmt_d_decimal_digits by (cbn; lia).
  rewrite snprintf_fits.
  - unfold CAT_TERMINATOR. change (str ";") with [59].
    f_equal; rewrite <- ?app_assoc; reflexivity.
  - rewrite !length_app. cbn [length]. rewrite !decimal_digits_length. cbn. lia.
Qed.

Lemma if_reports_selected_vfo_and_rit_witness :
  serial_out (update (str "IF;") (mkCATParser reset [] []))
  = str "IF014074000+00000020000000000;".
Proof.
  assert (H : radio_in_range reset) by (vm_compute; repeat split; discriminate).
  rewrite (if_reports_selected_vfo_and_rit (mkCATParser reset [] []) eq_refl H).
  reflexivity.
Defined.

Lemma gain_write p c0 c1 v :
  buffer p = [] -> buffered_as_is c0 -> buffered_as_is c1 -> 0 <= v < 1000 ->
  update ([c0; c1] ++ str "0" ++ decimal_digits 3 v ++ [CAT_TERMINATOR]) p
  = set_buffer [] (processCommand (set_buffer ([c0; c1] ++ str "0" ++ decimal_digits 3 v) p)) /\
  atoi (drop 1 (str "0" ++ decimal_digits 3 v)) = v.
Proof.
  intros Hb H0 H1 Hv. split.
  - rewrite !app_assoc. rewrite update_line; try assumption.
    + reflexivity.
    + apply Forall_app; split; [|apply digits_buffered, decimal_digits_all_digits].
      constructor; [exact H0|]. constructor; [exact H1|]. buffered_text.
    + discriminate.
    + rewrite !length_app, decimal_digits_length. cbn. lia.
  - change (drop 1 (str "0" ++ decimal_digits 3 v)) with (decimal_digits 3 v).
    apply atoi_decimal_digits; unfold LONG_MAX; cbn; lia.
Qed.

Lemma gain_read p c0 c1 :
  buffer p = [] -> buffered_as_is c0 -> buffered_as_is c1 ->
  update ([c0; c1] ++ str "0" ++ [CAT_TERMINATOR]) p
  = set_buffer [] (processCommand (set_buffer ([c0; c1] ++ str "0") p)).
Proof.
  intros Hb H0 H1. rewrite !app_assoc. rewrite update_line; try assumption.
  - reflexivity.
  - constructor; [exact H0|]. constructor; [exact H1|]. buffered_text.
  - discriminate.
  - cbn. lia.
Qed.

Lemma constrain_id v low high : low <= v <= high -> constrain v low high = v.
Proof.
  intros H. unfold constrain. destruct (Z.ltb_spec v low); [lia|].
  destruct (Z.gtb_spec v high); [lia | reflexivity].
Qed.

(** Gain and squelch write-then-read round trips.  For a value within the
    range of the setting (0 to 255 for the AF and RF gain, 0 to 100 for the
    squelch), the write with [0] and the three digits of the value sets the
    setting to that value and answers nothing; the read ([AG0;], [RG0;],
    [SQ0;]) then answers with the same three digits. *)
Theorem gain_write_then_read_roundtrip (p : CATParser) (v : Z) :
  buffer p = [] ->
  (0 <= v <= 255 ->
   let p1 := update (str "AG0" ++ decimal_digits 3 v ++ str ";") p in
   afGain (state p1) = v /\ serial_out p1 = serial_out p /\
   serial_out (update (str "AG0;") p1)
   = serial_out p ++ str "AG0" ++ decimal_digits 3 v ++ str ";") /\
  (0 <= v <= 255 ->
   let p1 := update (str "RG0" ++ decimal_digits 3 v ++ str ";") p in
   rfGain (state p1) = v /\ serial_out p1 = serial_out p /\
   serial_out (update (str "RG0;") p1)
   = serial_out p ++ str "RG0" ++ decimal_digits 3 v ++ str ";") /\
  (0 <= v <= 100 ->
   let p1 := update (str "SQ0" ++ decimal_digits 3 v ++ str ";") p in
   squelch (state p1) = v /\ serial_out p1 = serial_out p /\
   serial_out (update (str "SQ0;") p1)
   = serial_out p ++ str "SQ0" ++ decimal_digits 3 v ++ str ";").
Proof.
  intros Hb.
  assert (Hbuf : forall c, In c [65; 71; 82; 83; 81] -> buffered_as_is c).
  { intros c Hc. cbn in Hc. unfold buffered_as_is, CAT_TERMINATOR. lia. }
  split; [|split]; intros Hv p1.
  - destruct (gain_write p 65 71 v Hb) as [Ew Ea];
      [apply Hbuf; cbn; tauto | apply Hbuf; cbn; tauto | lia |].
    assert (E1 : p1 = mkCATParser (set_afGain v (state p)) (serial_out p) []).
    { subst p1. change (str "AG0") with ([65; 71] ++ str "0"). change (str ";") with [CAT_TERMINATOR].
      rewrite <- !app_assoc, Ew.
      change (processCommand (set_buffer ([65; 71] ++ ?l) p))
        with (handleAG l (set_buffer ([65; 71] ++ l) p)).
      unfold handleAG. rewrite length_app, decimal_digits_length. cbn [length Nat.add Nat.leb].
      rewrite Ea, constrain_id by lia. reflexivity. }
    rewrite E1. cbn [state serial_out afGain set_afGain].
    split; [reflexivity|]. split; [reflexivity|].
    change (str "AG0;") with ([65; 71] ++ str "0" ++ [CAT_TERMINATOR]).
    rewrite gain_read; [|reflexivity|apply Hbuf; cbn; tauto|apply Hbuf; cbn; tauto].
    change (processCommand (set_buffer ([65; 71] ++ ?l) ?q))
      with (handleAG l (set_buffer ([65; 71] ++ l) q)).
    unfold handleAG. cbn [length Nat.leb sendResponse set_buffer serial_out state afGain set_afGain].
    rewrite fmt_d_decimal_digits by (cbn; lia).
    rewrite snprintf_fits by (rewrite length_app, decimal_digits_length; cbn; lia).
    rewrite <- ?app_assoc; reflexivity.
  - destruct (gain_write p 82 71 v Hb) as [Ew Ea];
      [apply Hbuf; cbn; tauto | apply Hbuf; cbn; tauto | lia |].
    assert (E1 : p1 = mkCATParser (set_rfGain v (state p)) (serial_out p) []).
    { subst p1. change (str "RG0") with ([82; 71] ++ str "0"). change (str ";") with [CAT_TERMINATOR].
      rewrite <- !app_assoc, Ew.
      change (processCommand (set_buffer ([82; 71] ++ ?l) p))
        with (handleRG l (set_buffer ([82; 71] ++ l) p)).
      unfold handleRG. rewrite length_app, decimal_digits_length. cbn [length Nat.add Nat.leb].
      rewrite Ea, constrain_id by lia. reflexivity. }
    rewrite E1. cbn [state serial_out rfGain set_rfGain].
    split; [reflexivity|]. split; [reflexivity|].
    change (str "RG0;") with ([82; 71] ++ str "0" ++ [CAT_TERMINATOR]).
    rewrite gain_read; [|reflexivity|apply Hbuf; cbn; tauto|apply Hbuf; cbn; tauto].
    change (processCommand (set_buffer ([82; 71] ++ ?l) ?q))
      with (handleRG l (set_buffer ([82; 71] ++ l) q)).
    unfold handleRG. cbn [length Nat.leb sendResponse set_buffer serial_out state rfGain set_rfGain].
    rewrite fmt_d_decimal_digits by (cbn; lia).
    rewrite snprintf_fits by (rewrite length_app, decimal_digits_length; cbn; lia).
    rewrite <- ?app_assoc; reflexivity.
  - destruct (gain_write p 83 81 v Hb) as [Ew Ea];
      [apply Hbuf; cbn; tauto | apply Hbuf; cbn; tauto | lia |].
    assert (E1 : p1 = mkCATParser (set_squelch v (state p)) (serial_out p) []).
    { subst p1. change (str "SQ0") with ([83; 81] ++ str "0"). change (str ";") with [CAT_TERMINATOR].
      rewrite <- !app_assoc, Ew.
      change (processCommand (set_buffer ([83; 81] ++ ?l) p))
        with (handleSQ l (set_buffer ([83; 81] ++ l) p)).
      unfold handleSQ. rewrite length_app, decimal_digits_length. cbn [length Nat.add Nat.leb].
      rewrite Ea, constrain_id by lia. reflexivity. }
    rewrite E1. cbn [state serial_out squelch set_squelch].
    split; [reflexivity|]. split; [reflexivity|].
    change (str "SQ0;") with ([83; 81] ++ str "0" ++ [CAT_TERMINATOR]).
    rewrite gain_read; [|reflexivity|apply Hbuf; cbn; tauto|apply Hbuf; cbn; tauto].
    change (processCommand (set_buffer ([83; 81] ++ ?l) ?q))
      with (handleSQ l (set_buffer ([83; 81] ++ l) q)).
    unfold handleSQ. cbn [length Nat.leb sendResponse set_buffer serial_out state squelch set_squelch].
    rewrite fmt_d_decimal_digits by (cbn; lia).
    rewrite snprintf_fits by (rewrite length_app, decimal_digits_length; cbn; lia).
    rewrite <- ?app_assoc; reflexivity.
Qed.

Lemma gain_write_then_read_roundtrip_witness :
  let p := mkCATParser reset [] [] in
  serial_out (update (str "AG0;") (update (str "AG0042;") p)) = str "AG0042;" /\
  serial_out (update (str "SQ0;") (update (str "SQ0100;") p)) = str "SQ0100;".
Proof.
  cbv zeta.
  destruct (gain_write_then_read_roundtrip (mkCATParser reset [] []) 42 eq_refl)
    as (Hag & _ & _).
  destruct (gain_write_then_read_roundtrip (mkCATParser reset [] []) 100 eq_refl)
    as (_ & _ & Hsq).
  split.
  - exact (proj2 (proj2 (Hag ltac:(lia)))).
  - exact (proj2 (proj2 (Hsq ltac:(lia)))).
Defined.

(** *** RIT steps *)

Lemma ru_step p :
  buffer p = [] ->
  update (str "RU;") p
  = mkCATParser (set_ritOffset (constrain (ritOffset (state p) + 10) (-9999) 9999) (state p))
                (serial_out p) [].
Proof.
  intros Hb. change (str "RU;") with ([82; 85] ++ [CAT_TERMINATOR]).
  rewrite update_line; [|assumption|buffered_text|discriminate|cbn; lia]. reflexivity.
Qed.

Lemma rd_step p :
  buffer p = [] ->
  update (str "RD;") p
  = mkCATParser (set_ritOffset (constrain (ritOffset (state p) - 10) (-9999) 9999) (state p))
                (serial_out p) [].
Proof.
  intros Hb. change (str "RD;") with ([82; 68] ++ [CAT_TERMINATOR]).
  rewrite update_line; [|assumption|buffered_text|discriminate|cbn; lia]. reflexivity.
Qed.

(** RIT steps add up and saturate: [k] commands [RU;] raise the RIT offset
    by [10 k] Hz but not beyond +9999, and [k] commands [RD;] lower it by
    [10 k] Hz but not beyond -9999. *)
Theorem rit_steps_saturate (k : nat) (p : CATParser) :
  buffer p = [] -> -9999 <= ritOffset (state p) <= 9999 ->
  ritOffset (state (update (concat (replicate k (str "RU;"))) p))
  = Z.min 9999 (ritOffset (state p) + 10 * Z.of_nat k) /\
  ritOffset (state (update (concat (replicate k (str "RD;"))) p))
  = Z.max (-9999) (ritOffset (state p) - 10 * Z.of_nat k).
Proof.
  revert p. induction k as [|k IH]; intros p Hb Hr.
  - cbn [replicate concat]. unfold update. cbn [fold_left]. lia.
  - cbn [replicate concat]. rewrite !update_app, ru_step, rd_step by exact Hb.
    pose proof (constrain_range (ritOffset (state p) + 10) (-9999) 9999 ltac:(lia)) as Hu.
    pose proof (constrain_range (ritOffset (state p) - 10) (-9999) 9999 ltac:(lia)) as Hd.
    split.
    + match goal with |- context [update _ ?q] =>
        rewrite (proj1 (IH q eq_refl Hu)) end.
      cbn [state ritOffset set_ritOffset].
      unfold constrain. destruct (Z.ltb_spec (ritOffset (state p) + 10) (-9999)); [lia|].
      destruct (Z.gtb_spec (ritOffset (state p) + 10) 9999); lia.
    + match goal with |- context [update _ ?q] =>
        rewrite (proj2 (IH q eq_refl Hd)) end.
      cbn [state ritOffset set_ritOffset].
      unfold constrain. destruct (Z.ltb_spec (ritOffset (state p) - 10) (-9999)); [lia|].
      destruct (Z.gtb_spec (ritOffset (state p) - 10) 9999); lia.
Qed.

Lemma rit_steps_saturate_witness :
  let p := mkCATParser reset [] [] in
  ritOffset (state (update (concat (replicate 3 (str "RU;"))) p)) = 30 /\
  ritOffset (state (update (concat (replicate 1200 (str "RD;"))) p)) = -9999.
Proof.
  cbv zeta.
  assert (Hr : -9999 <= ritOffset (state (mkCATParser reset [] [])) <= 9999) by (cbn; lia).
  split.
  - exact (proj1 (rit_steps_saturate 3 (mkCATParser reset [] []) eq_refl Hr)).
  - exact (proj2 (rit_steps_saturate 1200 (mkCATParser reset [] []) eq_refl Hr)).
Defined.

End CATCommands.

(** ** Order of floating-point numbers *)

Section FloatOrder.

Ltac cmp_cases :=
  repeat match goal with
         | H : context [Z.compare ?a ?b] |- _ => destruct (Z.compare_spec a b)
         | |- context [Z.compare ?a ?b] => destruct (Z.compare_spec a b)
         | H : context [Pos.compare_cont Eq ?a ?b] |- _ =>
             change (Pos.compare_cont Eq a b) with (Pos.compare a b) in H
         | |- context [Pos.compare_cont Eq ?a ?b] =>
             change (Pos.compare_cont Eq a b) with (Pos.compare a b)
         | H : context [Pos.compare ?a ?b] |- _ => destruct (Pos.compare_spec a b)
         | |- context [Pos.compare ?a ?b] => destruct (Pos.compare_spec a b)
         end.

Ltac float_cases :=
  unfold SFleb, SFltb, SFcompare;
  repeat match goal with x : spec_float |- _ => destruct x as [[|]|[|]| |[|] ? ?] end;
  cbn; try discriminate; try reflexivity;
  intros; cmp_cases; cbn in *; try discriminate; try reflexivity; try lia.

Lemma SFleb_SFltb_trans (a b c : spec_float) :
  SFleb a b = true -> SFltb b c = true -> SFleb a c = true.
Proof. float_cases. Qed.

Lemma SFltb_SFleb_trans (a b c : spec_float) :
  SFltb a b = true -> SFleb b c = true -> SFleb a c = true.
Proof. float_cases. Qed.

Lemma SFleb_not_SFltb (a b : spec_float) : SFleb a b = true -> SFltb b a = false.
Proof. float_cases. Qed.

Lemma SFltb_not_SFleb (a b : spec_float) : SFltb a b = true -> SFleb b a = false.
Proof. float_cases. Qed.

(** Two numbers neither of which is below the other are equal. *)
Lemma SFltb_total (a b c : spec_float) :
  SFleb c a = true -> SFleb b b = true ->
  SFltb a b = false -> SFltb b a = false -> SFcompare a b = Some Eq.
Proof. float_cases. Qed.

Lemma SFleb_refl_eq (a : spec_float) : SFleb a a = true -> SFcompare a a = Some Eq.
Proof. float_cases. Qed.

(** A number that compares with another one is not a NaN. *)
Lemma SFleb_SFltb_refl (c a : spec_float) : SFleb c a = true -> SFleb a a = true.
Proof. float_cases. Qed.

End FloatOrder.

(** ** The GS-232 parser on arbitrary input *)

Section GS232Input.
Import CLib G5500 Ref Ref2.

Lemma parser_update_app a b p :
  parser_update (a ++ b) p = parser_update b (parser_update a p).
Proof. apply fold_left_app. Qed.

(** The command buffer never overflows: whatever bytes arrive, the number of
    buffered characters stays below [CAT_BUFFER_SIZE], so the terminating
    NUL written at [_buffer[_bufLen]] lies inside the array. *)
Theorem gs232_buffer_never_overflows (input : cstring) (p : GS232Parser) :
  (length (buffer p) < CAT_BUFFER_SIZE)%nat ->
  (length (buffer (parser_update input p)) < CAT_BUFFER_SIZE)%nat.
Proof.
  revert p. induction input as [|c input IH]; intros p Hp; [exact Hp|].
  change (parser_update (c :: input) p) with (parser_update input (update_char c p)).
  apply IH. unfold update_char.
  destruct ((c =? GS232_CR) || (c =? GS232_LF)).
  - destruct (buffer p) eqn:Eb; [rewrite Eb; exact Hp|]. cbn. unfold CAT_BUFFER_SIZE. lia.
  - destruct (Nat.ltb_spec (length (buffer p)) (CAT_BUFFER_SIZE - 1)); cbn [andb]; [|exact Hp].
    destruct ((32 <=? c) && (c <? 127)); [|exact Hp].
    cbn [buffer set_buffer]. rewrite length_app. cbn [length]. unfold CAT_BUFFER_SIZE in *. lia.
Qed.

Lemma gs232_buffer_never_overflows_witness :
  (length (buffer (parser_update (replicate 200%nat 65%Z) (mkGS232Parser reset [] [])))
   < CAT_BUFFER_SIZE)%nat.
Proof.
  apply (gs232_buffer_never_overflows (replicate 200%nat 65%Z) (mkGS232Parser reset [] [])).
  vm_compute. lia.
Defined.

Lemma update_char_terminator_buffer c p :
  c = GS232_CR \/ c = GS232_LF -> buffer (update_char c p) = [].
Proof.
  intros Hc. unfold update_char.
  replace ((c =? GS232_CR) || (c =? GS232_LF)) with true
    by (destruct Hc as [-> | ->]; reflexivity).
  destruct (buffer p) eqn:Eb; [exact Eb | reflexivity].
Qed.

(** A command ended by CR LF is processed once: the LF that follows the CR
    finds the buffer empty and does nothing. *)
Theorem gs232_cr_lf_processes_once (input : cstring) (p : GS232Parser) :
  parser_update (input ++ [GS232_CR; GS232_LF]) p = parser_update (input ++ [GS232_CR]) p.
Proof.
  change [GS232_CR; GS232_LF] with ([GS232_CR] ++ [GS232_LF]).
  rewrite app_assoc, (parser_update_app (input ++ [GS232_CR])), parser_update_app.
  generalize (parser_update input p). intros q.
  set (q1 := parser_update [GS232_CR] q).
  assert (Hb : buffer q1 = []) by (apply update_char_terminator_buffer; left; reflexivity).
  change (parser_update [GS232_LF] q1) with (update_char GS232_LF q1).
  unfold update_char.
  change ((GS232_LF =? GS232_CR) || (GS232_LF =? GS232_LF)) with true.
  rewrite Hb. reflexivity.
Qed.

Lemma gs232_update_char_toupper c p : update_char (toupper c) p = update_char c p.
Proof.
  unfold update_char.
  destruct ((97 <=? c) && (c <=? 122)) eqn:E.
  - apply andb_true_iff in E as [E1 E2]. apply Z.leb_le in E1, E2.
    assert (Ht : toupper c = c - 32).
    { unfold toupper. destruct (Z.leb_spec 97 c), (Z.leb_spec c 122); cbn [andb]; lia. }
    assert (Ht2 : toupper (c - 32) = c - 32).
    { unfold toupper. destruct (Z.leb_spec 97 (c - 32)); [lia | reflexivity]. }
    rewrite Ht, Ht2. unfold GS232_CR, GS232_LF.
    destruct (Z.eqb_spec (c - 32) 13); [lia|]. destruct (Z.eqb_spec (c - 32) 10); [lia|].
    destruct (Z.eqb_spec c 13); [lia|]. destruct (Z.eqb_spec c 10); [lia|]. cbn [orb].
    destruct (Z.leb_spec 32 (c - 32)); [|lia]. destruct (Z.ltb_spec (c - 32) 127); [|lia].
    destruct (Z.leb_spec 32 c); [|lia]. destruct (Z.ltb_spec c 127); [|lia].
    reflexivity.
  - assert (Ht : toupper c = c) by (unfold toupper; rewrite E; reflexivity).
    rewrite !Ht. reflexivity.
Qed.

(** Commands are case-insensitive: an input and the same input in upper
    case have the same effect, whatever the parser holds. *)
Theorem gs232_commands_case_insensitive (input : cstring) (p : GS232Parser) :
  parser_update (map toupper input) p = parser_update input p.
Proof.
  revert p. induction input as [|c input IH]; intros p; [reflexivity|].
  cbn [map]. change (parser_update (toupper c :: map toupper input) p)
    with (parser_update (map toupper input) (update_char (toupper c) p)).
  rewrite IH, gs232_update_char_toupper. reflexivity.
Qed.

Lemma take_map {A B} (f : A -> B) n : forall l, take n (map f l) = map f (take n l).
Proof.
  induction n as [|n IH]; intros [|x l]; cbn; try reflexivity. rewrite IH. reflexivity.
Qed.

Lemma parser_update_printable line : forall p,
  Forall printable line -> (length (buffer p) <= CAT_BUFFER_SIZE - 1)%nat ->
  parser_update line p
  = set_buffer (take (CAT_BUFFER_SIZE - 1) (buffer p ++ map toupper line)) p.
Proof.
  unfold CAT_BUFFER_SIZE.
  induction line as [|c line IH]; intros p Hl Hb.
  - cbn [map parser_update fold_left]. rewrite app_nil_r, take_ge by lia.
    destruct p; reflexivity.
  - apply Forall_cons in Hl as [Hc Hl]. unfold printable in Hc.
    change (parser_update (c :: line) p) with (parser_update line (update_char c p)).
    unfold update_char, GS232_CR, GS232_LF.
    destruct (Z.eqb_spec c 13); [lia|]. destruct (Z.eqb_spec c 10); [lia|]. cbn [orb].
    destruct (Z.leb_spec 32 c); [|lia]. destruct (Z.ltb_spec c 127); [|lia].
    rewrite !andb_true_r.
    destruct (Nat.ltb_spec (length (buffer p)) (CAT_BUFFER_SIZE - 1)) as [Hlt|Hge];
      unfold CAT_BUFFER_SIZE in *.
    + rewrite IH; [|exact Hl|cbn [buffer set_buffer]; rewrite length_app; cbn; lia].
      cbn [buffer set_buffer map]. rewrite <- app_assoc. reflexivity.
    + rewrite IH by assumption. cbn [map].
      rewrite !take_app_le by lia. reflexivity.
Qed.

(** A line longer than the buffer is cut, not wrapped: of a line of
    printable characters only the first 63 are kept, and the command is
    processed as if the line had ended there. *)
Theorem gs232_overlong_line_truncated (line : cstring) (p : GS232Parser) :
  buffer p = [] -> Forall printable line ->
  parser_update (line ++ [GS232_CR]) p
  = parser_update (take (CAT_BUFFER_SIZE - 1) line ++ [GS232_CR]) p.
Proof.
  intros Hb Hl. rewrite !parser_update_app. f_equal.
  rewrite !parser_update_printable; rewrite ?Hb; cbn [length app];
    try lia; try assumption; try (apply Forall_take; assumption).
  f_equal. rewrite !take_map, take_take. reflexivity.
Qed.

Lemma gs232_overlong_line_truncated_witness :
  let p := mkGS232Parser reset [] [] in
  parser_update (str "C2" ++ replicate 70%nat 32%Z ++ str "junk" ++ [GS232_CR]) p
  = parser_update (str "C2" ++ replicate 61%nat 32%Z ++ [GS232_CR]) p.
Proof.
  cbv zeta.
  assert (Hl : Forall printable (str "C2" ++ replicate 70%nat 32%Z ++ str "junk")).
  { apply Forall_forall. intros c Hc. apply list_elem_of_In in Hc.
    rewrite !in_app_iff in Hc. unfold printable.
    destruct Hc as [Hc|[Hc|Hc]].
    - vm_compute in Hc. lia.
    - apply list_elem_of_In, elem_of_replicate in Hc. lia.
    - vm_compute in Hc. lia. }
  pose proof (gs232_overlong_line_truncated _ (mkGS232Parser reset [] []) eq_refl Hl) as H.
  rewrite <- !app_assoc in H. exact H.
Defined.

End GS232Input.

(** ** The rotator: goto commands for any target, position reports, stop *)

Section RotatorGoto.
Import CLib G5500 Ref Ref2.

(** *** Whole degrees as floats *)

Lemma whole_azimuth a :
  0 <= a <= 450 ->
  SFleb AZ_MIN (F32.of_Z a) = true /\ SFleb (F32.of_Z a) AZ_MAX = true /\
  F32.to_int (F32.add (F32.of_Z a) half) = a.
Proof.
  intros Ha.
  pose proof (Z_range_forallb
                (fun a => SFleb AZ_MIN (F32.of_Z a) && SFleb (F32.of_Z a) AZ_MAX
                          && (F32.to_int (F32.add (F32.of_Z a) half) =? a))
                451 ltac:(vm_compute; reflexivity) a ltac:(lia)) as H.
  cbn beta in H. apply andb_true_iff in H as [H H3]. apply andb_true_iff in H as [H1 H2].
  apply Z.eqb_eq in H3. auto.
Qed.

Lemma whole_elevation e :
  0 <= e <= 180 ->
  SFleb EL_MIN (F32.of_Z e) = true /\ SFleb (F32.of_Z e) EL_MAX = true /\
  F32.to_int (F32.add (F32.of_Z e) half) = e.
Proof.
  intros He.
  pose proof (Z_range_forallb
                (fun e => SFleb EL_MIN (F32.of_Z e) && SFleb (F32.of_Z e) EL_MAX
                          && (F32.to_int (F32.add (F32.of_Z e) half) =? e))
                181 ltac:(vm_compute; reflexivity) e ltac:(lia)) as H.
  cbn beta in H. apply andb_true_iff in H as [H H3]. apply andb_true_iff in H as [H1 H2].
  apply Z.eqb_eq in H3. auto.
Qed.

Lemma constrain_within t lo hi :
  SFleb lo t = true -> SFleb t hi = true -> F32.constrain t lo hi = t.
Proof.
  intros H1 H2. unfold F32.constrain, F32.lt, F32.gt.
  rewrite (SFleb_not_SFltb lo t H1), (SFleb_not_SFltb t hi H2). reflexivity.
Qed.

(** *** The goto functions of the state *)

Lemma gotoAzimuth_any t s :
  SFleb AZ_MIN t = true -> SFleb t AZ_MAX = true ->
  SFleb AZ_MIN (azimuth s) = true ->
  let s' := gotoAzimuth t s in
  targetAzimuth s' = t /\ (az_at t s' \/ az_under_way_to t s') /\
  azimuth s' = azimuth s /\ elevation s' = elevation s /\
  targetElevation s' = targetElevation s /\ elRotation s' = elRotation s /\
  elGotoMode s' = elGotoMode s /\ lastUpdateMs s' = lastUpdateMs s.
Proof.
  intros H1 H2 Haz. unfold gotoAzimuth. rewrite constrain_within by assumption.
  cbn [targetAzimuth azimuth set_targetAzimuth]. unfold F32.gt, F32.lt.
  destruct (SFltb (azimuth s) t) eqn:Hgt; [|destruct (SFltb t (azimuth s)) eqn:Hlt].
  - split; [reflexivity|]. split; [|repeat split; reflexivity].
    right. split; [reflexivity|]. left. split; [reflexivity|].
    cbn [azimuth set_az set_targetAzimuth]. unfold F32.ge. apply SFltb_not_SFleb, Hgt.
  - split; [reflexivity|]. split; [|repeat split; reflexivity].
    right. split; [reflexivity|]. right. split; [reflexivity|].
    cbn [azimuth set_az set_targetAzimuth]. unfold F32.le. apply SFltb_not_SFleb, Hlt.
  - split; [reflexivity|]. split; [|repeat split; reflexivity].
    left. split; [|split; reflexivity].
    cbn [azimuth set_az set_targetAzimuth]. unfold float_eq.
    apply (SFltb_total _ _ AZ_MIN); try assumption.
    apply (SFleb_SFltb_refl AZ_MIN). exact H1.
Qed.

Lemma gotoElevation_any t s :
  SFleb EL_MIN t = true -> SFleb t EL_MAX = true ->
  SFleb EL_MIN (elevation s) = true ->
  let s' := gotoElevation t s in
  targetElevation s' = t /\ (el_at t s' \/ el_under_way_to t s') /\
  elevation s' = elevation s /\ azimuth s' = azimuth s /\
  targetAzimuth s' = targetAzimuth s /\ azRotation s' = azRotation s /\
  azGotoMode s' = azGotoMode s /\ lastUpdateMs s' = lastUpdateMs s.
Proof.
  intros H1 H2 Hel. unfold gotoElevation. rewrite constrain_within by assumption.
  cbn [targetElevation elevation set_targetElevation]. unfold F32.gt, F32.lt.
  destruct (SFltb (elevation s) t) eqn:Hgt; [|destruct (SFltb t (elevation s)) eqn:Hlt].
  - split; [reflexivity|]. split; [|repeat split; reflexivity].
    right. split; [reflexivity|]. left. split; [reflexivity|].
    cbn [elevation set_el set_targetElevation]. unfold F32.ge. apply SFltb_not_SFleb, Hgt.
  - split; [reflexivity|]. split; [|repeat split; reflexivity].
    right. split; [reflexivity|]. right. split; [reflexivity|].
    cbn [elevation set_el set_targetElevation]. unfold F32.le. apply SFltb_not_SFleb, Hlt.
  - split; [reflexivity|]. split; [|repeat split; reflexivity].
    left. split; [|split; reflexivity].
    cbn [elevation set_el set_targetElevation]. unfold float_eq.
    apply (SFltb_total _ _ EL_MIN); try assumption.
    apply (SFleb_SFltb_refl EL_MIN). exact H1.
Qed.

(** *** One integration step *)

Lemma rotate_azimuth_any speed dt t s :
  SFleb AZ_MIN t = true -> SFleb t AZ_MAX = true ->
  targetAzimuth s = t -> az_at t s \/ az_under_way_to t s ->
  let s' := rotate_azimuth speed dt s in
  targetAzimuth s' = t /\ (az_at t s' \/ az_under_way_to t s').
Proof.
  intros H1 H2 Ht [(Ha & Hr & Hg) | (Hg & [[Hr Hc] | [Hr Hc]])];
    unfold rotate_azimuth; rewrite Hr.
  - split; [exact Ht|]. left. repeat split; assumption.
  - cbn [azGotoMode azimuth targetAzimuth set_azimuth]. rewrite Hg, Ht. cbn [andb].
    destruct (F32.ge (F32.add (azimuth s) (F32.mul speed dt)) t) eqn:Hge.
    + cbn [azimuth stopAzimuth set_az set_azimuth]. unfold F32.gt.
      rewrite (SFleb_not_SFltb t AZ_MAX H2).
      split; [exact Ht|]. left. split; [|split; reflexivity].
      apply SFleb_refl_eq, (SFleb_SFltb_refl AZ_MIN), H1.
    + cbn [azimuth set_azimuth].
      destruct (F32.gt (F32.add (azimuth s) (F32.mul speed dt)) AZ_MAX) eqn:Hmax.
      * unfold F32.gt in Hmax. unfold F32.ge in Hge.
        rewrite (SFleb_SFltb_trans _ _ _ H2 Hmax) in Hge. discriminate.
      * split; [exact Ht|]. right. split; [exact Hg|]. left. split; [exact Hr | exact Hge].
  - cbn [azGotoMode azimuth targetAzimuth set_azimuth]. rewrite Hg, Ht. cbn [andb].
    destruct (F32.le (F32.sub (azimuth s) (F32.mul speed dt)) t) eqn:Hle.
    + cbn [azimuth stopAzimuth set_az set_azimuth]. unfold F32.lt.
      rewrite (SFleb_not_SFltb AZ_MIN t H1).
      split; [exact Ht|]. left. split; [|split; reflexivity].
      apply SFleb_refl_eq, (SFleb_SFltb_refl AZ_MIN), H1.
    + cbn [azimuth set_azimuth].
      destruct (F32.lt (F32.sub (azimuth s) (F32.mul speed dt)) AZ_MIN) eqn:Hmin.
      * unfold F32.lt in Hmin. unfold F32.le in Hle.
        rewrite (SFltb_SFleb_trans _ _ _ Hmin H1) in Hle. discriminate.
      * split; [exact Ht|]. right. split; [exact Hg|]. right. split; [exact Hr | exact Hle].
Qed.

Lemma rotate_elevation_any speed dt t s :
  SFleb EL_MIN t = true -> SFleb t EL_MAX = true ->
  targetElevation s = t -> el_at t s \/ el_under_way_to t s ->
  let s' := rotate_elevation speed dt s in
  targetElevation s' = t /\ (el_at t s' \/ el_under_way_to t s').
Proof.
  intros H1 H2 Ht [(Ha & Hr & Hg) | (Hg & [[Hr Hc] | [Hr Hc]])];
    unfold rotate_elevation; rewrite Hr.
  - split; [exact Ht|]. left. repeat split; assumption.
  - cbn [elGotoMode elevation targetElevation set_elevation]. rewrite Hg, Ht. cbn [andb].
    destruct (F32.ge (F32.add (elevation s) (F32.mul speed dt)) t) eqn:Hge.
    + cbn [elevation stopElevation set_el set_elevation]. unfold F32.gt.
      rewrite (SFleb_not_SFltb t EL_MAX H2).
      split; [exact Ht|]. left. split; [|split; reflexivity].
      apply SFleb_refl_eq, (SFleb_SFltb_refl EL_MIN), H1.
    + cbn [elevation set_elevation].
      destruct (F32.gt (F32.add (elevation s) (F32.mul speed dt)) EL_MAX) eqn:Hmax.
      * unfold F32.gt in Hmax. unfold F32.ge in Hge.
        rewrite (SFleb_SFltb_trans _ _ _ H2 Hmax) in Hge. discriminate.
      * split; [exact Ht|]. right. split; [exact Hg|]. left. split; [exact Hr | exact Hge].
  - cbn [elGotoMode elevation targetElevation set_elevation]. rewrite Hg, Ht. cbn [andb].
    destruct (F32.le (F32.sub (elevation s) (F32.mul speed dt)) t) eqn:Hle.
    + cbn [elevation stopElevation set_el set_elevation]. unfold F32.lt.
      rewrite (SFleb_not_SFltb EL_MIN t H1).
      split; [exact Ht|]. left. split; [|split; reflexivity].
      apply SFleb_refl_eq, (SFleb_SFltb_refl EL_MIN), H1.
    + cbn [elevation set_elevation].
      destruct (F32.lt (F32.sub (elevation s) (F32.mul speed dt)) EL_MIN) eqn:Hmin.
      * unfold F32.lt in Hmin. unfold F32.le in Hle.
        rewrite (SFltb_SFleb_trans _ _ _ Hmin H1) in Hle. discriminate.
      * split; [exact Ht|]. right. split; [exact Hg|]. right. split; [exact Hr | exact Hle].
Qed.

(** The azimuth block does not touch the elevation axis. *)
Lemma rotate_azimuth_elevation speed dt s :
  let s' := rotate_azimuth speed dt s in
  elevation s' = elevation s /\ targetElevation s' = targetElevation s /\
  elRotation s' = elRotation s /\ elGotoMode s' = elGotoMode s.
Proof.
  unfold rotate_azimuth.
  destruct (azRotation s); cbn [azGotoMode azimuth targetAzimuth set_azimuth].
  - repeat split; reflexivity.
  - destruct (azGotoMode s && _); cbn [azimuth set_azimuth stopAzimuth set_az];
      destruct (F32.gt _ AZ_MAX); repeat split; reflexivity.
  - destruct (azGotoMode s && _); cbn [azimuth set_azimuth stopAzimuth set_az];
      destruct (F32.lt _ AZ_MIN); repeat split; reflexivity.
Qed.

(** *** Updates with the rotation simulator *)

(** The two axes being each at its target or under way to it. *)
Lemma simulateRotation_any now d ta te :
  SFleb AZ_MIN ta = true -> SFleb ta AZ_MAX = true ->
  SFleb EL_MIN te = true -> SFleb te EL_MAX = true ->
  let s := state (parser d) in
  (targetAzimuth s = ta -> az_at ta s \/ az_under_way_to ta s ->
   let s' := state (parser (simulateRotation now d)) in
   targetAzimuth s' = ta /\ (az_at ta s' \/ az_under_way_to ta s')) /\
  (targetElevation s = te -> el_at te s \/ el_under_way_to te s ->
   let s' := state (parser (simulateRotation now d)) in
   targetElevation s' = te /\ (el_at te s' \/ el_under_way_to te s')).
Proof.
  intros Ha1 Ha2 He1 He2 s. unfold simulateRotation. fold s.
  destruct (to_uint32 (now - lastUpdateMs s) <? MIN_UPDATE_INTERVAL);
    [split; intros; split; assumption|].
  cbn [state parser set_parser with_state].
  set (dt := F32.div _ _). split.
  - intros Ht Hs.
    destruct (rotate_azimuth_any (getAzSpeed d) dt ta (set_lastUpdateMs now s) Ha1 Ha2 Ht Hs)
      as [Ht' Hs'].
    destruct (rotate_elevation_azimuth (getElSpeed d) dt
                (rotate_azimuth (getAzSpeed d) dt (set_lastUpdateMs now s)))
      as (Ea & Et & Er & Eg).
    unfold az_at, az_under_way_to in *. rewrite Ea, Et, Er, Eg. split; assumption.
  - intros Ht Hs.
    destruct (rotate_azimuth_elevation (getAzSpeed d) dt (set_lastUpdateMs now s))
      as (Ee & Et & Er & Eg).
    apply rotate_elevation_any; try assumption.
    + rewrite Et. exact Ht.
    + unfold el_at, el_under_way_to in *. rewrite Ee, Er, Eg. exact Hs.
Qed.

Lemma update_no_input d now :
  update now [] d = if running d then simulateRotation now d else d.
Proof.
  unfold update. destruct (running d); cbn [negb]; [|reflexivity].
  cbn [parser_update fold_left]. destruct d; reflexivity.
Qed.

Lemma after_updates_any times ta te :
  SFleb AZ_MIN ta = true -> SFleb ta AZ_MAX = true ->
  SFleb EL_MIN te = true -> SFleb te EL_MAX = true ->
  forall d,
  let s := state (parser d) in
  (targetAzimuth s = ta -> az_at ta s \/ az_under_way_to ta s ->
   let s' := after_updates times d in
   targetAzimuth s' = ta /\ (az_at ta s' \/ az_under_way_to ta s')) /\
  (targetElevation s = te -> el_at te s \/ el_under_way_to te s ->
   let s' := after_updates times d in
   targetElevation s' = te /\ (el_at te s' \/ el_under_way_to te s')).
Proof.
  intros Ha1 Ha2 He1 He2.
  induction times as [|t times IH]; intros d s; [split; intros; split; assumption|].
  assert (Hstep :
    (targetAzimuth s = ta -> az_at ta s \/ az_under_way_to ta s ->
     let s' := state (parser (update t [] d)) in
     targetAzimuth s' = ta /\ (az_at ta s' \/ az_under_way_to ta s')) /\
    (targetElevation s = te -> el_at te s \/ el_under_way_to te s ->
     let s' := state (parser (update t [] d)) in
     targetElevation s' = te /\ (el_at te s' \/ el_under_way_to te s'))).
  { rewrite update_no_input. destruct (running d).
    - apply simulateRotation_any; assumption.
    - split; intros; split; assumption. }
  destruct Hstep as [Haz Hel]. destruct (IH (update t [] d)) as [IHaz IHel].
  split; intros Ht Hs.
  - destruct (Haz Ht Hs) as [Ht' Hs']. exact (IHaz Ht' Hs').
  - destruct (Hel Ht Hs) as [Ht' Hs']. exact (IHel Ht' Hs').
Qed.

(** *** Goto commands as text *)

Lemma skip_while_space_digit c r : isdigit c = true -> skip_while_space (c :: r) = c :: r.
Proof.
  intros H. apply isdigit_spec in H.
  destruct c as [|q|q]; try lia.
  repeat (destruct q as [q|q|]; try reflexivity; try lia).
Qed.

Lemma parseAngle_digits ds :
  all_digits ds -> ds <> [] -> decimal_value ds <= LONG_MAX ->
  parseAngle ds = Some (decimal_value ds).
Proof.
  intros Hd Hne Hmax. pose proof (decimal_value_nonneg ds Hd) as Hnn.
  destruct ds as [|c r]; [contradiction|]. unfold parseAngle.
  rewrite skip_while_space_digit by (exact (Forall_inv Hd)).
  rewrite <- (app_nil_r (c :: r)) at 1. rewrite strtol_digits by (assumption || exact I).
  destruct (Z.gtb_spec (decimal_value (c :: r)) LONG_MAX); [lia|].
  rewrite bool_decide_eq_false_2 by discriminate.
  unfold to_int32, LONG_MAX in *. rewrite Z.mod_small by lia. f_equal. lia.
Qed.

Lemma digit_printable_upper c : isdigit c = true -> printable c /\ toupper c = c.
Proof.
  intros H. apply isdigit_spec in H. unfold printable, toupper.
  destruct (Z.leb_spec 97 c); [lia|]. cbn [andb]. lia.
Qed.

(** Feeding a whole line of characters that are buffered as they are, and
    its terminator. *)
Lemma parser_update_line line p :
  buffer p = [] -> Forall (fun c => printable c /\ toupper c = c) line -> line <> [] ->
  (length line <= CAT_BUFFER_SIZE - 1)%nat ->
  parser_update (line ++ [GS232_CR]) p
  = set_buffer [] (processCommand (set_buffer line p)).
Proof.
  intros Hb Hl Hne Hlen. rewrite parser_update_app, (parser_update_printable line).
  - rewrite Hb. cbn [app].
    assert (E : map toupper line = line).
    { clear -Hl. induction Hl as [|c l [_ Hc] _ IH]; [reflexivity|].
      cbn [map]. rewrite Hc, IH. reflexivity. }
    rewrite E, take_ge by lia.
    unfold parser_update. cbn [fold_left]. unfold update_char.
    change ((GS232_CR =? GS232_CR) || (GS232_CR =? GS232_LF)) with true.
    cbn [buffer set_buffer]. destruct line; [contradiction | reflexivity].
  - eapply Forall_impl; [exact Hl | intros c [H _]; exact H].
  - rewrite Hb. cbn. lia.
Qed.

Lemma range_ok_az a :
  0 <= a <= 450 -> (a <? F32.to_int AZ_MIN) || (a >? F32.to_int AZ_MAX) = false.
Proof.
  intros Ha. destruct (_ || _) eqn:E; [apply range_check_az in E; lia | reflexivity].
Qed.

Lemma range_ok_el e :
  0 <= e <= 180 -> (e <? F32.to_int EL_MIN) || (e >? F32.to_int EL_MAX) = false.
Proof.
  intros He. destruct (_ || _) eqn:E; [apply range_check_el in E; lia | reflexivity].
Qed.

Lemma M_command ds p :
  buffer p = [] -> all_digits ds -> ds <> [] -> (length ds <= 62)%nat ->
  decimal_value ds <= 450 ->
  parser_update (str "M" ++ ds ++ [GS232_CR]) p
  = mkGS232Parser (gotoAzimuth (F32.of_Z (decimal_value ds)) (state p)) (serial_out p) [].
Proof.
  intros Hb Hd Hne Hlen Hmax. pose proof (decimal_value_nonneg ds Hd) as Hnn.
  change (str "M") with [77]. rewrite app_assoc, parser_update_line.
  - change (processCommand (set_buffer ([77] ++ ds) p))
      with (handleM ds (set_buffer ([77] ++ ds) p)).
    unfold handleM. rewrite parseAngle_digits by (unfold LONG_MAX; assumption || lia).
    rewrite range_ok_az by lia. reflexivity.
  - exact Hb.
  - apply Forall_app; split.
    + constructor; [|constructor]. unfold printable, toupper. cbn. lia.
    + eapply Forall_impl; [exact Hd | intros c Hc; apply digit_printable_upper, Hc].
  - discriminate.
  - rewrite length_app. unfold CAT_BUFFER_SIZE. cbn. lia.
Qed.

Lemma strchr_after_digits ds r :
  all_digits ds -> strchr (ds ++ 32 :: r) 32 = Some (length ds, 32 :: r).
Proof.
  induction 1 as [|c ds Hc Hds IH]; [reflexivity|].
  cbn [app strchr length]. apply isdigit_spec in Hc.
  destruct (Z.eqb_spec c 32); [lia|]. rewrite IH. reflexivity.
Qed.

Lemma W_command dsa dse p :
  buffer p = [] -> all_digits dsa -> dsa <> [] -> all_digits dse -> dse <> [] ->
  (length dsa <= 7)%nat -> (length dse <= 54)%nat ->
  decimal_value dsa <= 450 -> decimal_value dse <= 180 ->
  parser_update (str "W" ++ dsa ++ str " " ++ dse ++ [GS232_CR]) p
  = mkGS232Parser (gotoElevation (F32.of_Z (decimal_value dse))
                     (gotoAzimuth (F32.of_Z (decimal_value dsa)) (state p)))
                  (serial_out p) [].
Proof.
  intros Hb Hda Hnea Hde Hnee Hla Hle Hmaxa Hmaxe.
  pose proof (decimal_value_nonneg dsa Hda). pose proof (decimal_value_nonneg dse Hde).
  change (str "W") with [87]. change (str " ") with [32].
  replace ([87] ++ dsa ++ [32] ++ dse ++ [GS232_CR])
    with (([87] ++ dsa ++ [32] ++ dse) ++ [GS232_CR]) by (rewrite <- !app_assoc; reflexivity).
  rewrite parser_update_line.
  - change (processCommand (set_buffer ([87] ++ ?l) p))
      with (handleW l (set_buffer ([87] ++ l) p)).
    unfold handleW. cbn [app]. rewrite strchr_after_digits by exact Hda.
    destruct (Nat.leb_spec 8 (length dsa)); [lia|].
    rewrite take_app_length.
    rewrite parseAngle_digits by (unfold LONG_MAX; assumption || lia).
    change (drop 1 (32 :: dse)) with dse.
    rewrite parseAngle_digits by (unfold LONG_MAX; assumption || lia).
    rewrite range_ok_az, range_ok_el by lia. reflexivity.
  - exact Hb.
  - apply Forall_app; split; [|apply Forall_app; split; [|apply Forall_app; split]].
    + constructor; [|constructor]. unfold printable, toupper. cbn. lia.
    + eapply Forall_impl; [exact Hda | intros c Hc; apply digit_printable_upper, Hc].
    + constructor; [|constructor]. unfold printable, toupper. cbn. lia.
    + eapply Forall_impl; [exact Hde | intros c Hc; apply digit_printable_upper, Hc].
  - discriminate.
  - rewrite !length_app. unfold CAT_BUFFER_SIZE. cbn. lia.
Qed.

(** *** Goto commands on the device *)

Lemma update_running now input d :
  running d = true ->
  update now input d = simulateRotation now (set_parser (parser_update input (parser d)) d).
Proof. intros H. unfold update. rewrite H. reflexivity. Qed.

(** Goto azimuth, for any target.  After the rotator processes [M] with a
    whole number of degrees up to 450, and after any further updates at any
    times and with any speed, the target is that number and the azimuth axis
    is in one of two conditions: it stands at the target (azimuth == target,
    stopped, goto-mode off), or it is still rotating toward the target in
    goto-mode and short of it.  It never passes the target. *)
Theorem goto_azimuth_never_passes_target
    (d : G5500Device) (now0 : Z) (times : list Z) (ds : cstring) :
  running d = true -> buffer (parser d) = [] ->
  all_digits ds -> ds <> [] -> (length ds <= 62)%nat -> decimal_value ds <= 450 ->
  F32.le AZ_MIN (azimuth (state (parser d))) = true ->
  let t := F32.of_Z (decimal_value ds) in
  let s := after_updates times (update now0 (str "M" ++ ds ++ [GS232_CR]) d) in
  targetAzimuth s = t /\ (az_at t s \/ az_under_way_to t s).
Proof.
  intros Hrun Hbuf Hd Hne Hlen Hmax Haz t s.
  pose proof (decimal_value_nonneg ds Hd) as Hnn.
  destruct (whole_azimuth (decimal_value ds) ltac:(lia)) as (H1 & H2 & _). fold t in H1, H2.
  assert (He : SFleb EL_MIN EL_MIN = true) by reflexivity.
  assert (He' : SFleb EL_MIN EL_MAX = true) by reflexivity.
  subst s. rewrite update_running, M_command by assumption. fold t.
  destruct (gotoAzimuth_any t (state (parser d)) H1 H2 Haz) as (Ht & Hs & _).
  apply (after_updates_any times t EL_MIN H1 H2 He He').
  - apply (simulateRotation_any now0 _ t EL_MIN H1 H2 He He'); assumption.
  - apply (simulateRotation_any now0 _ t EL_MIN H1 H2 He He'); assumption.
Qed.

Lemma goto_azimuth_never_passes_target_witness :
  let d := snd (begin 0 (new true 1)) in
  let s := after_updates [45000; 90000] (update 0 (str "M090" ++ [GS232_CR]) d) in
  targetAzimuth s = F32.of_Z 90 /\ (az_at (F32.of_Z 90) s \/ az_under_way_to (F32.of_Z 90) s).
Proof.
  cbv zeta.
  apply (goto_azimuth_never_passes_target (snd (begin 0 (new true 1))) 0 [45000; 90000]
           (str "090")); try reflexivity.
  - repeat constructor.
  - discriminate.
  - cbn. lia.
  - vm_compute. discriminate.
Defined.

(** Goto azimuth and elevation, for any targets.  After the rotator
    processes [W] with whole numbers of degrees up to 450 and up to 180, and
    after any further updates, each axis has its target and either stands at
    it (position == target, stopped, goto-mode off) or is still rotating
    toward it in goto-mode and short of it. *)
Theorem goto_both_axes_never_pass_targets
    (d : G5500Device) (now0 : Z) (times : list Z) (dsa dse : cstring) :
  running d = true -> buffer (parser d) = [] ->
  all_digits dsa -> dsa <> [] -> (length dsa <= 7)%nat -> decimal_value dsa <= 450 ->
  all_digits dse -> dse <> [] -> (length dse <= 54)%nat -> decimal_value dse <= 180 ->
  F32.le AZ_MIN (azimuth (state (parser d))) = true ->
  F32.le EL_MIN (elevation (state (parser d))) = true ->
  let ta := F32.of_Z (decimal_value dsa) in
  let te := F32.of_Z (decimal_value dse) in
  let s := after_updates times
             (update now0 (str "W" ++ dsa ++ str " " ++ dse ++ [GS232_CR]) d) in
  (targetAzimuth s = ta /\ (az_at ta s \/ az_under_way_to ta s)) /\
  (targetElevation s = te /\ (el_at te s \/ el_under_way_to te s)).
Proof.
  intros Hrun Hbuf Hda Hnea Hla Hmaxa Hde Hnee Hle Hmaxe Haz Hel ta te s.
  pose proof (decimal_value_nonneg dsa Hda). pose proof (decimal_value_nonneg dse Hde).
  destruct (whole_azimuth (decimal_value dsa) ltac:(lia)) as (Ha1 & Ha2 & _).
  destruct (whole_elevation (decimal_value dse) ltac:(lia)) as (He1 & He2 & _).
  fold ta in Ha1, Ha2. fold te in He1, He2.
  subst s. rewrite update_running, W_command by assumption. fold ta. fold te.
  destruct (gotoAzimuth_any ta (state (parser d)) Ha1 Ha2 Haz)
    as (Hta & Hsa & Eaz & Eel & _).
  assert (Hel1 : SFleb EL_MIN (elevation (gotoAzimuth ta (state (parser d)))) = true)
    by (rewrite Eel; exact Hel).
  destruct (gotoElevation_any te (gotoAzimuth ta (state (parser d))) He1 He2 Hel1)
    as (Hte & Hse & _ & Eaz' & Eta' & Er' & Eg' & _).
  set (s1 := gotoElevation te (gotoAzimuth ta (state (parser d)))) in *.
  assert (Hsa1 : targetAzimuth s1 = ta /\ (az_at ta s1 \/ az_under_way_to ta s1)).
  { unfold az_at, az_under_way_to in *. rewrite Eta', Eaz', Er', Eg'. split; assumption. }
  destruct Hsa1 as [Hta1 Hsa1].
  set (d1 := simulateRotation now0 _).
  destruct (simulateRotation_any now0
              (set_parser (mkGS232Parser s1 (serial_out (parser d)) []) d)
              ta te Ha1 Ha2 He1 He2) as [Saz Sel].
  destruct (after_updates_any times ta te Ha1 Ha2 He1 He2 d1) as [Uaz Uel].
  split.
  - apply Uaz; apply Saz; assumption.
  - apply Uel; apply Sel; assumption.
Qed.

Lemma goto_both_axes_never_pass_targets_witness :
  let d := snd (begin 0 (new true 1)) in
  let s := after_updates [30000; 60000] (update 0 (str "W180 045" ++ [GS232_CR]) d) in
  (targetAzimuth s = F32.of_Z 180 /\
   (az_at (F32.of_Z 180) s \/ az_under_way_to (F32.of_Z 180) s)) /\
  (targetElevation s = F32.of_Z 45 /\
   (el_at (F32.of_Z 45) s \/ el_under_way_to (F32.of_Z 45) s)).
Proof.
  cbv zeta.
  apply (goto_both_axes_never_pass_targets (snd (begin 0 (new true 1))) 0 [30000; 60000]
           (str "180") (str "045")); try reflexivity.
  - repeat constructor.
  - discriminate.
  - cbn. lia.
  - vm_compute. discriminate.
  - repeat constructor.
  - discriminate.
  - cbn. lia.
  - vm_compute. discriminate.
Defined.

(** *** Stop *)

Lemma simulateRotation_stopped now d :
  azRotation (state (parser d)) = STOPPED -> elRotation (state (parser d)) = STOPPED ->
  axes (state (parser (simulateRotation now d))) = axes (state (parser d)).
Proof.
  intros Ha He. unfold simulateRotation.
  destruct (_ <? MIN_UPDATE_INTERVAL); [reflexivity|].
  cbn [state parser set_parser with_state].
  unfold rotate_azimuth. cbn [azRotation set_lastUpdateMs]. rewrite Ha.
  unfold rotate_elevation. cbn [elRotation set_lastUpdateMs]. rewrite He.
  reflexivity.
Qed.

Lemma after_updates_stopped times : forall d,
  azRotation (state (parser d)) = STOPPED -> elRotation (state (parser d)) = STOPPED ->
  axes (after_updates times d) = axes (state (parser d)).
Proof.
  induction times as [|t times IH]; intros d Ha He; [reflexivity|].
  assert (E : axes (state (parser (update t [] d))) = axes (state (parser d))).
  { rewrite update_no_input. destruct (running d); [|reflexivity].
    apply simulateRotation_stopped; assumption. }
  change (after_updates (t :: times) d) with (after_updates times (update t [] d)).
  rewrite IH, E; try reflexivity.
  - unfold axes in E. injection E as _ _ E _. rewrite E. exact Ha.
  - unfold axes in E. injection E as _ _ _ E. rewrite E. exact He.
Qed.

(** The stop command freezes the rotator: once [S] is processed, both axes
    are stopped where they stood before the command, and no later update
    moves them. *)
Theorem stop_command_freezes_both_axes (d : G5500Device) (now0 : Z) (times : list Z) :
  running d = true -> buffer (parser d) = [] ->
  axes (after_updates times (update now0 (str "S" ++ [GS232_CR]) d))
  = (azimuth (state (parser d)), elevation (state (parser d)), STOPPED, STOPPED).
Proof.
  intros Hrun Hbuf. rewrite update_running by exact Hrun.
  assert (E : parser_update (str "S" ++ [GS232_CR]) (parser d)
              = mkGS232Parser (stopAll (state (parser d))) (serial_out (parser d)) []).
  { destruct (parser d) as [s out b]. cbn [buffer] in Hbuf. subst b. reflexivity. }
  rewrite E, after_updates_stopped.
  - rewrite simulateRotation_stopped; reflexivity.
  - pose proof (simulateRotation_stopped now0
                  (set_parser (mkGS232Parser (stopAll (state (parser d)))
                                 (serial_out (parser d)) []) d) eq_refl eq_refl) as H.
    unfold axes in H. injection H as _ _ H _. exact H.
  - pose proof (simulateRotation_stopped now0
                  (set_parser (mkGS232Parser (stopAll (state (parser d)))
                                 (serial_out (parser d)) []) d) eq_refl eq_refl) as H.
    unfold axes in H. injection H as _ _ _ H. exact H.
Qed.

Lemma stop_command_freezes_both_axes_witness :
  let d := update 20000 (str "R" ++ [GS232_CR] ++ str "U" ++ [GS232_CR])
             (snd (begin 0 (new true 1))) in
  running d = true /\ buffer (parser d) = [] /\
  azRotation (state (parser d)) = CW /\
  axes (after_updates [40000; 60000] (update 30000 (str "S" ++ [GS232_CR]) d))
  = (azimuth (state (parser d)), elevation (state (parser d)), STOPPED, STOPPED).
Proof.
  cbv zeta. split; [reflexivity|]. split; [reflexivity|]. split; [reflexivity|].
  apply stop_command_freezes_both_axes; reflexivity.
Defined.

(** *** Position reports *)

(** Position reports at whole degrees.  When the azimuth stands at a whole
    number of degrees [a] within 0 to 450 and the elevation at [e] within 0
    to 180, [C] answers [+0] and the three digits of [a], [B] answers [+0]
    and the three digits of [e], and [C2] answers both, separated by a
    blank; each answer ends with CR LF and the state does not change. *)
Theorem position_reports_whole_degrees (p : GS232Parser) (a e : Z) :
  buffer p = [] -> 0 <= a <= 450 -> 0 <= e <= 180 ->
  azimuth (state p) = F32.of_Z a -> elevation (state p) = F32.of_Z e ->
  parser_update (str "C" ++ [GS232_CR]) p
  = mkGS232Parser (state p)
      (serial_out p ++ str "+0" ++ decimal_digits 3 a ++ [GS232_CR; GS232_LF]) [] /\
  parser_update (str "B" ++ [GS232_CR]) p
  = mkGS232Parser (state p)
      (serial_out p ++ str "+0" ++ decimal_digits 3 e ++ [GS232_CR; GS232_LF]) [] /\
  parser_update (str "C2" ++ [GS232_CR]) p
  = mkGS232Parser (state p)
      (serial_out p ++ str "+0" ++ decimal_digits 3 a ++ str " +0" ++ decimal_digits 3 e
       ++ [GS232_CR; GS232_LF]) [].
Proof.
  intros Hb Ha He Eaz Eel.
  destruct (whole_azimuth a Ha) as (_ & _ & Ia).
  destruct (whole_elevation e He) as (_ & _ & Ie).
  assert (Ga : getAzimuthInt (state p) = a) by (unfold getAzimuthInt; rewrite Eaz; exact Ia).
  assert (Ge : getElevationInt (state p) = e) by (unfold getElevationInt; rewrite Eel; exact Ie).
  destruct p as [s out b]. cbn [buffer state serial_out] in *. subst b.
  assert (Fa : fmt_d 3 a = decimal_digits 3 a) by (apply fmt_d_decimal_digits; cbn; lia).
  assert (Fe : fmt_d 3 e = decimal_digits 3 e) by (apply fmt_d_decimal_digits; cbn; lia).
  split; [|split].
  - change (parser_update (str "C" ++ [GS232_CR]) (mkGS232Parser s out []))
      with (set_buffer [] (handleC (mkGS232Parser s out [67]))).
    unfold handleC, sendResponse. cbn [buffer state serial_out set_buffer].
    rewrite Ga, Fa. rewrite snprintf_fits by (rewrite length_app, decimal_digits_length; cbn; lia).
    rewrite <- ?app_assoc. reflexivity.
  - change (parser_update (str "B" ++ [GS232_CR]) (mkGS232Parser s out []))
      with (set_buffer [] (handleB (mkGS232Parser s out [66]))).
    unfold handleB, sendResponse. cbn [buffer state serial_out set_buffer].
    rewrite Ge, Fe. rewrite snprintf_fits by (rewrite length_app, decimal_digits_length; cbn; lia).
    rewrite <- ?app_assoc. reflexivity.
  - change (parser_update (str "C2" ++ [GS232_CR]) (mkGS232Parser s out []))
      with (set_buffer [] (handleC (mkGS232Parser s out [67; 50]))).
    unfold handleC, sendResponse. cbn [buffer state serial_out set_buffer].
    rewrite Ga, Fa, Ge, Fe.
    rewrite snprintf_fits by (rewrite !length_app, !decimal_digits_length; cbn; lia).
    rewrite <- ?app_assoc. reflexivity.
Qed.

Lemma position_reports_whole_degrees_witness :
  let p := mkGS232Parser (set_elevation (F32.of_Z 45) (set_azimuth (F32.of_Z 270) reset)) [] [] in
  serial_out (parser_update (str "C2" ++ [GS232_CR]) p) = str "+0270 +0045" ++ [13; 10].
Proof.
  cbv zeta.
  destruct (position_reports_whole_degrees
              (mkGS232Parser (set_elevation (F32.of_Z 45) (set_azimuth (F32.of_Z 270) reset)) [] [])
              270 45 eq_refl ltac:(lia) ltac:(lia) eq_refl eq_refl) as (_ & _ & H).
  rewrite H. reflexivity.
Defined.

End RotatorGoto.

(** ** Numbers as text *)

Section NumberText.
Import CLib Ref Ref2.

Lemma dec_digits_aux_spec fuel : forall n,
  0 <= n < 2 ^ (Z.of_nat fuel + 1) ->
  all_digits (dec_digits_aux fuel n) /\ dec_digits_aux fuel n <> [] /\
  decimal_value (dec_digits_aux fuel n) = n.
Proof.
  induction fuel as [|k IH]; intros n Hn.
  - change (2 ^ (Z.of_nat 0 + 1)) with 2 in Hn. cbn [dec_digits_aux].
    rewrite Z.mod_small by lia. split; [|split; [discriminate|]].
    + constructor; [apply isdigit_spec; lia | constructor].
    + unfold decimal_value. cbn. lia.
  - cbn [dec_digits_aux]. destruct (Z.ltb_spec n 10).
    + split; [|split; [discriminate|]].
      * constructor; [apply isdigit_spec; lia | constructor].
      * unfold decimal_value. cbn. lia.
    + assert (Hq : 0 <= n / 10 < 2 ^ (Z.of_nat k + 1)).
      { split; [apply Z.div_pos; lia|]. apply Z.div_lt_upper_bound; [lia|].
        rewrite Nat2Z.inj_succ in Hn.
        replace (Z.succ (Z.of_nat k) + 1) with (Z.succ (Z.of_nat k + 1)) in Hn by lia.
        rewrite Z.pow_succ_r in Hn by lia. lia. }
      destruct (IH (n / 10) Hq) as (Hd & Hne & Hv).
      pose proof (Z.mod_pos_bound n 10 ltac:(lia)).
      split; [|split].
      * apply Forall_app; split; [exact Hd|].
        constructor; [apply isdigit_spec; lia | constructor].
      * intros E. apply app_eq_nil in E as [_ E]. discriminate.
      * rewrite decimal_value_snoc, Hv. pose proof (Z.div_mod n 10 ltac:(lia)). lia.
Qed.

(** ["%lu"] and ["%d"] of a non-negative number: a non-empty string of
    digits that denotes the number. *)
Lemma dec_digits_spec n :
  0 <= n ->
  all_digits (dec_digits n) /\ dec_digits n <> [] /\ decimal_value (dec_digits n) = n.
Proof.
  intros Hn. apply dec_digits_aux_spec. split; [exact Hn|]. apply log2_fuel_enough, Hn.
Qed.

Lemma dec_digits_aux_length fuel : forall n k,
  (1 <= k)%nat -> 0 <= n < 10 ^ Z.of_nat k -> (length (dec_digits_aux fuel n) <= k)%nat.
Proof.
  induction fuel as [|f IH]; intros n k Hk Hn; cbn [dec_digits_aux]; [cbn; lia|].
  destruct (Z.ltb_spec n 10); [cbn; lia|].
  rewrite length_app. cbn [length].
  destruct k as [|[|k]]; [lia | change (10 ^ Z.of_nat 1) with 10 in Hn; lia |].
  assert (length (dec_digits_aux f (n / 10)) <= S k)%nat; [|lia].
  apply IH; [lia|]. split; [apply Z.div_pos; lia|].
  apply Z.div_lt_upper_bound; [lia|].
  rewrite (Nat2Z.inj_succ (S k)), Z.pow_succ_r in Hn by lia. lia.
Qed.

Lemma dec_digits_length n k :
  (1 <= k)%nat -> 0 <= n < 10 ^ Z.of_nat k -> (length (dec_digits n) <= k)%nat.
Proof. apply dec_digits_aux_length. Qed.

Lemma strtoul_dec_digits n : 0 <= n <= ULONG_MAX -> strtoul (dec_digits n) = (n, []).
Proof.
  intros Hn. destruct (dec_digits_spec n) as (Hd & Hne & Hv); [lia|].
  rewrite <- (app_nil_r (dec_digits n)), strtoul_digits by (assumption || exact I).
  rewrite Hv. destruct (Z.gtb_spec n ULONG_MAX); [lia | reflexivity].
Qed.

Lemma scan_digits_nonneg s : forall acc n,
  0 <= acc -> 0 <= fst (fst (scan_digits acc n s)).
Proof.
  induction s as [|c r IH]; intros acc n Hacc; cbn [scan_digits]; [exact Hacc|].
  destruct (isdigit c) eqn:Hc; [|exact Hacc].
  apply IH. apply isdigit_spec in Hc. lia.
Qed.

(** [strtoul] yields a value of [unsigned long]. *)
Lemma strtoul_range s : 0 <= fst (strtoul s) <= ULONG_MAX.
Proof.
  unfold strtoul. destruct (scan_sign (skip_spaces s)) as [neg t].
  pose proof (scan_digits_nonneg t 0 O ltac:(lia)) as Hnn.
  destruct (scan_digits 0 O t) as [[v n] rest]. cbn [fst] in *.
  destruct n; [unfold ULONG_MAX; cbn; lia|].
  destruct (Z.gtb_spec v ULONG_MAX); cbn [fst]; [unfold ULONG_MAX; lia|].
  destruct neg; [|lia].
  unfold to_uint32, ULONG_MAX. pose proof (Z.mod_pos_bound (- v) 4294967296 ltac:(lia)). lia.
Qed.

End NumberText.

(** ** Device options *)

Section OptionValues.
Import CLib Options Ref Ref2.

Lemma enum_index_range s values n : forall i j,
  enum_index s values n i = Some j -> i <= j < i + Z.of_nat n.
Proof.
  induction n as [|k IH]; intros i j; cbn [enum_index]; [discriminate|].
  destruct (strcasecmp_eq s _); [intros [= <-]; lia|].
  intros H. apply IH in H. lia.
Qed.

Lemma lookup_map_nth {A B} (f : A -> B) (d : A) l : forall i,
  (i < length l)%nat -> map f l !! i = Some (f (nth i l d)).
Proof.
  induction l as [|x l IH]; intros i Hi; [cbn in Hi; lia|].
  destruct i as [|i]; [reflexivity|]. cbn [length] in Hi. apply IH. lia.
Qed.

Lemma enum_index_found values cur :
  distinct_ignoring_case values -> 0 <= cur < Z.of_nat (length values) ->
  forall n i, 0 <= i <= cur -> cur < i + Z.of_nat n ->
  enum_index (nth (Z.to_nat cur) values []) values n i = Some cur.
Proof.
  intros Hnd Hcur. induction n as [|k IH]; intros i Hi Hn; [lia|].
  cbn [enum_index]. unfold strcasecmp_eq.
  destruct (Z.eq_dec i cur) as [->|Hne].
  - rewrite bool_decide_eq_true_2 by reflexivity. reflexivity.
  - rewrite bool_decide_eq_false_2; [apply IH; lia|].
    intros E. apply Hne.
    unfold distinct_ignoring_case in Hnd.
    assert (Hc : (Z.to_nat cur < length values)%nat) by lia.
    assert (Hi' : (Z.to_nat i < length values)%nat) by lia.
    pose proof (lookup_map_nth (map tolower) [] values (Z.to_nat cur) Hc) as Lc.
    pose proof (lookup_map_nth (map tolower) [] values (Z.to_nat i) Hi') as Li.
    pose proof (NoDup_lookup _ _ _ _ Hnd Lc (eq_trans Li (f_equal Some (eq_sym E)))). lia.
Qed.

(** A successful or failed parse leaves a well-formed option well formed:
    whatever text is given, a number stays within its range, a selection
    within its enumeration, a string within its buffer. *)
Lemma parse_keeps_option_well_formed (opt : DeviceOption) (s : cstring) :
  wf_option opt -> wf_option (snd (parseOptionValue opt s)).
Proof.
  unfold wf_option, parseOptionValue. intros Hwf.
  destruct (value opt) as [min max cur|b|values count cur|sv] eqn:Ev.
  - pose proof (strtoul_range s) as Hr. destruct (strtoul s) as [val endptr]. cbn [fst] in Hr.
    destruct endptr; [|cbn [snd]; rewrite Ev; exact Hwf].
    destruct (Z.ltb_spec val min); [cbn [snd orb]; rewrite Ev; exact Hwf|].
    destruct (Z.gtb_spec val max); cbn [snd orb]; [rewrite Ev; exact Hwf|].
    cbn [value set_value]. unfold to_uint32, ULONG_MAX in *.
    rewrite Z.mod_small by lia. lia.
  - destruct (_ || _); [exact I|]. destruct (_ || _); cbn [snd]; [exact I|].
    rewrite Ev. exact I.
  - destruct (enum_index s values (Z.to_nat count) 0) as [i|] eqn:Ei;
      cbn [snd]; [|rewrite Ev; exact Hwf].
    cbn [value set_value]. apply enum_index_range in Ei. lia.
  - cbn [snd value set_value]. rewrite length_take. unfold OPTION_STRING_MAX_LEN. lia.
Qed.

(** Format-then-parse round trip: the text [formatOptionValue] writes for a
    well-formed option, in a buffer that holds it whole, is accepted by
    [parseOptionValue] and leaves the option as it is.  (For an enumeration
    the values must differ when case is ignored: the first match is
    selected.) *)
Theorem option_format_then_parse_roundtrip (opt : DeviceOption) (bufLen : nat) :
  wf_option opt -> distinct_values opt -> fits_buffer opt bufLen ->
  parseOptionValue opt (formatOptionValue opt bufLen) = (true, opt).
Proof.
  unfold wf_option, distinct_values, fits_buffer, parseOptionValue, formatOptionValue,
    OPTION_STRING_MAX_LEN.
  intros Hwf Hd [Hlen Hfit]. destruct opt as [nm desc v]. cbn [value set_value name description] in *.
  destruct v as [min max cur|b|values count cur|sv].
  - assert (Hc : 0 <= cur <= ULONG_MAX) by lia.
    pose proof (dec_digits_length cur 10 ltac:(lia) ltac:(unfold ULONG_MAX in *; lia)) as Hl.
    change (fmt_u 0 cur) with (dec_digits cur).
    rewrite snprintf_fits by lia. rewrite strtoul_dec_digits by exact Hc.
    destruct (Z.ltb_spec cur min); [lia|]. destruct (Z.gtb_spec cur max); [lia|].
    cbn [orb]. unfold to_uint32, ULONG_MAX in *. rewrite Z.mod_small by lia. reflexivity.
  - destruct b; rewrite snprintf_fits by (cbn; lia); reflexivity.
  - destruct Hwf as [Hcur Hcount]. destruct (Z.ltb_spec cur count); [|lia].
    assert (Hin : In (nth (Z.to_nat cur) values []) values) by (apply nth_In; lia).
    rewrite Forall_forall in Hfit.
    rewrite snprintf_fits by (apply Hfit, list_elem_of_In, Hin).
    rewrite (enum_index_found values cur Hd) by lia. reflexivity.
  - rewrite snprintf_fits by lia. rewrite take_ge by lia. reflexivity.
Qed.

End OptionValues.

Section OptionValuesWitness.
Import CLib Options Ref Ref2.

Lemma option_format_then_parse_roundtrip_witness :
  let opt := makeEnumOption (str "baud_rate") (str "Serial baud rate")
               G5500Opt.BAUD_RATE_OPTIONS 3 1 in
  formatOptionValue opt 32 = str "4800" /\
  parseOptionValue opt (str "4800") = (true, opt).
Proof.
  cbv zeta. split; [reflexivity|].
  apply (option_format_then_parse_roundtrip
           (makeEnumOption (str "baud_rate") (str "Serial baud rate")
              G5500Opt.BAUD_RATE_OPTIONS 3 1) 32).
  - unfold wf_option. cbn. lia.
  - unfold distinct_values, distinct_ignoring_case. cbn [value makeEnumOption].
    match goal with |- ?G => apply (@bool_decide_unpack G _) end. vm_compute. exact I.
  - split; [unfold OPTION_STRING_MAX_LEN; lia|]. cbn [value makeEnumOption].
    repeat constructor.
Defined.

End OptionValuesWitness.

(** ** Options of the rotator *)

Section RotatorOptions.
Import CLib Options G5500 G5500Opt Ref Ref2.

Lemma rotator_options_wf d :
  valid_rotator_options d -> Forall wf_option (options d).
Proof.
  intros (Hb & Ha & He). unfold options, MIN_SPEED, MAX_SPEED, NUM_BAUD_RATES in *.
  repeat constructor; unfold wf_option, ULONG_MAX; cbn; lia.
Qed.

Lemma applyBaudRate_options d : rotator_options (applyBaudRate d) = rotator_options d.
Proof. reflexivity. Qed.

Lemma valid_rotator_options_eq d d' :
  rotator_options d' = rotator_options d -> valid_rotator_options d -> valid_rotator_options d'.
Proof.
  unfold rotator_options, valid_rotator_options. intros [= -> -> ->] H. exact H.
Qed.

Lemma find_index_bound eq name0 opts : forall i j,
  find_index eq name0 opts i = Some j -> (i <= j < i + length opts)%nat.
Proof.
  induction opts as [|o r IH]; intros i j; cbn [find_index length]; [discriminate|].
  destruct (eq (name o) name0); [intros [= <-]; lia|].
  intros H. apply IH in H. lia.
Qed.

(** The option values of the rotator stay valid.  If the baud rate is one of
    the table and both speeds lie within 1 to 10, they are so after
    [setOption] with any name and text, after [deserializeOptions] of any
    bytes, and after [begin], [end] and [update]; a [setOption] that fails
    changes nothing. *)
Theorem rotator_options_stay_valid (d : G5500Device) :
  valid_rotator_options d ->
  (forall name0 value0,
     valid_rotator_options (snd (setOption name0 value0 d)) /\
     (fst (setOption name0 value0 d) = false -> snd (setOption name0 value0 d) = d)) /\
  (forall data, bytes data -> valid_rotator_options (snd (deserializeOptions data d))) /\
  (forall now, valid_rotator_options (snd (begin now d))) /\
  valid_rotator_options (end_ d) /\
  (forall now input, valid_rotator_options (update now input d)).
Proof.
  intros Hv. split; [|split; [|split; [|split]]].
  - intros name0 value0. unfold setOption, findOption.
    destruct (find_index strcmp_eq name0 (options d) 0) as [i|] eqn:Ef;
      [|split; [exact Hv | reflexivity]].
    apply find_index_bound in Ef. cbn [length options] in Ef.
    pose proof (rotator_options_wf d Hv) as Hwf.
    destruct (options d !! i) as [opt|] eqn:Eo; [|split; [exact Hv | reflexivity]].
    assert (Ho : wf_option opt) by (eapply Forall_lookup_1; eassumption).
    pose proof (parse_keeps_option_well_formed opt value0 Ho) as Hp.
    destruct (parseOptionValue opt value0) as [ok opt1] eqn:Ep. cbn [snd] in Hp.
    destruct ok; cbn [negb]; [|split; [exact Hv | reflexivity]].
    assert (Hs : valid_rotator_options (store i opt1 d)).
    { destruct Hv as (Hb & Ha & He).
      destruct i as [|[|[|i]]]; [| | |lia]; cbn in Eo; injection Eo as <-;
        unfold parseOptionValue in Ep; cbn [value makeEnumOption makeUint32Option] in Ep.
      - destruct (enum_index _ _ _ _) as [j|] eqn:Ej; [|discriminate].
        injection Ep as <-. apply enum_index_range in Ej.
        unfold valid_rotator_options, store, NUM_BAUD_RATES in *. cbn. lia.
      - destruct (strtoul value0) as [val [|? ?]]; [|discriminate].
        destruct (Z.ltb_spec val MIN_SPEED); [discriminate|].
        destruct (Z.gtb_spec val MAX_SPEED); [discriminate|]. cbn [orb] in Ep.
        injection Ep as <-. unfold valid_rotator_options, store, MIN_SPEED, MAX_SPEED in *.
        cbn. unfold to_uint32. rewrite Z.mod_small by lia. lia.
      - destruct (strtoul value0) as [val [|? ?]]; [|discriminate].
        destruct (Z.ltb_spec val MIN_SPEED); [discriminate|].
        destruct (Z.gtb_spec val MAX_SPEED); [discriminate|]. cbn [orb] in Ep.
        injection Ep as <-. unfold valid_rotator_options, store, MIN_SPEED, MAX_SPEED in *.
        cbn. unfold to_uint32. rewrite Z.mod_small by lia. lia. }
    destruct (strcmp_eq name0 (str "baud_rate") && running (store i opt1 d));
      cbn [fst snd]; (split; [|discriminate]); [|exact Hs].
    eapply valid_rotator_options_eq; [apply applyBaudRate_options | exact Hs].
  - intros data Hd. unfold deserializeOptions.
    destruct data as [|b0 [|b1 [|b2 r]]]; try exact Hv.
    apply Forall_cons in Hd as [H0 Hd]. apply Forall_cons in Hd as [H1 Hd].
    apply Forall_cons in Hd as [H2 _].
    unfold valid_rotator_options, NUM_BAUD_RATES, DEFAULT_BAUD_INDEX, MIN_SPEED, MAX_SPEED,
      DEFAULT_AZ_SPEED_INT, DEFAULT_EL_SPEED_INT.
    cbn [snd opt_baud_rate opt_az_speed opt_el_speed set_options].
    destruct (Z.geb_spec b0 3), (Z.ltb_spec b1 1), (Z.gtb_spec b1 10),
      (Z.ltb_spec b2 1), (Z.gtb_spec b2 10); cbn [orb]; lia.
  - intros now. unfold begin. destruct (negb (has_serial d)); exact Hv.
  - exact Hv.
  - intros now input. unfold update. destruct (negb (running d)); [exact Hv|].
    unfold simulateRotation. destruct (_ <? _); exact Hv.
Qed.

Lemma rotator_options_stay_valid_witness :
  let d := new true 1 in
  valid_rotator_options d /\
  valid_rotator_options (snd (setOption (str "az_speed") (str "99") d)) /\
  valid_rotator_options (snd (deserializeOptions [200; 0; 77] d)).
Proof.
  cbv zeta.
  assert (Hv : valid_rotator_options (new true 1)) by (vm_compute; intuition discriminate).
  destruct (rotator_options_stay_valid (new true 1) Hv) as (Hset & Hdes & _).
  split; [exact Hv|]. split.
  - exact (proj1 (Hset (str "az_speed") (str "99"))).
  - apply Hdes. repeat constructor; lia.
Defined.

(** Saved options are restored.  The three bytes [serializeOptions] writes
    for valid option values are accepted by [deserializeOptions], on any
    rotator device, and give it the same option values; nothing else of the
    device changes.  With room for fewer than three bytes nothing is
    written, and fewer than three bytes are refused. *)
Theorem rotator_options_serialize_roundtrip (d d' : G5500Device) (bufLen : nat) :
  valid_rotator_options d ->
  ((3 <= bufLen)%nat ->
   deserializeOptions (serializeOptions bufLen d) d'
   = (true, set_options (opt_baud_rate d) (opt_az_speed d) (opt_el_speed d) d')) /\
  ((bufLen < 3)%nat ->
   serializeOptions bufLen d = [] /\
   forall data, (length data < 3)%nat -> deserializeOptions data d' = (false, d')).
Proof.
  intros (Hb & Ha & He).
  unfold NUM_BAUD_RATES, MIN_SPEED, MAX_SPEED in *. split.
  - intros Hlen. unfold serializeOptions. destruct (Nat.ltb_spec bufLen 3); [lia|].
    unfold deserializeOptions, to_uint8, NUM_BAUD_RATES, MIN_SPEED, MAX_SPEED.
    rewrite !Z.mod_small by lia.
    destruct (Z.geb_spec (opt_baud_rate d) 3); [lia|].
    destruct (Z.ltb_spec (opt_az_speed d) 1); [lia|].
    destruct (Z.gtb_spec (opt_az_speed d) 10); [lia|].
    destruct (Z.ltb_spec (opt_el_speed d) 1); [lia|].
    destruct (Z.gtb_spec (opt_el_speed d) 10); [lia|]. reflexivity.
  - intros Hlen. unfold serializeOptions. destruct (Nat.ltb_spec bufLen 3); [|lia].
    split; [reflexivity|]. intros data Hd.
    destruct data as [|b0 [|b1 [|b2 r]]]; try reflexivity. cbn in Hd. lia.
Qed.

Lemma rotator_options_serialize_roundtrip_witness :
  let d := snd (setOption (str "el_speed") (str "3") (new true 1)) in
  valid_rotator_options d /\ serializeOptions 8 d = [2; 2; 3] /\
  rotator_options (snd (deserializeOptions (serializeOptions 8 d) (new true 2)))
  = rotator_options d.
Proof.
  cbv zeta.
  assert (Hv : valid_rotator_options (snd (setOption (str "el_speed") (str "3") (new true 1))))
    by (vm_compute; intuition discriminate).
  split; [exact Hv|]. split; [reflexivity|].
  rewrite (proj1 (rotator_options_serialize_roundtrip _ (new true 2) 8 Hv)) by lia.
  reflexivity.
Defined.

End RotatorOptions.

(** ** The GPS clock over many ticks, and the update rate *)

Section GPSMore.
Import CLib Options NMEA NMEAOpt Ref Ref2.

(** Seconds in a year of the simulator's calendar: 12 months of 28 days. *)
Lemma advanceTime_valid_seconds st :
  valid_clock st -> seconds_of (clock st) + 1 < 65535 * 29030400 ->
  valid_clock (advanceTime st) /\
  seconds_of (clock (advanceTime st)) = seconds_of (clock st) + 1.
Proof.
  intros Hv Hb. pose proof Hv as (Hs & Hm & Hh & Hd & Hmo & Hyr).
  rewrite advanceTime_next_second by exact Hv.
  rewrite clock_with_clock, (next_second_one_second _ st Hv eq_refl).
  split; [|reflexivity].
  unfold valid_clock, with_clock, next_second, clock, seconds_of in *.
  repeat match goal with
         | |- context [?a =? ?b] => destruct (Z.eqb_spec a b)
         end; cbn [set_clock second minute hour day month year]; lia.
Qed.

(** Ticks add up: [n] calls of [advanceTime] on a clock reading of the
    simulator's calendar advance it by exactly [n] seconds and leave it a
    reading of that calendar, as long as the 16-bit year is not used up. *)
Theorem gps_clock_after_n_ticks (n : nat) (st : NMEAGPSState) :
  valid_clock st -> seconds_of (clock st) + Z.of_nat n < 65535 * 29030400 ->
  valid_clock (Nat.iter n advanceTime st) /\
  seconds_of (clock (Nat.iter n advanceTime st)) = seconds_of (clock st) + Z.of_nat n.
Proof.
  intros Hv. induction n as [|n IH]; intros Hb.
  - change (Nat.iter 0 advanceTime st) with st. split; [exact Hv | lia].
  - rewrite Nat2Z.inj_succ in Hb.
    assert (Hb' : seconds_of (clock st) + Z.of_nat n < 65535 * 29030400) by lia.
    destruct (IH Hb') as [Hv' Hs'].
    change (Nat.iter (S n) advanceTime st) with (advanceTime (Nat.iter n advanceTime st)).
    assert (Hb2 : seconds_of (clock (Nat.iter n advanceTime st)) + 1 < 65535 * 29030400)
      by lia.
    destruct (advanceTime_valid_seconds (Nat.iter n advanceTime st) Hv' Hb2) as [Hv2 Hs2].
    split; [exact Hv2 | lia].
Qed.

Lemma gps_clock_after_n_ticks_witness :
  valid_clock reset /\
  clock (Nat.iter 3600 advanceTime reset) = (2025, 1, 1, 13, 0, 0) /\
  seconds_of (clock (Nat.iter 3600 advanceTime reset)) = seconds_of (clock reset) + 3600.
Proof.
  split; [exact reset_valid_clock|]. split; [vm_compute; reflexivity|].
  exact (proj2 (gps_clock_after_n_ticks 3600 reset reset_valid_clock
                  ltac:(vm_compute; reflexivity))).
Defined.

(** The update interval is never zero: whatever the option holds, it is
    1000, 200 or 100 ms. *)
Lemma getUpdateIntervalMs_values d : In (getUpdateIntervalMs d) [1000; 200; 100].
Proof.
  unfold getUpdateIntervalMs, NUM_UPDATE_RATES, DEFAULT_RATE_INDEX, UPDATE_RATE_VALUES.
  destruct (Z.geb_spec (opt_update_rate d) 3); [cbn; tauto|].
  destruct (opt_update_rate d) as [|q|q]; try (cbn; tauto).
  destruct q as [q|q|]; try lia; try (cbn; tauto).
  destruct q as [q|q|]; try lia; cbn; tauto.
Qed.

(** Setting the update rate.  [setOption] of [update_rate] accepts exactly
    the texts [1], [5] and [10]; it then selects that rate, and the device
    ticks when at least 1000, 200 or 100 ms have passed since the last
    tick.  Any other text is refused and changes nothing. *)
Theorem gps_update_rate_sets_tick_interval (d : NMEAGPSDevice) (value0 : cstring) :
  (forall i, (i < 3)%nat -> value0 = nth i UPDATE_RATE_OPTIONS [] ->
     let d1 := snd (setOption (str "update_rate") value0 d) in
     fst (setOption (str "update_rate") value0 d) = true /\
     opt_update_rate d1 = Z.of_nat i /\ opt_baud_rate d1 = opt_baud_rate d /\
     state d1 = state d /\ running d1 = running d /\
     getUpdateIntervalMs d1 = nth i [1000; 200; 100] 0) /\
  (~ In value0 UPDATE_RATE_OPTIONS ->
     setOption (str "update_rate") value0 d = (false, d)).
Proof.
  split.
  - intros i Hi ->. destruct i as [|[|[|i]]]; [| | |lia]; cbv zeta; repeat split; reflexivity.
  - intros Hn. unfold UPDATE_RATE_OPTIONS in Hn. cbn [In] in Hn.
    unfold setOption, findOption.
    change (find_index strcmp_eq (str "update_rate") (options d) 0) with (Some 1%nat).
    cbn [options lookup list_lookup]. unfold parseOptionValue.
    cbn [value makeEnumOption]. unfold NUM_UPDATE_RATES, UPDATE_RATE_OPTIONS.
    change (Z.to_nat 3) with 3%nat. cbn [enum_index].
    change (Z.to_nat 0) with 0%nat. change (Z.to_nat (0 + 1)) with 1%nat.
    change (Z.to_nat (0 + 1 + 1)) with 2%nat. cbn [nth].
    unfold strcasecmp_eq.
    assert (D : forall s, Forall (fun c => 48 <= c <= 57) s -> map tolower value0 = s -> value0 = s).
    { clear. intros s. revert value0. induction s as [|c s IH]; intros v Hs E.
      - destruct v; [reflexivity | discriminate].
      - destruct v as [|x v]; [discriminate|]. cbn [map] in E. injection E as Ex Ev.
        apply Forall_cons in Hs as [Hc Hs]. f_equal; [|apply IH; assumption].
        unfold tolower in Ex. destruct ((65 <=? x) && (x <=? 90)) eqn:Eb; [|exact Ex].
        apply andb_true_iff in Eb as [E1 E2]. apply Z.leb_le in E1, E2. lia. }
    assert (F : forall s, In s [str "1"; str "5"; str "10"] ->
                 bool_decide (map tolower value0 = map tolower s) = false).
    { intros s Hs. apply bool_decide_eq_false_2. intros E.
      assert (Hd : Forall (fun c => 48 <= c <= 57) s /\ map tolower s = s).
      { cbn [In] in Hs. destruct Hs as [<-|[<-|[<-|[]]]]; split; try reflexivity;
          vm_compute; repeat constructor; discriminate. }
      destruct Hd as [Hd Hl]. rewrite Hl in E. apply D in E; [|exact Hd].
      subst value0. cbn [In] in Hs. tauto. }
    rewrite !F by (cbn; tauto). reflexivity.
Qed.

Lemma gps_update_rate_sets_tick_interval_witness :
  let d := new true 1 in
  getUpdateIntervalMs (snd (setOption (str "update_rate") (str "5") d)) = 200 /\
  setOption (str "update_rate") (str "7") d = (false, d).
Proof.
  cbv zeta.
  destruct (gps_update_rate_sets_tick_interval (new true 1) (str "5")) as [Hset _].
  destruct (gps_update_rate_sets_tick_interval (new true 1) (str "7")) as [_ Hno].
  split.
  - exact (proj2 (proj2 (proj2 (proj2 (proj2 (Hset 1%nat ltac:(lia) eq_refl)))))).
  - apply Hno. vm_compute. intuition discriminate.
Defined.

End GPSMore.

(** ** The device manager: lookups and the factory registry *)

Section ManagerLookups.
Import CLib DevMgr DevMgrQueries Ref Ref2.

Variable P : nat.
Variables H1 H2 : bool.

Local Abbreviation createDevice := (DevMgr.createDevice P H1 H2).
Local Abbreviation destroyDevice := (DevMgr.destroyDevice P).
Local Abbreviation getSerialForUart := (DevMgr.getSerialForUart P H1 H2).
Local Abbreviation isUartAvailable := (DevMgr.isUartAvailable P H1 H2).
Local Abbreviation getDeviceByUart := (DevMgr.getDeviceByUart P).
Local Abbreviation run_ops := (DevMgr.run_ops P H1 H2).
Local Abbreviation run_op := (DevMgr.run_op P H1 H2).
Local Abbreviation consistent := (tables_consistent P).

Lemma getDevice_lookup id m :
  0 <= id < Z.of_nat MAX_DEVICES -> length (devices m) = MAX_DEVICES ->
  devices m !! Z.to_nat id = Some (getDevice id m).
Proof.
  intros Hid Hlen. unfold getDevice. destruct (Z.leb_spec (Z.of_nat MAX_DEVICES) id); [lia|].
  destruct (devices m !! Z.to_nat id) as [d|] eqn:E; [reflexivity|].
  apply lookup_ge_None in E. lia.
Qed.

(** A created device can be looked up.  When [createDevice] succeeds on a
    consistent manager, the id it returns is a slot number below
    [MAX_DEVICES] that was free; [getDevice] on that id and
    [getDeviceByUart] on the UART both yield the new device, which carries
    that id and that UART; the UART is no longer available; and every
    other id still yields what it did. *)
Theorem created_device_can_be_looked_up (m : DeviceManager) (ty : cstring) (u : Z) :
  consistent m -> 0 <= u < 256 ->
  let r := createDevice ty u m in
  snd r <> INVALID_ID ->
  0 <= snd r < Z.of_nat MAX_DEVICES /\ getDevice (snd r) m = None /\
  (exists d,
     getDevice (snd r) (fst r) = Some d /\ getDeviceByUart u (fst r) = Some d /\
     getDeviceId d = snd r /\ getUartIndex d = u) /\
  isUartAvailable u (fst r) = false /\
  (forall id, 0 <= id -> id <> snd r -> getDevice id (fst r) = getDevice id m).
Proof.
  intros Hc Hu r Hid. pose proof Hc as (L1 & L2 & L3 & Hfs & Hown).
  destruct (createDevice_cases P H1 H2 ty u m Hu Hc)
    as [[E _]|(f & slot & d & Er & Hslot & Hfree & Hf & Hcr & Hr & Ha & Hav & Hs & Em)];
    [contradiction|].
  fold r in Er, Em. cbv zeta in Em.
  destruct (getSerialForUart_tables P H1 H2 u m ltac:(lia) L3) as (T1 & T2 & T3 & T4 & T5 & _).
  rewrite T2, T3, T4 in Em.
  assert (Hb : getUartIndex d = u).
  { apply (findFactory_binds _ _ _ Hfs Hf). exact Hcr. }
  rewrite Er, Em. unfold MAX_DEVICES in *.
  split; [lia|]. split; [|split; [|split]].
  - unfold getDevice, MAX_DEVICES. destruct (Z.leb_spec (Z.of_nat 8) (Z.of_nat slot)); [lia|].
    rewrite Nat2Z.id, Hfree. reflexivity.
  - exists (setDeviceId (Z.of_nat slot) d).
    assert (G : getDevice (Z.of_nat slot)
                  (mkDeviceManager (factories (snd (getSerialForUart u m)))
                     (<[slot := Some (setDeviceId (Z.of_nat slot) d)]> (devices m))
                     (<[slot := Some f]> (deviceFactories m))
                     (<[Z.to_nat (u - 1) := Z.of_nat slot]> (uartAllocation m))
                     (serialPorts (snd (getSerialForUart u m))))
                = Some (setDeviceId (Z.of_nat slot) d)).
    { unfold getDevice, MAX_DEVICES. destruct (Z.leb_spec (Z.of_nat 8) (Z.of_nat slot)); [lia|].
      cbn [devices]. rewrite Nat2Z.id, list_lookup_insert_eq by lia. reflexivity. }
    split; [exact G|]. split; [|split; [reflexivity | exact Hb]].
    unfold DevMgr.getDeviceByUart.
    rewrite (proj2 (uart_in_range_spec P u ltac:(lia)) Hr). cbn [negb uartAllocation].
    rewrite list_lookup_insert_eq by lia.
    destruct (Z.eqb_spec (Z.of_nat slot) INVALID_ID) as [E|_];
      [unfold INVALID_ID in E; lia | exact G].
  - unfold DevMgr.isUartAvailable.
    rewrite (proj2 (uart_in_range_spec P u ltac:(lia)) Hr). cbn [negb uartAllocation].
    destruct (negb H1 && (u =? 1)); [reflexivity|].
    destruct (negb H2 && (u =? 2)); [reflexivity|].
    rewrite list_lookup_insert_eq by lia.
    destruct (Z.eqb_spec (Z.of_nat slot) INVALID_ID) as [E|_];
      [unfold INVALID_ID in E; lia | reflexivity].
  - intros id Hid0 Hne. unfold getDevice. cbn [devices].
    destruct (Z.of_nat MAX_DEVICES <=? id); [reflexivity|].
    rewrite list_lookup_insert_ne by lia. reflexivity.
Qed.

(** A destroyed device is gone.  Destroying a live device on a consistent
    manager succeeds; afterwards neither [getDevice] on its id nor
    [getDeviceByUart] on its UART finds a device, the UART is marked free,
    a second [destroyDevice] on the id fails and changes nothing, and every
    other id still yields what it did.  Destroying an id that holds no
    device fails and changes nothing. *)
Theorem destroyed_device_is_gone (m : DeviceManager) (id : Z) :
  consistent m -> 0 <= id < 256 ->
  (forall d, getDevice id m = Some d ->
     let r := destroyDevice id m in
     fst r = true /\ getDevice id (snd r) = None /\
     getDeviceByUart (getUartIndex d) (snd r) = None /\
     uartAllocation (snd r) !! Z.to_nat (getUartIndex d - 1) = Some INVALID_ID /\
     destroyDevice id (snd r) = (false, snd r) /\
     (forall id', 0 <= id' -> id' <> id -> getDevice id' (snd r) = getDevice id' m)) /\
  (getDevice id m = None -> destroyDevice id m = (false, m)).
Proof.
  intros Hc Hid. pose proof Hc as (L1 & L2 & L3 & Hfs & Hown). split.
  - intros d Hd r. subst r. unfold getDevice in Hd. unfold DevMgr.destroyDevice.
    destruct (Z.leb_spec (Z.of_nat MAX_DEVICES) id) as [|Hlt]; [discriminate|].
    destruct (devices m !! Z.to_nat id) as [[d0|]|] eqn:E; try discriminate.
    injection Hd as ->.
    destruct (Hown _ _ E) as [Hr Ha].
    set (d' := if isRunning d then dev_end d else d).
    assert (Eu : getUartIndex d' = getUartIndex d)
      by (subst d'; destruct (isRunning d); reflexivity).
    rewrite Eu, (proj2 (uart_in_range_spec P (getUartIndex d) ltac:(lia)) Hr).
    cbn [fst snd]. unfold MAX_DEVICES in *.
    assert (Hl : (Z.to_nat id < length (devices m))%nat) by lia.
    split; [reflexivity|]. split; [|split; [|split; [|split]]].
    + unfold getDevice, MAX_DEVICES. destruct (Z.leb_spec (Z.of_nat 8) id); [reflexivity|].
      cbn [devices]. rewrite list_lookup_insert_eq by exact Hl. reflexivity.
    + unfold DevMgr.getDeviceByUart.
      rewrite (proj2 (uart_in_range_spec P (getUartIndex d) ltac:(lia)) Hr).
      cbn [negb uartAllocation]. rewrite list_lookup_insert_eq by lia. reflexivity.
    + cbn [uartAllocation]. rewrite list_lookup_insert_eq by lia. reflexivity.
    + unfold MAX_DEVICES. destruct (Z.leb_spec (Z.of_nat 8) id); [lia|].
      cbn [devices]. rewrite list_lookup_insert_eq by exact Hl. reflexivity.
    + intros id' Hid' Hne. unfold getDevice. cbn [devices].
      destruct (Z.of_nat MAX_DEVICES <=? id'); [reflexivity|].
      rewrite list_lookup_insert_ne by lia. reflexivity.
  - unfold getDevice, DevMgr.destroyDevice.
    destruct (Z.of_nat MAX_DEVICES <=? id); [reflexivity|].
    destruct (devices m !! Z.to_nat id) as [[d0|]|]; try reflexivity. discriminate.
Qed.

(** *** The registry of factories *)

Lemma createDevice_factories ty u m : factories (fst (createDevice ty u m)) = factories m.
Proof.
  unfold DevMgr.createDevice.
  destruct (negb (uart_in_range P u)); [reflexivity|].
  destruct (negb (isUartAvailable u m)); [reflexivity|].
  destruct (findFactory (resolveTypeName ty) m); [|reflexivity].
  destruct (findFreeDeviceSlot m =? INVALID_ID); [reflexivity|].
  assert (E : factories (snd (getSerialForUart u m)) = factories m).
  { unfold DevMgr.getSerialForUart. destruct (negb (uart_in_range P u)); [reflexivity|].
    destruct (serialPorts m !! Z.to_nat (u - 1)) as [[|]|]; try reflexivity;
      destruct (_ || _); reflexivity. }
  destruct (getSerialForUart u m) as [serial m1]. cbn [snd] in E.
  destruct (negb serial); [exact E|]. destruct (create f u); exact E.
Qed.

Lemma run_op_factories o m :
  factories (run_op m o) = factories m \/
  exists f, o = RegisterFactory f /\ factories (run_op m o) = factories m ++ [f] /\
            (length (factories m) < MAX_DEVICE_FACTORIES)%nat.
Proof.
  destruct o as [f|ty u|ty u data|id|u|id|id]; cbn [DevMgr.run_op].
  - unfold registerFactory.
    destruct (Nat.leb_spec MAX_DEVICE_FACTORIES (length (factories m))); [left; reflexivity|].
    destruct (existsb _ _); [left; reflexivity|].
    right. exists f. cbn [snd factories]. auto.
  - left. apply createDevice_factories.
  - left. apply createDevice_factories.
  - left. unfold DevMgr.destroyDevice. destruct (_ <=? _); [reflexivity|].
    destruct (devices m !! Z.to_nat id) as [[d|]|]; reflexivity.
  - left. unfold DevMgr.getSerialForUart. destruct (negb (uart_in_range P u)); [reflexivity|].
    destruct (serialPorts m !! Z.to_nat (u - 1)) as [[|]|]; try reflexivity;
      destruct (_ || _); reflexivity.
  - left. unfold on_device. destruct (getDevice id m); reflexivity.
  - left. unfold on_device. destruct (getDevice id m); reflexivity.
Qed.

(** Registered factories are kept.  No sequence of manager calls removes or
    reorders a registered factory: the registry only grows at its end, and
    never beyond [MAX_DEVICE_FACTORIES]; so a type name that resolves to a
    factory keeps resolving to that same factory, and [getFactory] keeps
    its answer at every index in use. *)
Theorem registered_factories_are_kept (ops : list op) (m : DeviceManager) :
  (exists more, factories (run_ops ops m) = factories m ++ more) /\
  ((length (factories m) <= MAX_DEVICE_FACTORIES)%nat ->
   (length (factories (run_ops ops m)) <= MAX_DEVICE_FACTORIES)%nat) /\
  (forall ty f, findFactory ty m = Some f -> findFactory ty (run_ops ops m) = Some f) /\
  (forall i f, getFactory i m = Some f -> getFactory i (run_ops ops m) = Some f).
Proof.
  assert (G : exists more, factories (run_ops ops m) = factories m ++ more /\
                ((length (factories m) <= MAX_DEVICE_FACTORIES)%nat ->
                 (length (factories (run_ops ops m)) <= MAX_DEVICE_FACTORIES)%nat)).
  { revert m. induction ops as [|o ops IH]; intros m.
    - exists []. cbn. rewrite app_nil_r. auto.
    - change (run_ops (o :: ops) m) with (run_ops ops (run_op m o)).
      destruct (IH (run_op m o)) as (more & E & Hl).
      destruct (run_op_factories o m) as [Eo|(f & _ & Eo & Hlt)]; rewrite Eo in *.
      + exists more. auto.
      + exists (f :: more). split; [rewrite E, <- app_assoc; reflexivity|].
        intros _. apply Hl. rewrite length_app. cbn. lia. }
  destruct G as (more & E & Hl).
  split; [exists more; exact E|]. split; [exact Hl|]. split.
  - intros ty f Hf. unfold findFactory in *. rewrite E. apply find_app_Some, Hf.
  - intros i f. unfold getFactory. rewrite E, length_app.
    destruct (Nat.leb_spec (length (factories m)) i); [discriminate|].
    intros Hi. destruct (Nat.leb_spec (length (factories m) + length more) i); [lia|].
    rewrite lookup_app_l by lia. exact Hi.
Qed.

End ManagerLookups.

Section ManagerLookupsWitness.
Import CLib DevMgr DevMgrQueries Ref Ref2.

Lemma firmware_manager_consistent :
  tables_consistent 2
    (run_ops 2 true true
       [RegisterFactory YaesuDeviceFactory; RegisterFactory G5500DeviceFactory;
        RegisterFactory NMEAGPSDeviceFactory; CreateDevice (str "yaesu") 1] (empty 2)).
Proof.
  apply consistent_run_ops; [|apply consistent_empty].
  destruct firmware_factories_bind_uart as (Hy & Hg & Hn).
  repeat constructor; try assumption; cbn; lia.
Qed.

Lemma created_device_can_be_looked_up_witness :
  let m := run_ops 2 true true
             [RegisterFactory YaesuDeviceFactory; RegisterFactory G5500DeviceFactory;
              RegisterFactory NMEAGPSDeviceFactory; CreateDevice (str "yaesu") 1] (empty 2) in
  let r := createDevice 2 true true (str "g-5500") 2 m in
  snd r = 1 /\
  option_map getName (getDeviceByUart 2 2 (fst r)) = Some (str "g-5500") /\
  isUartAvailable 2 true true 2 (fst r) = false.
Proof.
  cbv zeta.
  destruct (created_device_can_be_looked_up 2 true true _ (str "g-5500") 2
              firmware_manager_consistent ltac:(lia)) as (_ & _ & _ & Hav & _).
  - vm_compute. discriminate.
  - split; [reflexivity|]. split; [reflexivity | exact Hav].
Defined.

Lemma destroyed_device_is_gone_witness :
  let m := run_ops 2 true true
             [RegisterFactory YaesuDeviceFactory; RegisterFactory G5500DeviceFactory;
              RegisterFactory NMEAGPSDeviceFactory; CreateDevice (str "yaesu") 1] (empty 2) in
  option_map getName (getDevice 0 m) = Some (str "yaesu") /\
  getDevice 0 (snd (destroyDevice 2 0 m)) = None /\
  destroyDevice 2 5 m = (false, m).
Proof.
  cbv zeta.
  destruct (destroyed_device_is_gone 2 _ 0 firmware_manager_consistent ltac:(lia)) as [Hd _].
  destruct (destroyed_device_is_gone 2 _ 5 firmware_manager_consistent ltac:(lia)) as [_ Hn].
  split; [reflexivity|]. split.
  - exact (proj1 (proj2 (Hd _ eq_refl))).
  - apply Hn. reflexivity.
Defined.

Lemma registered_factories_are_kept_witness :
  let m := run_ops 2 true true
             [RegisterFactory YaesuDeviceFactory; RegisterFactory G5500DeviceFactory;
              RegisterFactory NMEAGPSDeviceFactory] (empty 2) in
  let m' := run_ops 2 true true
              [CreateDevice (str "yaesu") 1; RegisterFactory YaesuDeviceFactory;
               DestroyDevice 0; CreateDevice (str "gps") 2] m in
  findFactory (str "g-5500") m' = Some G5500DeviceFactory /\
  getFactory 2 m' = Some NMEAGPSDeviceFactory /\
  (length (factories m') <= MAX_DEVICE_FACTORIES)%nat.
Proof.
  cbv zeta.
  destruct (registered_factories_are_kept 2 true true
              [CreateDevice (str "yaesu") 1; RegisterFactory YaesuDeviceFactory;
               DestroyDevice 0; CreateDevice (str "gps") 2]
              (run_ops 2 true true
                 [RegisterFactory YaesuDeviceFactory; RegisterFactory G5500DeviceFactory;
                  RegisterFactory NMEAGPSDeviceFactory] (empty 2)))
    as (_ & Hl & Hf & Hg).
  split; [apply Hf; reflexivity|]. split; [apply Hg; reflexivity|].
  apply Hl. vm_compute. lia.
Defined.

End ManagerLookupsWitness.

(** ** The radio device: life cycle, meters and options *)

Section RadioDevice.
Import CLib Options YaesuDev Ref Ref2.

(** A stop-start cycle keeps the radio state.  Unlike the rotator and the
    GPS, the radio device does not reset its simulated state in [begin]:
    after [end] and [begin] the device runs with the frequencies, modes and
    other settings it had, with the same options and an empty command
    buffer.  [begin] on a running device and [end] on a stopped one change
    nothing. *)
Theorem radio_restart_keeps_state (d : YaesuDevice) :
  has_serial d = true ->
  let d1 := snd (begin (end_ d)) in
  fst (begin (end_ d)) = true /\ running d1 = true /\
  Yaesu.state (parser d1) = Yaesu.state (parser d) /\
  Yaesu.serial_out (parser d1) = Yaesu.serial_out (parser d) /\
  Yaesu.buffer (parser d1) = [] /\
  options d1 = options d /\
  port d1 = Some (nth (Z.to_nat (baud_index d)) baudRates 0) /\
  (running d = true -> begin d = (true, d)) /\
  (running d = false -> end_ d = d).
Proof.
  intros Hs. unfold begin, end_.
  destruct (running d) eqn:Hr; cbn [negb running set_running set_port has_serial];
    rewrite ?Hr, Hs; cbn [negb fst snd]; repeat split; try reflexivity; discriminate.
Qed.

Lemma radio_restart_keeps_state_witness :
  let d := update (str "FA007074000;MD03;") (snd (begin (new true 1))) in
  Yaesu.freqVfoA (Yaesu.state (parser d)) = 7074000 /\
  Yaesu.state (parser (snd (begin (end_ d)))) = Yaesu.state (parser d).
Proof.
  cbv zeta. split; [reflexivity|].
  exact (proj1 (proj2 (proj2 (radio_restart_keeps_state
                                (update (str "FA007074000;MD03;") (snd (begin (new true 1))))
                                eq_refl)))).
Defined.

(** Meters set from the console are what the CAT client reads.  For a meter
    type 0 to 4 (S-meter, power, SWR, ALC, compression) and a byte value,
    [setMeter] succeeds, [getMeter] of that type returns the value and the
    other meters keep theirs; the CAT command [RM] with the digit of the
    meter (1 to 5) is then answered with [RM], that digit and the three
    digits of the value.  [setMeter] with any other type fails and changes
    nothing. *)
Theorem radio_meter_set_then_read (d : YaesuDevice) (t v : Z) :
  running d = true -> Yaesu.buffer (parser d) = [] ->
  0 <= v <= 255 ->
  (0 <= t <= 4 ->
   let d1 := snd (setMeter t v d) in
   fst (setMeter t v d) = true /\ getMeter t d1 = v /\
   (forall t', t' <> t -> getMeter t' d1 = getMeter t' d) /\
   Yaesu.serial_out (parser (update (str "RM" ++ [49 + t] ++ str ";") d1))
   = Yaesu.serial_out (parser d) ++ str "RM" ++ [49 + t] ++ decimal_digits 3 v ++ str ";") /\
  (~ 0 <= t <= 4 -> setMeter t v d = (false, d)).
Proof.
  intros Hrun Hbuf Hv. split.
  - intros Ht.
    assert (Hcase : t = 0 \/ t = 1 \/ t = 2 \/ t = 3 \/ t = 4) by lia.
    assert (Hf : fmt_d 3 v = decimal_digits 3 v) by (apply fmt_d_decimal_digits; cbn; lia).
    destruct d as [hs pt ui di rn [s out b] opts]. cbn [running parser Yaesu.buffer] in *.
    subst rn b.
    destruct Hcase as [->|[->|[->|[->| ->]]]]; cbv zeta;
      (split; [reflexivity|]); (split; [reflexivity|]); (split;
       [intros t' Ht'; unfold getMeter, setMeter, SMETER, POWER, SWR, ALC, COMP;
        cbn [Z.eqb parser set_parser Yaesu.state Yaesu.with_state snd Pos.eqb];
        repeat match goal with
               | |- context [t' =? ?k] => destruct (Z.eqb_spec t' k); [try lia; try reflexivity|]
               end; reflexivity|]).
    all: unfold update, setMeter, SMETER, POWER, SWR, ALC, COMP;
      cbn [Z.eqb Pos.eqb snd running set_parser parser negb Yaesu.with_state Yaesu.state
           Yaesu.serial_out Yaesu.buffer].
    all: match goal with
         | |- context [Yaesu.update ?inp ?q] =>
             let l := eval vm_compute in (removelast inp) in
             change inp with (l ++ [Yaesu.CAT_TERMINATOR]);
             rewrite (update_line l q);
               [|reflexivity
                |repeat (constructor; [unfold buffered_as_is, Yaesu.CAT_TERMINATOR; lia|]);
                 constructor
                |discriminate
                |cbn; lia]
         end.
    all: match goal with
         | |- context [Yaesu.processCommand (Yaesu.set_buffer (?c0 :: ?c1 :: ?params) ?q)] =>
             change (Yaesu.processCommand (Yaesu.set_buffer (c0 :: c1 :: params) q))
               with (Yaesu.handleRM params (Yaesu.set_buffer (c0 :: c1 :: params) q))
         end.
    all: unfold Yaesu.handleRM, Yaesu.sendResponse; cbv zeta;
      change (49 - 48) with 1; change (50 - 48) with 2; change (51 - 48) with 3;
      change (52 - 48) with 4; change (53 - 48) with 5;
      cbn [Z.eqb Pos.eqb Yaesu.set_buffer Yaesu.with_state Yaesu.state Yaesu.serial_out
           Yaesu.buffer set_meters Yaesu.smeter Yaesu.powerMeter Yaesu.swrMeter
           Yaesu.alcMeter Yaesu.compMeter];
      change (fmt_d 0 1) with [49]; change (fmt_d 0 2) with [50];
      change (fmt_d 0 3) with [51]; change (fmt_d 0 4) with [52];
      change (fmt_d 0 5) with [53]; change (str "RM") with [82; 77];
      rewrite Hf;
      rewrite snprintf_fits
        by (rewrite !length_app, decimal_digits_length; cbn [length]; lia);
      rewrite <- ?app_assoc; reflexivity.
  - intros Ht. unfold setMeter, SMETER, POWER, SWR, ALC, COMP.
    repeat match goal with
           | |- context [t =? ?k] => destruct (Z.eqb_spec t k); [lia|]
           end.
    reflexivity.
Qed.

Lemma radio_meter_set_then_read_witness :
  let d := snd (begin (new true 1)) in
  Yaesu.serial_out (parser (update (str "RM1;") (snd (setMeter SMETER 137 d))))
  = str "RM1137;" /\
  setMeter 9 1 d = (false, d).
Proof.
  cbv zeta.
  destruct (radio_meter_set_then_read (snd (begin (new true 1))) 0 137 eq_refl eq_refl
              ltac:(lia)) as [Hset _].
  destruct (radio_meter_set_then_read (snd (begin (new true 1))) 9 1 eq_refl eq_refl
              ltac:(lia)) as [_ Hno].
  split.
  - exact (proj2 (proj2 (proj2 (Hset ltac:(lia))))).
  - apply Hno. lia.
Defined.

(** The baud rate of the radio stays one of the table.  [applyBaudRate]
    reads [baudRates[baudIndex]] without a check; the index it finds is
    always below [NUM_BAUD_RATES]: the option descriptors keep their shape
    and a valid selection through [setOption] with any name and text,
    [deserializeOptions] of any bytes, [begin], [end] and [update].  Saved
    options are restored by [deserializeOptions]. *)
Theorem radio_baud_index_stays_in_table (d : YaesuDevice) :
  valid_radio_options d ->
  0 <= baud_index d < NUM_BAUD_RATES /\
  (forall name0 value0, valid_radio_options (snd (setOption name0 value0 d))) /\
  (forall data, bytes data -> valid_radio_options (snd (deserializeOptions data d))) /\
  valid_radio_options (snd (begin d)) /\ valid_radio_options (end_ d) /\
  (forall input, valid_radio_options (update input d)) /\
  (forall bufLen d', (2 <= bufLen)%nat -> valid_radio_options d' ->
     options (snd (deserializeOptions (serializeOptions bufLen d) d')) = options d).
Proof.
  intros (i & e & Eo & Hi). unfold NUM_BAUD_RATES in *.
  assert (Hbi : baud_index d = i) by (unfold baud_index; rewrite Eo; reflexivity).
  assert (Hec : echo d = e) by (unfold echo; rewrite Eo; reflexivity).
  split; [lia|]. split; [|split; [|split; [|split; [|split]]]].
  - intros name0 value0. unfold setOption, findOption. rewrite Eo.
    unfold makeEnumOption, makeBoolOption. cbn [find_index name].
    destruct (strcasecmp_eq (str "baud_rate") name0).
    + cbn [lookup list_lookup]. unfold parseOptionValue. cbn [value].
      destruct (enum_index value0 baudRateValues (Z.to_nat 4) 0) as [j|] eqn:Ej.
      * apply enum_index_range in Ej.
        assert (Hv : valid_radio_options
                       (set_options (<[0%nat := set_value (EnumVal baudRateValues 4 j)
                                        (mkDeviceOption (str "baud_rate") (str "Serial baud rate")
                                           (EnumVal baudRateValues 4 i))]>
                                       [mkDeviceOption (str "baud_rate") (str "Serial baud rate")
                                          (EnumVal baudRateValues 4 i);
                                        mkDeviceOption (str "echo")
                                          (str "Echo CAT commands to console") (BoolVal e)]) d)).
        { exists j, e. split; [reflexivity | unfold NUM_BAUD_RATES; lia]. }
        destruct Hv as (i0 & e0 & E0 & H0).
        match goal with |- context [if ?c then _ else _] => destruct c end;
          cbn [snd]; exists i0, e0; (split; [exact E0 | exact H0]).
      * cbn [andb fst snd]. exists i, e. split; [reflexivity | unfold NUM_BAUD_RATES; lia].
    + destruct (strcasecmp_eq (str "echo") name0); [|exists i, e; cbn [snd]; rewrite Eo;
        split; [reflexivity | unfold NUM_BAUD_RATES; lia]].
      cbn [lookup list_lookup]. unfold parseOptionValue. cbn [value].
      repeat match goal with |- context [if ?c then _ else _] => destruct c end;
        cbn [snd]; eexists i, _; (split; [reflexivity | unfold NUM_BAUD_RATES; lia]).
  - intros data Hd. unfold deserializeOptions.
    destruct data as [|b0 [|b1 r]];
      try (exists i, e; cbn [snd]; rewrite Eo; split; [reflexivity | unfold NUM_BAUD_RATES; lia]).
    apply Forall_cons in Hd as [H0 _]. cbn [snd]. unfold store_current. rewrite Eo.
    eexists _, _. split; [reflexivity|].
    unfold NUM_BAUD_RATES, DEFAULT_BAUD_INDEX. destruct (Z.geb_spec b0 4); lia.
  - unfold begin. destruct (running d); [|destruct (negb (has_serial d))];
      exists i, e; cbn [snd]; (split; [exact Eo | unfold NUM_BAUD_RATES; lia]).
  - unfold end_. destruct (negb (running d));
      exists i, e; (split; [exact Eo | unfold NUM_BAUD_RATES; lia]).
  - intros input. unfold update. destruct (negb (running d));
      exists i, e; (split; [exact Eo | unfold NUM_BAUD_RATES; lia]).
  - intros bufLen d' Hlen (i' & e' & Eo' & Hi').
    unfold serializeOptions. destruct (Nat.ltb_spec bufLen 2); [lia|].
    rewrite Hbi, Hec. unfold deserializeOptions, store_current, NUM_BAUD_RATES.
    destruct (Z.geb_spec i 4); [lia|]. cbn [snd options set_options]. rewrite Eo', Eo.
    destruct e; reflexivity.
Qed.

Lemma radio_baud_index_stays_in_table_witness :
  let d := new true 1 in
  valid_radio_options d /\
  valid_radio_options (snd (setOption (str "BAUD_RATE") (str "9600") d)) /\
  baud_index (snd (setOption (str "BAUD_RATE") (str "9600") d)) = 1 /\
  valid_radio_options (snd (deserializeOptions [250; 1] d)).
Proof.
  cbv zeta.
  assert (Hv : valid_radio_options (new true 1)).
  { exists 3, false. split; [reflexivity | unfold NUM_BAUD_RATES; lia]. }
  destruct (radio_baud_index_stays_in_table (new true 1) Hv) as (_ & Hset & Hdes & _).
  split; [exact Hv|]. split; [apply Hset|]. split; [reflexivity|].
  apply Hdes. repeat constructor; lia.
Defined.

End RadioDevice.

(** ** The console: splitting a command line into arguments *)

Section ConsoleArgs.
Import CLib Console Ref Ref2.

Lemma skip_blanks_pad pad rest :
  blanks pad -> skip_blanks (pad ++ rest) = skip_blanks rest.
Proof.
  induction 1 as [|c pad Hc _ IH]; [reflexivity|].
  cbn [app skip_blanks]. rewrite Hc. exact IH.
Qed.

Lemma skip_blanks_blanks pad : blanks pad -> skip_blanks pad = [].
Proof.
  intros H. rewrite <- (app_nil_r pad), skip_blanks_pad by exact H. reflexivity.
Qed.

Lemma scan_until_word w rest :
  Forall (fun c => is_blank c = false) w ->
  match rest with [] => True | c :: _ => is_blank c = true end ->
  scan_until is_blank (w ++ rest) = (w, rest).
Proof.
  intros Hw Hr. induction Hw as [|c w Hc _ IH].
  - destruct rest as [|c r]; [reflexivity|]. cbn [app scan_until]. rewrite Hr. reflexivity.
  - cbn [app scan_until]. rewrite Hc, IH. reflexivity.
Qed.

Lemma parseArgs_word pad w rest n :
  blanks pad -> plain_word w ->
  match rest with [] => True | c :: _ => is_blank c = true end ->
  parseArgs (pad ++ w ++ rest) (S n) = w :: parseArgs (drop 1 rest) n.
Proof.
  intros Hp (Hne & Hw0 & Hq) Hr.
  assert (Hw : Forall (fun c => is_blank c = false) w)
    by (apply (Forall_impl _ _ _ Hw0); intros c Hc; exact (proj1 Hc)).
  cbn [parseArgs]. rewrite skip_blanks_pad by exact Hp.
  destruct w as [|c w]; [contradiction|]. cbn [hd] in Hq.
  pose proof (Forall_inv Hw) as Hc. cbn beta in Hc.
  cbn [app skip_blanks]. rewrite Hc.
  assert (E : scan_until is_blank (c :: w ++ rest) = (c :: w, rest))
    by (apply (scan_until_word (c :: w) rest); assumption).
  destruct c as [|q|q]; try (rewrite E; reflexivity).
  repeat (destruct q as [q|q|]; try (rewrite E; reflexivity)).
  contradiction.
Qed.

Lemma parseArgs_blanks pad n : blanks pad -> parseArgs pad n = [].
Proof.
  intros H. destruct n; [reflexivity|]. cbn [parseArgs].
  rewrite skip_blanks_blanks by exact H. reflexivity.
Qed.

(** Splitting a command line.  A line made of words joined by single
    blanks, with any blanks and tabs before and after, is split into those
    words, in order; when there are more words than [maxArgs], into the
    first [maxArgs] of them.  A blank line has no arguments. *)
Theorem console_line_splits_into_words
    (ws : list cstring) (pad trail : cstring) (maxArgs : nat) :
  Forall plain_word ws -> blanks pad -> blanks trail ->
  parseArgs (pad ++ join_words ws ++ trail) maxArgs = take maxArgs ws.
Proof.
  intros Hws Hp Ht.
  destruct ws as [|w ws].
  { cbn [join_words app]. rewrite take_nil. apply parseArgs_blanks.
    apply Forall_app; split; assumption. }
  apply Forall_cons in Hws as [Hw Hws]. cbn [join_words].
  revert w pad maxArgs Hw Hp. induction Hws as [|v ws Hv Hws IH]; intros w pad maxArgs Hw Hp.
  - cbn [map concat]. rewrite app_nil_r.
    destruct maxArgs as [|n]; [reflexivity|].
    rewrite parseArgs_word; try assumption.
    + rewrite parseArgs_blanks; [destruct n; reflexivity|].
      unfold blanks in *. destruct trail; [constructor|]. apply Forall_cons in Ht as [_ Ht]. exact Ht.
    + destruct trail; [exact I|]. apply Forall_cons in Ht as [Hc _]. exact Hc.
  - cbn [map concat]. destruct maxArgs as [|n]; [reflexivity|].
    rewrite <- !app_assoc. cbn [app].
    rewrite parseArgs_word; try assumption; [|reflexivity].
    cbn [drop take]. f_equal.
    specialize (IH v [] n Hv ltac:(constructor)). cbn [app] in IH.
    rewrite <- app_assoc in IH. exact IH.
Qed.

Lemma console_line_splits_into_words_witness :
  parseArgs (str "  create yaesu 1 ") 8 = [str "create"; str "yaesu"; str "1"] /\
  parseArgs (str "set 0 az_speed 5") 2 = [str "set"; str "0"].
Proof.
  assert (Hw : Forall plain_word [str "create"; str "yaesu"; str "1"]).
  { repeat constructor; try discriminate; vm_compute; discriminate. }
  assert (Hw2 : Forall plain_word [str "set"; str "0"; str "az_speed"; str "5"]).
  { repeat constructor; try discriminate; vm_compute; discriminate. }
  split.
  - apply (console_line_splits_into_words [str "create"; str "yaesu"; str "1"]
             (str "  ") (str " ") 8 Hw); repeat constructor.
  - apply (console_line_splits_into_words [str "set"; str "0"; str "az_speed"; str "5"]
             [] [] 2 Hw2); constructor.
Defined.

End ConsoleArgs.
